(** * vibe-scaffold: a shallow embedding of [vibe_scaffold/cli.py]

    The scaffolder is a straight-line script over three pieces of mutable
    environment: the file system, the terminal (stdin / stdout) and the
    external [git] binary.  The embedding keeps them in one [World] record that
    is threaded through a state-and-exception monad: a Python exception is a
    [Raise] outcome, and the state reached when it was raised is kept, since
    side effects that happened before an exception are not undone.

    Python [str] values are Rocq strings holding their UTF-8 bytes. *)

From Stdlib Require Import Ascii String NArith ZArith Lia.
From stdpp Require Import gmap strings list pretty.

Open Scope string_scope.

(** ** Outcomes and the state-and-exception monad *)

Inductive exn : Type :=
  | FileNotFoundError
  | FileExistsError
  | NotADirectoryError
  | IsADirectoryError
  | PermissionError
  | EOFError
  | KeyError (key : string)
  | CalledProcessError (cmd : list string) (returncode : Z).

Inductive outcome (A : Type) : Type :=
  | Ok (a : A)
  | Raise (e : exn).
Arguments Ok {A} a.
Arguments Raise {A} e.

Definition SE (S A : Type) : Type := S -> outcome A * S.

Definition ret {S A} (a : A) : SE S A := fun s => (Ok a, s).

Definition raise {S A} (e : exn) : SE S A := fun s => (Raise e, s).

Definition bind {S A B} (m : SE S A) (k : A -> SE S B) : SE S B :=
  fun s =>
    match m s with
    | (Ok a, s') => k a s'
    | (Raise e, s') => (Raise e, s')
    end.

Declare Scope se_scope.
Delimit Scope se_scope with se.
Notation "x <- m ;; k" := (bind m (fun x => k))
  (at level 20, m at level 99, k at level 200, only parsing) : se_scope.
Notation "m ;; k" := (bind m (fun _ => k))
  (at level 100, k at level 200, only parsing, right associativity) : se_scope.
Open Scope se_scope.

(** [try: body / except Exception as e: handler(e)] *)
Definition try_except {S A} (body : SE S A) (handler : exn -> SE S A) : SE S A :=
  fun s =>
    match body s with
    | (Ok a, s') => (Ok a, s')
    | (Raise e, s') => handler e s'
    end.

(** [for x in l: body(x)] *)
Fixpoint for_each {S A} (l : list A) (body : A -> SE S unit) : SE S unit :=
  match l with
  | [] => ret tt
  | x :: rest => body x ;; for_each rest body
  end.

(** ** Paths and the file system

    A [pathlib.Path] is the list of its components, innermost first, so that
    [Path.parent] is the tail of the list and the root directory [/] is the
    empty list (its parent is itself).  [p / d] is pathlib's [p / "d"] for a
    single segment [d].

    The file system holds directories and regular files, each under a name
    that is a plain segment (not empty, not [.] or [..], free of slashes);
    it has no symbolic and no hard links, so that an entry is reached by one
    path only. *)

Abbreviation Path := (list string).

Declare Scope path_scope.
Delimit Scope path_scope with path.
Notation "p / d" := (@cons string d p) : path_scope.

Definition parent (p : Path) : Path := tail p.

(** [join root ["src"; "frontend"]] is [root / "src" / "frontend"]. *)
Definition join (root : Path) (ds : list string) : Path := reverse ds ++ root.

Inductive node : Type :=
  | Dir
  | File (content : string).

Global Instance node_eq_dec : EqDecision node.
Proof. solve_decision. Defined.

Abbreviation FS := (gmap (list string) node).

(** What [os.stat] sees at [p]; the root directory always exists. *)
Definition stat (fs : FS) (p : Path) : option node :=
  match p with
  | [] => Some Dir
  | _ => fs !! p
  end.

(** [Path.exists()] and [Path.is_dir()] *)
Definition path_exists (fs : FS) (p : Path) : bool :=
  match stat fs p with Some _ => true | None => false end.

Definition is_dir (fs : FS) (p : Path) : bool :=
  match stat fs p with Some Dir => true | _ => false end.

(** [Path.iterdir()]: the entries whose parent is [p]; on something that is
    not a directory it raises. *)
Definition children (fs : FS) (p : Path) : list Path :=
  filter (fun q => q ≠ [] ∧ parent q = p) (map_to_list fs).*1.

Definition iterdir (p : Path) : SE FS (list Path) :=
  fun fs =>
    match stat fs p with
    | None => (Raise FileNotFoundError, fs)
    | Some (File _) => (Raise NotADirectoryError, fs)
    | Some Dir => (Ok (children fs p), fs)
    end.

(** [os.mkdir(p)]: the parent must be a directory and [p] must be free. *)
Definition os_mkdir (p : Path) : SE FS unit :=
  fun fs =>
    match p with
    | [] => (Raise FileExistsError, fs)
    | _ :: up =>
        match stat fs up with
        | None => (Raise FileNotFoundError, fs)
        | Some (File _) => (Raise NotADirectoryError, fs)
        | Some Dir =>
            match fs !! p with
            | Some _ => (Raise FileExistsError, fs)
            | None => (Ok tt, <[p := Dir]> fs)
            end
        end
    end.

(** [Path.mkdir(parents=False, exist_ok=...)]:
<<
    try: os.mkdir(self)
    except FileNotFoundError: raise             # not parents
    except OSError:
        if not exist_ok or not self.is_dir(): raise
>> *)
Definition mkdir_flat (p : Path) (exist_ok : bool) : SE FS unit :=
  fun fs =>
    match os_mkdir p fs with
    | (Ok _, fs1) => (Ok tt, fs1)
    | (Raise FileNotFoundError, fs1) => (Raise FileNotFoundError, fs1)
    | (Raise e, fs1) =>
        if exist_ok && is_dir fs1 p then (Ok tt, fs1) else (Raise e, fs1)
    end.

(** [Path.mkdir(parents=..., exist_ok=...)]:
<<
    try: os.mkdir(self)
    except FileNotFoundError:
        if not parents or self.parent == self: raise
        self.parent.mkdir(parents=True, exist_ok=True)
        self.mkdir(mode, parents=False, exist_ok=exist_ok)
    except OSError:
        if not exist_ok or not self.is_dir(): raise
>> *)
Fixpoint mkdir (p : Path) (parents exist_ok : bool) (fs : FS)
  {struct p} : outcome unit * FS :=
  match os_mkdir p fs with
  | (Ok _, fs1) => (Ok tt, fs1)
  | (Raise FileNotFoundError, fs1) =>
      match p with
      | [] => (Raise FileNotFoundError, fs1)
      | _ :: up =>
          if parents then
            match mkdir up true true fs1 with
            | (Ok _, fs2) => mkdir_flat p exist_ok fs2
            | (Raise e, fs2) => (Raise e, fs2)
            end
          else (Raise FileNotFoundError, fs1)
      end
  | (Raise e, fs1) =>
      if exist_ok && is_dir fs1 p then (Ok tt, fs1) else (Raise e, fs1)
  end.

(** [Path.write_text(content, encoding="utf-8")]: opens for writing, which
    truncates an existing regular file and fails on a directory or when the
    parent is missing. *)
Definition write_text (p : Path) (content : string) : SE FS unit :=
  fun fs =>
    match p with
    | [] => (Raise IsADirectoryError, fs)
    | _ :: up =>
        match stat fs up with
        | None => (Raise FileNotFoundError, fs)
        | Some (File _) => (Raise NotADirectoryError, fs)
        | Some Dir =>
            match fs !! p with
            | Some Dir => (Raise IsADirectoryError, fs)
            | _ => (Ok tt, <[p := File content]> fs)
            end
        end
    end.

(** In a file system every entry sits in a directory. *)
Definition well_formed (fs : FS) : Prop :=
  map_Forall (fun p _ => stat fs (parent p) = Some Dir) fs.

(** No regular file sits at [p] or above it, so [p] can be made a directory. *)
Definition creatable (fs : FS) (p : Path) : Prop :=
  ∀ q, q `suffix_of` p -> stat fs q = None ∨ stat fs q = Some Dir.

(** [fs'] extends [fs] by directories at [p] or above it, and nothing else. *)
Definition grows_to (p : Path) (fs fs' : FS) : Prop :=
  ∀ q, fs' !! q = fs !! q ∨
       (fs !! q = None ∧ fs' !! q = Some Dir ∧ q `suffix_of` p).

(** A computation keeps the relation [R] when every run of it, whether it
    returns or raises, takes a file system to one related to it. *)
Definition keeps {A : Type} (R : FS -> FS -> Prop) (m : SE FS A) : Prop :=
  ∀ fs r fs', m fs = (r, fs') -> R fs fs'.

(** Only paths in [S] have changed between [fs] and [fs']. *)
Definition changes_within (S : Path -> Prop) (fs fs' : FS) : Prop :=
  ∀ q, fs' !! q = fs !! q ∨ S q.

(** A block of the fintech-dapp template can run in [base]: the directory is
    there and none of the names it wants to make directories is a file. *)
Definition block_ready (fs : FS) (base : Path) (names : list string) : Prop :=
  stat fs base = Some Dir ∧
  ∀ d, d ∈ names -> fs !! (base / d)%path = None ∨ fs !! (base / d)%path = Some Dir.

(** What such a block leaves in [base]: the directories, and a README, which
    is the block's own text unless one was there before. *)
Definition block_done (fs fs' : FS) (base : Path) (names : list string)
  (readme : string) : Prop :=
  (∀ d, d ∈ names -> fs' !! (base / d)%path = Some Dir) ∧
  (fs !! (base / "README.md")%path = None ->
   fs' !! (base / "README.md")%path = Some (File readme)) ∧
  (∀ x, fs !! (base / "README.md")%path = Some x ->
        fs' !! (base / "README.md")%path = Some x).

(** ** 通用小工具: [write_file] *)

Definition write_file (path : Path) (content : string) (overwrite : bool)
  : SE FS unit :=
  fun fs =>
    if path_exists fs path && negb overwrite then (Ok tt, fs)
    else (mkdir (parent path) true true ;; write_text path content) fs.

(** ** 目录结构 *)

Definition PROJECT_TYPES : list string := ["web-app"; "service-api"; "tool-script"].
Definition TEMPLATES : list string := ["default"; "fintech-dapp"].

Definition create_common_dirs (project_root : Path) : SE FS unit :=
  for_each ["docs"; "tests"; "scripts"; "infra"]
    (fun d => mkdir (project_root / d)%path true true).

Definition create_type_dirs (project_root : Path) (project_type : string)
  : SE FS unit :=
  let src_root := (project_root / "src")%path in
  mkdir src_root false true ;;
  if decide (project_type = "web-app") then
    for_each ["frontend"; "backend"; "shared"]
      (fun d => mkdir (src_root / d)%path true true) ;;
    mkdir (project_root / "tests" / "frontend")%path true true ;;
    mkdir (project_root / "tests" / "backend")%path true true
  else if decide (project_type = "service-api") then
    for_each ["app"; "core"; "adapters"]
      (fun d => mkdir (src_root / d)%path true true)
  else if decide (project_type = "tool-script") then
    for_each ["cli"; "core"]
      (fun d => mkdir (src_root / d)%path true true)
  else ret tt.

(** [main], steps 1 and 2: the directories of a project. *)
Definition plan_directories (project_root : Path) (project_type : string)
  : SE FS unit :=
  create_common_dirs project_root ;;
  create_type_dirs project_root project_type.

(** The directory sets as the specification documents them (section 4.2),
    relative to the project root; compared with [plan_directories] below. *)
Definition spec_common_dirs : list (list string) :=
  [["docs"]; ["tests"]; ["scripts"]; ["infra"]; ["src"]].

Definition spec_type_dirs (project_type : string) : list (list string) :=
  if decide (project_type = "web-app") then
    [["src"; "frontend"]; ["src"; "backend"]; ["src"; "shared"];
     ["tests"; "frontend"]; ["tests"; "backend"]]
  else if decide (project_type = "service-api") then
    [["src"; "app"]; ["src"; "core"]; ["src"; "adapters"]]
  else if decide (project_type = "tool-script") then
    [["src"; "cli"]; ["src"; "core"]]
  else [].

Definition spec_plan (project_type : string) : list (list string) :=
  (spec_common_dirs ++ spec_type_dirs project_type)%list.

(** A target is vacant when nothing is below it and it is a directory or can
    be made one: the target of a first run. *)
Definition vacant (fs : FS) (root : Path) : Prop :=
  creatable fs root ∧ ∀ ds, ds ≠ [] -> fs !! join root ds = None.

(** A project root is fresh when it is a directory with nothing below it. *)
Definition fresh_root (fs : FS) (root : Path) : Prop :=
  stat fs root = Some Dir ∧ ∀ ds, ds ≠ [] -> fs !! join root ds = None.

(** The file system with the [entries], given relative to [root], written
    one after the other. *)
Definition write_tree (root : Path) (fs : FS) (entries : list (list string * node))
  : FS :=
  foldl (fun m e => <[join root e.1 := e.2]> m) fs entries.

(** The file system with directories added at the paths [ps]. *)
Definition add_dirs (fs : FS) (ps : list Path) : FS :=
  foldr (fun q m => <[q := Dir]> m) fs ps.


(** ** Text: the [str] methods and library functions the script calls *)

Definition chr (n : N) : ascii := ascii_of_N n.
Definition str1 (n : N) : string := String (chr n) EmptyString.

Definition LF : string := str1 10.
Definition DQ : string := str1 34.
Definition BACKSLASH : string := str1 92.

Fixpoint string_rev_onto (s acc : string) : string :=
  match s with
  | EmptyString => acc
  | String a r => string_rev_onto r (String a acc)
  end.

Definition string_rev (s : string) : string := string_rev_onto s EmptyString.

(** White space as [str.strip()] sees it, by UTF-8 encoding: the ASCII
    characters U+0009..U+000D, U+001C..U+0020, and the code points U+0085,
    U+00A0, U+1680, U+2000..U+200A, U+2028, U+2029, U+202F, U+205F, U+3000. *)
Definition space1 (a : ascii) : bool :=
  let n := N_of_ascii a in
  ((9 <=? n) && (n <=? 13) || (28 <=? n) && (n <=? 32))%N.

Definition space2 (a b : ascii) : bool :=
  let n := N_of_ascii a in
  let m := N_of_ascii b in
  ((n =? 194) && ((m =? 133) || (m =? 160)))%N.

Definition space3 (a b c : ascii) : bool :=
  let n := N_of_ascii a in
  let m := N_of_ascii b in
  let k := N_of_ascii c in
  ((n =? 225) && (m =? 154) && (k =? 128)
   || (n =? 226) && (m =? 128) &&
        ((128 <=? k) && (k <=? 138) || (k =? 168) || (k =? 169) || (k =? 175))
   || (n =? 226) && (m =? 129) && (k =? 159)
   || (n =? 227) && (m =? 128) && (k =? 128))%N.

(** Drop leading white space, the two- and three-byte encodings being read
    through [sp2] and [sp3]. *)
Fixpoint lstrip_with (sp2 : ascii -> ascii -> bool)
  (sp3 : ascii -> ascii -> ascii -> bool) (s : string) : string :=
  match s with
  | EmptyString => EmptyString
  | String a r1 =>
      if space1 a then lstrip_with sp2 sp3 r1
      else
        match r1 with
        | EmptyString => s
        | String b r2 =>
            if sp2 a b then lstrip_with sp2 sp3 r2
            else
              match r2 with
              | EmptyString => s
              | String c r3 => if sp3 a b c then lstrip_with sp2 sp3 r3 else s
              end
        end
  end.

Definition lstrip (s : string) : string := lstrip_with space2 space3 s.

(** Trailing white space is leading white space of the reversed bytes. *)
Definition rstrip (s : string) : string :=
  string_rev
    (lstrip_with (fun a b => space2 b a) (fun a b c => space3 c b a)
       (string_rev s)).

(** [str.strip()] *)
Definition strip (s : string) : string := lstrip (rstrip s).

(** [str.lower()] on the ASCII letters.  Other code points are left as they
    are; none of them lower-cases to an ASCII ["y"], which is all the script
    compares a lower-cased string with. *)
Definition lower_ascii (a : ascii) : ascii :=
  let n := N_of_ascii a in
  if ((65 <=? n) && (n <=? 90))%N then chr (n + 32) else a.

Fixpoint lower (s : string) : string :=
  match s with
  | EmptyString => EmptyString
  | String a r => String (lower_ascii a) (lower r)
  end.

(** [s.split(sep)] for a one-character separator, [s.split("\n")] and
    ["\n".join(lines)] *)
Fixpoint split_onto (sep : N) (cur : string) (s : string) : list string :=
  match s with
  | EmptyString => [string_rev cur]
  | String a r =>
      if (N_of_ascii a =? sep)%N then string_rev cur :: split_onto sep EmptyString r
      else split_onto sep (String a cur) r
  end.

Definition split_on (sep : N) (s : string) : list string :=
  split_onto sep EmptyString s.

Definition split_lines (s : string) : list string := split_on 10 s.

Fixpoint join_lines (lines : list string) : string :=
  match lines with
  | [] => EmptyString
  | [l] => l
  | l :: rest => l ++ LF ++ join_lines rest
  end.

(** *** [textwrap.dedent]

    The library function first empties every line made only of spaces and
    tabs, then collects the leading run of spaces and tabs of every line that
    has other text, and folds them into their common prefix:
<<
        for indent in indents:
            if margin is None: margin = indent
            elif indent.startswith(margin): pass
            elif margin.startswith(indent): margin = indent
            else:
                for i, (x, y) in enumerate(zip(margin, indent)):
                    if x != y:
                        margin = margin[:i]
                        break
>>
    and last removes that margin from the start of every line that has it.
    Its two regular expressions are anchored at line starts and cannot cross
    a line feed, so the model works on [text.split(LF)]. *)
Definition blank (a : ascii) : bool :=
  let n := N_of_ascii a in ((n =? 32) || (n =? 9))%N.

Fixpoint all_blank (s : string) : bool :=
  match s with
  | EmptyString => true
  | String a r => blank a && all_blank r
  end.

(** [_whitespace_only_re.sub('', line)] *)
Definition clear_blank_line (line : string) : string :=
  if all_blank line then EmptyString else line.

(** The leading run of spaces and tabs of a line. *)
Fixpoint indent_of (line : string) : string :=
  match line with
  | EmptyString => EmptyString
  | String a r => if blank a then String a (indent_of r) else EmptyString
  end.

(** [_leading_whitespace_re.findall]: the indents of the lines with text. *)
Definition indents (lines : list string) : list string :=
  indent_of <$> filter (fun l => all_blank l = false) lines.

Fixpoint starts_with (pre s : string) : bool :=
  match pre, s with
  | EmptyString, _ => true
  | String a p, String b r => if Ascii.eqb a b then starts_with p r else false
  | String _ _, EmptyString => false
  end.

Fixpoint common_prefix (x y : string) : string :=
  match x, y with
  | String a p, String b r =>
      if Ascii.eqb a b then String a (common_prefix p r) else EmptyString
  | _, _ => EmptyString
  end.

Definition margin_step (margin : option string) (indent : string) : option string :=
  match margin with
  | None => Some indent
  | Some m =>
      if starts_with m indent then Some m
      else if starts_with indent m then Some indent
      else Some (common_prefix m indent)
  end.

Fixpoint drop_chars (n : nat) (s : string) : string :=
  match n, s with
  | S k, String _ r => drop_chars k r
  | _, _ => s
  end.

(** [re.sub(r'(?m)^' + margin, '', line)] *)
Definition remove_margin (margin line : string) : string :=
  if starts_with margin line then drop_chars (String.length margin) line else line.

Definition dedent (text : string) : string :=
  let lines := clear_blank_line <$> split_lines text in
  match foldl margin_step None (indents lines) with
  | Some (String a m) => join_lines (remove_margin (String a m) <$> lines)
  | _ => join_lines lines
  end.

(** [dedent(text).strip() + "\n"], the shape of every generated document. *)
Definition document (text : string) : string := strip (dedent text) ++ LF.

(** *** [json.dumps(d, ensure_ascii=False, indent=2)] on a [dict] of strings

    A [dict] is the list of its items in insertion order; assigning to a key
    that is present replaces the value in place. *)
Abbreviation dict := (list (string * string)).

Fixpoint dict_set (d : dict) (k v : string) : dict :=
  match d with
  | [] => [(k, v)]
  | (k', v') :: rest =>
      if decide (k' = k) then (k, v) :: rest else (k', v') :: dict_set rest k v
  end.

Fixpoint dict_get (d : dict) (k : string) : option string :=
  match d with
  | [] => None
  | (k', v') :: rest => if decide (k' = k) then Some v' else dict_get rest k
  end.

Definition dict_keys (d : dict) : list string := d.*1.

Definition hex_digit (n : N) : ascii :=
  if (n <? 10)%N then chr (48 + n) else chr (87 + n).

(** [json.encoder.py_encode_basestring]: the quote, the backslash and the
    control characters below U+0020 are escaped, everything else is kept. *)
Definition json_escape_char (a : ascii) : string :=
  let n := N_of_ascii a in
  if (n =? 34)%N then BACKSLASH ++ DQ
  else if (n =? 92)%N then BACKSLASH ++ BACKSLASH
  else if (n =? 8)%N then BACKSLASH ++ "b"
  else if (n =? 12)%N then BACKSLASH ++ "f"
  else if (n =? 10)%N then BACKSLASH ++ "n"
  else if (n =? 13)%N then BACKSLASH ++ "r"
  else if (n =? 9)%N then BACKSLASH ++ "t"
  else if (n <? 32)%N then
    BACKSLASH ++ "u00" ++ String (hex_digit (n / 16)) (String (hex_digit (n mod 16)) EmptyString)
  else String a EmptyString.

Fixpoint json_escape (s : string) : string :=
  match s with
  | EmptyString => EmptyString
  | String a r => json_escape_char a ++ json_escape r
  end.

Definition json_string (s : string) : string := DQ ++ json_escape s ++ DQ.

Definition json_item (kv : string * string) : string :=
  "  " ++ json_string kv.1 ++ ": " ++ json_string kv.2.

Fixpoint json_items (d : dict) : string :=
  match d with
  | [] => EmptyString
  | [kv] => json_item kv
  | kv :: rest => json_item kv ++ "," ++ LF ++ json_items rest
  end.

Definition json_dumps (d : dict) : string :=
  match d with
  | [] => "{}"
  | _ => "{" ++ LF ++ json_items d ++ LF ++ "}"
  end.

(** *** [datetime]

    A reading of the local clock.  Years are taken to have four digits, where
    [isoformat] and [strftime("%Y")] agree on every platform. *)
Record datetime : Type := {
  dt_year : N;
  dt_month : N;
  dt_day : N;
  dt_hour : N;
  dt_minute : N;
  dt_second : N;
  dt_microsecond : N
}.

Definition digit (n : N) : ascii := chr (48 + n mod 10).

Definition pad2 (n : N) : string :=
  String (digit (n / 10)) (String (digit n) EmptyString).

Definition pad4 (n : N) : string := pad2 (n / 100) ++ pad2 n.

Definition pad6 (n : N) : string := pad2 (n / 10000) ++ pad4 n.

(** [dt.strftime("%Y-%m-%d")] *)
Definition strftime_ymd (dt : datetime) : string :=
  pad4 (dt_year dt) ++ "-" ++ pad2 (dt_month dt) ++ "-" ++ pad2 (dt_day dt).

(** [dt.isoformat()] of a naive [datetime]: the fraction is printed only when
    the microseconds are not zero. *)
Definition isoformat (dt : datetime) : string :=
  strftime_ymd dt ++ "T" ++
  pad2 (dt_hour dt) ++ ":" ++ pad2 (dt_minute dt) ++ ":" ++ pad2 (dt_second dt) ++
  (if (dt_microsecond dt =? 0)%N then EmptyString
   else "." ++ pad6 (dt_microsecond dt)).

(** *** [repr] and [str] of the values the script prints *)

(** [repr] of a list of strings free of quotes, backslashes and unprintable
    characters, which is what the script formats: its two constant tables and
    the [git] command lines. *)
Fixpoint repr_items (l : list string) : string :=
  match l with
  | [] => EmptyString
  | [x] => "'" ++ x ++ "'"
  | x :: rest => "'" ++ x ++ "', " ++ repr_items rest
  end.

Definition repr_list (l : list string) : string := "[" ++ repr_items l ++ "]".

(** [str(path)] of an absolute path. *)
Fixpoint str_path_onto (p : Path) (acc : string) : string :=
  match p with
  | [] => acc
  | d :: up => str_path_onto up ("/" ++ d ++ acc)
  end.

Definition str_path (p : Path) : string :=
  match p with
  | [] => "/"
  | _ => str_path_onto p EmptyString
  end.

(** ** The texts of the generated documents, as the source spells them *)

(** The literal of [init_readme], an f-string. *)
Definition readme_text (project_cn_name project_name project_type template : string) : string :=
  "
    # " ++ project_cn_name ++ " (" ++ project_name ++ ")

    项目类型：**" ++ project_type ++ "**
    使用模板：**" ++ template ++ "**

    ## 简介

    > 在这里用 2-3 句话描述这个项目解决什么问题，服务谁。

    ## 快速开始

    ```bash
    # TODO: 填写项目初始化和启动命令
    ```

    ## 目录结构（初始）

    - `docs/`: 项目文档（需求、Roadmap、决策记录等）
    - `src/`: 源码
    - `tests/`: 测试
    - `scripts/`: 脚本、自动化任务
    - `infra/`: 部署、运维相关配置
    ".

(** The literal of [init_env_example]. *)
Definition env_example_text : string :=
  "
    # 环境变量示例（根据项目需要补充）

    # APP_ENV=development
    # APP_DEBUG=true
    ".

(** The literal of [init_license], after [.format(year=...)]. *)
Definition license_text (year : string) : string :=
  "
    MIT License (简化占位，按需替换为完整协议)

    Copyright (c) " ++ year ++ "
    ".

(** The literal of [init_changelog], an f-string. *)
Definition changelog_text (today : string) : string :=
  "
    # Changelog

    ## " ++ today ++ "
    - 项目通过脚手架初始化。
    ".

(** The literal [brief] of [init_docs], an f-string. *)
Definition brief_text (project_cn_name project_name duration_weeks hours_per_week : string) : string :=
  "
    # Project Brief - " ++ project_cn_name ++ " (" ++ project_name ++ ")

    ## 1. 项目一句话介绍
    > 用一两句话说明项目要解决的核心问题。

    ## 2. 唯一成功指标（ONE metric）
    - 例：30 天内获取 30 个真实用户试用 / 完成 10 笔真实交易 / 录入 100 条数据 等

    ## 3. 目标用户
    - 地区：
    - 年龄段：
    - 职业 / 身份：
    - 使用场景：

    ## 4. 不做什么（反边界）
    - 本期明确不做的功能/范围，避免越做越散。

    ## 5. MVP 要验证的核心假设
    1. 
    2. 

    ## 6. 预估周期 & 时间投入
    - 预估周期：" ++ duration_weeks ++ " 周
    - 每周可投入时间：" ++ hours_per_week ++ " 小时

    ## 7. 风险清单（TOP 3）
    1. 
    2. 
    3. 
    ".

(** The literal [roadmap] of [init_docs]. *)
Definition roadmap_text : string :=
  "
    # Roadmap

    > 只规划到 MVP，后续根据反馈再扩展。

    ## Milestone 概览

    - M1：可点击 Demo（预计 1-2 周）
    - M2：第一批真实用户测试（预计 2-4 周）
    - M3：对外发布 & 迭代（可选）

    ---

    ## M1 - 可点击 Demo

    ### 1. 核心流程
    - [ ] 

    ### 2. 数据 & 配置
    - [ ] 

    ### 3. 运营 & 基础统计 / 埋点
    - [ ] 

    ---

    ## M2 - 真实用户测试

    ### 1. 用户入口 & 注册 / 登录（如需要）
    - [ ] 

    ### 2. 关键行为闭环
    - [ ] 

    ### 3. 反馈收集
    - [ ] 

    ---

    ## M3 - 对外发布 / 迭代（可选）

    - [ ] 
    ".

(** The literal [devlog] of [init_docs], an f-string. *)
Definition devlog_text (today : string) : string :=
  "
    # Dev Log

    > 每天用 3 行记录进展，便于回顾和复盘。

    ## " ++ today ++ "
    - 今天完成：
      - 项目初始化（脚手架创建目录与文档）
    - 遇到问题：
      - 暂无
    - 明天最重要的一件事：
      - 完成最小运行环境 / Hello World
    ".

(** The literal [decisions] of [init_docs]. *)
Definition decisions_text : string :=
  "
    # Decisions Log

    > 记录重要架构 / 技术 / 业务决策，方便将来回顾。

    ## YYYY-MM-DD - [决策标题示例]
    - 背景：
    - 选项：
    - 最终选择：
    - 原因：
    - 影响：
    ".

(** The literal [frontend_readme] of [apply_fintech_dapp_template]. *)
Definition frontend_readme_text : string :=
  "
        # Frontend 结构（fintech-dapp 模板）

        - `pages/`: 页面级组件（路由对应）
        - `components/`: 可复用 UI 组件
        - `hooks/`: 自定义 hooks（如钱包连接、行情轮询）
        - `styles/`: 全局样式 / Tailwind 配置等
        ".

(** The literal [backend_readme] of [apply_fintech_dapp_template]. *)
Definition backend_readme_text : string :=
  "
        # Backend 结构（fintech-dapp 模板）

        - `api/`: 对外暴露的接口（REST / GraphQL 等）
        - `services/`: 业务服务层（撮合、风控、账户等）
        - `models/`: 数据模型 / ORM
        - `jobs/`: 定时任务（清算、统计、同步链上数据等）
        ".

(** The literal [docker_example] of [apply_fintech_dapp_template]. *)
Definition docker_example_text : string :=
  "
    version: " ++ DQ ++ "3.9" ++ DQ ++ "

    services:
      backend:
        image: backend-image-placeholder
        container_name: backend
        restart: unless-stopped
        env_file:
          - ../.env
        ports:
          - " ++ DQ ++ "8000:8000" ++ DQ ++ "

      frontend:
        image: frontend-image-placeholder
        container_name: frontend
        restart: unless-stopped
        ports:
          - " ++ DQ ++ "3000:3000" ++ DQ ++ "
        environment:
          - API_BASE_URL=http://backend:8000

      db:
        image: postgres:16
        container_name: db
        restart: unless-stopped
        environment:
          - POSTGRES_USER=app
          - POSTGRES_PASSWORD=app
          - POSTGRES_DB=app
        volumes:
          - db_data:/var/lib/postgresql/data

    volumes:
      db_data:
    ".

(** The literal [fintech_doc] of [apply_fintech_dapp_template], an f-string. *)
Definition fintech_doc_text (project_cn_name project_name : string) : string :=
  "
    # Fintech / Dapp 项目说明（模板自动生成）

    项目：" ++ project_cn_name ++ " (" ++ project_name ++ ")

    ## 1. 产品定位

    - 目标用户：
    - 使用场景：
    - 解决什么核心问题：

    ## 2. 关键业务概念

    - 账户体系：
    - 资产类型（现金 / 合约 / 积分 / 链上资产 等）：
    - 交易品种：
    - 手续费 / 点差：

    ## 3. 合规 & 风控注意事项（思考框架）

    - 用户身份（KYC）：
    - 资金来源合规性：
    - 风险提示机制：
    - 风控规则（限额、风控阈值等）：

    ## 4. 技术要点（待补充）

    - 钱包 / 支付渠道：
    - 行情数据源：
    - 撮合或定价模式：
    - 日志与监控：
    ".

(** ** The world of a run *)

(** What running an external command does: it cannot be started
    ([subprocess.run] raises), or it runs to completion, leaving the file
    system as [after] and returning an exit status. *)
Inductive process_result : Type :=
  | CannotStart (e : exn)
  | Exited (returncode : Z) (after : FS).

(** The surroundings the script reads but does not change. *)
Record Env : Type := {
  (** [os.getcwd()] *)
  env_getcwd : string;
  (** [Path(s).expanduser().resolve()] *)
  env_resolve : string -> Path;
  (** the reading of the n-th call of [datetime.now()] *)
  env_clock : nat -> datetime;
  (** the external programs: command line, working directory, file system *)
  env_run : list string -> option Path -> FS -> process_result;
  (** [str(e)] of an exception, a text of the platform *)
  env_str_exn : exn -> string
}.

Record World : Type := {
  fs : FS;
  (** the lines still to be read from the terminal *)
  stdin : list string;
  (** what the script has written to the terminal, oldest first *)
  stdout : list string;
  (** how often the clock has been read *)
  ticks : nat;
  (** the command lines handed to [subprocess.run], oldest first *)
  spawned : list (list string)
}.

Definition set_fs (f : FS) (w : World) : World :=
  {| fs := f; stdin := stdin w; stdout := stdout w; ticks := ticks w;
     spawned := spawned w |}.

Definition set_terminal (lines out : list string) (w : World) : World :=
  {| fs := fs w; stdin := lines; stdout := out; ticks := ticks w;
     spawned := spawned w |}.

Definition set_ticks (n : nat) (w : World) : World :=
  {| fs := fs w; stdin := stdin w; stdout := stdout w; ticks := n;
     spawned := spawned w |}.

Definition set_spawned (l : list (list string)) (w : World) : World :=
  {| fs := fs w; stdin := stdin w; stdout := stdout w; ticks := ticks w;
     spawned := l |}.

Abbreviation M := (SE World).

(** Between [w] and [w'] only the terminal was used: the file system, the
    clock and the record of external commands are as they were. *)
Definition quiet (w w' : World) : Prop :=
  fs w' = fs w ∧ spawned w' = spawned w ∧ ticks w' = ticks w.

(** A file-system operation, run on the file system of the world. *)
Definition on_fs {A} (m : SE FS A) : M A :=
  fun w => let (r, f) := m (fs w) in (r, set_fs f w).

Definition exists_ (p : Path) : SE FS bool :=
  fun f => (Ok (path_exists f p), f).

(** [print(s)] writes [s] and a line feed. *)
Definition text_line (s : string) : string := s ++ LF.

Definition print (s : string) : M unit :=
  fun w => (Ok tt, set_terminal (stdin w) (stdout w ++ [text_line s]) w).

(** [input(prompt)]: the prompt is written, then a line is read; at the end
    of the input [EOFError] is raised. *)
Definition input (prompt : string) : M string :=
  fun w =>
    match stdin w with
    | [] => (Raise EOFError, set_terminal [] (stdout w ++ [prompt]) w)
    | line :: rest => (Ok line, set_terminal rest (stdout w ++ [prompt]) w)
    end.

(** Python's truth value of an optional string: [None] and [""] are false. *)
Definition truthy (value : option string) : bool :=
  match value with
  | Some (String _ _) => true
  | _ => false
  end.

Definition or_else (value : option string) (other : string) : string :=
  match value with
  | Some (String a r) => String a r
  | _ => other
  end.

(** ** 通用小工具: [prompt_if_missing]

    The [while True] loop reads one line per round, so it is a recursion on
    the lines of input that are left; [out] is the terminal output so far.
<<
        if default is not None:
            raw = input(f"{prompt_text} [{default}]: ").strip()
            if not raw:
                raw = default
        else:
            raw = input(f"{prompt_text}: ").strip()
        if choices and raw not in choices:
            print(f"请输入有效选项: {choices}")
            continue
        if raw:
            return raw
>> *)
Fixpoint prompt_loop (prompt_text : string) (default : option string)
  (choices : list string) (lines out : list string)
  : outcome string * list string * list string :=
  let prompt :=
    match default with
    | Some d => prompt_text ++ " [" ++ d ++ "]: "
    | None => prompt_text ++ ": "
    end in
  match lines with
  | [] => (Raise EOFError, [], (out ++ [prompt])%list)
  | line :: rest =>
      let out1 := (out ++ [prompt])%list in
      let raw :=
        match default with
        | Some d => if decide (strip line = "") then d else strip line
        | None => strip line
        end in
      let notice := text_line ("请输入有效选项: " ++ repr_list choices) in
      if negb (bool_decide (choices = [])) && negb (bool_decide (raw ∈ choices)) then
        prompt_loop prompt_text default choices rest (out1 ++ [notice])%list
      else if negb (bool_decide (raw = "")) then (Ok raw, rest, out1)
      else prompt_loop prompt_text default choices rest out1
  end.

Definition prompt_if_missing (value : option string) (prompt_text : string)
  (default : option string) (choices : list string) : M string :=
  fun w =>
    if truthy value then (Ok (or_else value ""), w)
    else
      let '(r, lines, out) :=
        prompt_loop prompt_text default choices (stdin w) (stdout w) in
      (r, set_terminal lines out w).

(** [d[key]] *)
Definition getitem {S} (d : dict) (key : string) : SE S string :=
  match dict_get d key with
  | Some v => ret v
  | None => raise (KeyError key)
  end.

(** ** 根部文件 *)

Definition init_readme (project_root : Path)
  (project_name project_cn_name project_type template : string) : SE FS unit :=
  let readme_path := (project_root / "README.md")%path in
  let content :=
    document (readme_text project_cn_name project_name project_type template) in
  write_file readme_path content false.

Definition init_env_example (project_root : Path) : SE FS unit :=
  let env_path := (project_root / ".env.example")%path in
  let content := document env_example_text in
  write_file env_path content false.

Section Script.

Context (env : Env).

(** [datetime.now()] *)
Definition datetime_now : M datetime :=
  fun w => (Ok (env_clock env (ticks w)), set_ticks (S (ticks w)) w).

(** [subprocess.run(cmd, cwd=..., check=...)]: the attempt is recorded; with
    [check=True] a non-zero exit status raises [CalledProcessError]. *)
Definition subprocess_run (cmd : list string) (cwd : option Path) (check : bool)
  : M Z :=
  fun w =>
    let w1 := set_spawned (spawned w ++ [cmd]) w in
    match env_run env cmd cwd (fs w) with
    | CannotStart e => (Raise e, w1)
    | Exited returncode after =>
        if check && negb (returncode =? 0)%Z
        then (Raise (CalledProcessError cmd returncode), set_fs after w1)
        else (Ok returncode, set_fs after w1)
    end.

Definition init_license (project_root : Path) : M unit :=
  let license_path := (project_root / "LICENSE")%path in
  now <- datetime_now ;;
  let content := document (license_text (pretty (dt_year now))) in
  on_fs (write_file license_path content false).

Definition init_changelog (project_root : Path) : M unit :=
  let changelog_path := (project_root / "CHANGELOG.md")%path in
  now <- datetime_now ;;
  let today := strftime_ymd now in
  let content := document (changelog_text today) in
  on_fs (write_file changelog_path content false).

(** ** docs 模板 *)

Definition init_docs (project_root : Path) (meta : dict) : M unit :=
  let docs_root := (project_root / "docs")%path in
  cn_name <- getitem meta "project_cn_name" ;;
  name <- getitem meta "project_name" ;;
  weeks <- getitem meta "duration_weeks" ;;
  hours <- getitem meta "hours_per_week" ;;
  let brief := document (brief_text cn_name name weeks hours) in
  on_fs (write_file (docs_root / "project-brief.md")%path brief false) ;;
  let roadmap := document roadmap_text in
  on_fs (write_file (docs_root / "roadmap.md")%path roadmap false) ;;
  now <- datetime_now ;;
  let today := strftime_ymd now in
  let devlog := document (devlog_text today) in
  on_fs (write_file (docs_root / "dev-log.md")%path devlog false) ;;
  let decisions := document decisions_text in
  on_fs (write_file (docs_root / "decisions.md")%path decisions false).

(** ** 模板: fintech-dapp *)

Definition FRONTEND_DIRS : list string := ["pages"; "components"; "hooks"; "styles"].
Definition BACKEND_DIRS : list string := ["api"; "services"; "models"; "jobs"].

Definition apply_fintech_dapp_template (project_root : Path)
  (project_type : string) (meta : dict) : SE FS unit :=
  let src_root := (project_root / "src")%path in
  let frontend_root := (src_root / "frontend")%path in
  let backend_root := (src_root / "backend")%path in
  frontend_exists <- exists_ frontend_root ;;
  (if frontend_exists : bool then
     for_each FRONTEND_DIRS
       (fun d => mkdir (frontend_root / d)%path true true) ;;
     let frontend_readme := document frontend_readme_text in
     write_file (frontend_root / "README.md")%path frontend_readme false
   else ret tt) ;;
  backend_exists <- exists_ backend_root ;;
  (if backend_exists : bool then
     for_each BACKEND_DIRS
       (fun d => mkdir (backend_root / d)%path true true) ;;
     let backend_readme := document backend_readme_text in
     write_file (backend_root / "README.md")%path backend_readme false
   else ret tt) ;;
  let infra_root := (project_root / "infra")%path in
  let docker_example := document docker_example_text in
  write_file (infra_root / "docker-compose.example.yml")%path docker_example false ;;
  cn_name <- getitem meta "project_cn_name" ;;
  name <- getitem meta "project_name" ;;
  let fintech_doc := document (fintech_doc_text cn_name name) in
  write_file (project_root / "docs" / "fintech-notes.md")%path fintech_doc false.

Definition apply_template (project_root : Path) (project_type template : string)
  (meta : dict) : SE FS unit :=
  if decide (template = "fintech-dapp") then
    apply_fintech_dapp_template project_root project_type meta
  else ret tt.

(** ** Meta & Git *)

Definition write_project_meta (project_root : Path) (meta : dict) : M unit :=
  let meta_path := (project_root / "project_meta.json")%path in
  now <- datetime_now ;;
  let meta_to_save :=
    dict_set (dict_set meta "created_at" (isoformat now)) "scaffold_version" "2.0" in
  on_fs (write_file meta_path (json_dumps meta_to_save ++ LF) true).

Definition GIT_PROBE : list string := ["git"; "--version"].
Definition GIT_INIT : list string := ["git"; "init"].
Definition GIT_ADD : list string := ["git"; "add"; "."].
Definition GIT_COMMIT : list string :=
  ["git"; "commit"; "-m"; "chore: init project from scaffold v2"].

Definition MSG_NO_GIT : string := "⚠️ 未检测到 git，跳过 git 初始化。".
Definition MSG_ALREADY_REPO : string := "ℹ️ 该目录已是 git 仓库，跳过 git init。".
Definition MSG_GIT_DONE : string := "✅ 已完成 git 初始化并创建初始提交。".
Definition MSG_GIT_FAILED : string := "⚠️ git 初始化失败：".

(** The first [try] block returns from the function in its handler; here it
    yields whether the probe could be run. *)
Definition git_init (project_root : Path) : M unit :=
  probed <-
    try_except
      (subprocess_run GIT_PROBE None false ;; ret true)
      (fun _ => print MSG_NO_GIT ;; ret false) ;;
  if probed : bool then
    is_repo <- on_fs (exists_ (project_root / ".git")%path) ;;
    if is_repo : bool then print MSG_ALREADY_REPO
    else
      try_except
        (subprocess_run GIT_INIT (Some project_root) true ;;
         subprocess_run GIT_ADD (Some project_root) true ;;
         subprocess_run GIT_COMMIT (Some project_root) true ;;
         print MSG_GIT_DONE)
        (fun e => print (MSG_GIT_FAILED ++ env_str_exn env e))
  else ret tt.

(** The world [git_init] leaves when it has handed over the commands
    [attempts], in this order, the last of them has left the file system [f],
    and the one line [msg] has been printed. *)
Definition after_git (w : World) (attempts : list (list string)) (f : FS)
  (msg : string) : World :=
  set_terminal (stdin w) (stdout w ++ [text_line msg])
    (set_fs f (set_spawned (spawned w ++ attempts) w)).

(** ** CLI *)

(** The namespace [parse_args] returns. *)
Record Args : Type := {
  arg_project_name : option string;
  arg_project_type : option string;
  arg_project_cn_name : option string;
  arg_template : option string;
  arg_base_dir : option string;
  arg_no_git : bool
}.

(** [argparse] has checked [--type] and [--template] against their [choices]. *)
Definition parsed (args : Args) : Prop :=
  (∀ t, arg_project_type args = Some t -> t ∈ PROJECT_TYPES) ∧
  (∀ t, arg_template args = Some t -> t ∈ TEMPLATES).

(** The values [main] has resolved when its prompts are through. *)
Record Config : Type := {
  project_name : string;
  project_cn_name : string;
  project_type : string;
  template : string;
  base_dir : string;
  duration_weeks : string;
  hours_per_week : string
}.

(** [main], from the first prompt to [hours_per_week]. *)
Definition resolve_config (args : Args) : M Config :=
  project_name <-
    prompt_if_missing (arg_project_name args)
      "请输入项目英文机器名 (如 fintech-x-app-202511)" None [] ;;
  project_cn_name <-
    prompt_if_missing (arg_project_cn_name args)
      "请输入项目中文名" (Some project_name) [] ;;
  project_type <-
    prompt_if_missing (arg_project_type args)
      ("请选择项目类型 " ++ repr_list PROJECT_TYPES) None PROJECT_TYPES ;;
  template <-
    prompt_if_missing (arg_template args)
      ("请选择模板 " ++ repr_list TEMPLATES) (Some "default") TEMPLATES ;;
  let base_dir := or_else (arg_base_dir args) (env_getcwd env) in
  duration_weeks <- prompt_if_missing None "预估项目周期（周）" (Some "4") [] ;;
  hours_per_week <- prompt_if_missing None "每周可投入时间（小时）" (Some "20") [] ;;
  ret {| project_name := project_name; project_cn_name := project_cn_name;
         project_type := project_type; template := template;
         base_dir := base_dir; duration_weeks := duration_weeks;
         hours_per_week := hours_per_week |}.

(** The segments of a path text as [PurePosixPath] parses it, outermost
    first: what lies between the slashes, the empty segments and [.] left
    out.  A segment [..] is kept, as [pathlib] keeps it. *)
Definition path_segments (s : string) : list string :=
  filter (fun d => d ≠ "" ∧ d ≠ ".") (split_on 47 s).

(** [base / key] for an absolute [base] and a text [key]: a relative [key]
    adds its segments below [base]; an absolute one (one that begins with a
    slash) replaces [base].  [PurePosixPath] keeps a root of exactly two
    slashes apart from [/]; it is written here as an outermost segment that
    no entry of a file system has (the empty one, or [/] where nothing
    follows it), so that [str_path] gives the text Python prints. *)
Definition truediv (base : Path) (key : string) : Path :=
  let segments := path_segments key in
  if starts_with "/" key then
    if starts_with "//" key && negb (starts_with "///" key) then
      match segments with
      | [] => ["/"]
      | _ => (reverse segments ++ [""])%list
      end
    else reverse segments
  else (reverse segments ++ base)%list.

(** [Path(base_dir).expanduser().resolve() / project_name] *)
Definition project_root_of (cfg : Config) : Path :=
  truediv (env_resolve env (base_dir cfg)) (project_name cfg).

Definition MSG_OCCUPIED : string := "⚠️ 目标目录已存在且非空：".
Definition MSG_CONFIRM : string := "继续可能覆盖部分文件，是否继续？(y/N): ".
Definition MSG_CANCELLED : string := "已取消。".

(** [main], the guard on an existing target: whether the run goes on.
<<
    if project_root.exists() and any(project_root.iterdir()):
        print(f"⚠️ 目标目录已存在且非空：{project_root}")
        confirm = input("继续可能覆盖部分文件，是否继续？(y/N): ").strip().lower()
        if confirm != "y":
            print("已取消。")
            return
>> *)
Definition confirm_target (project_root : Path) : M bool :=
  root_exists <- on_fs (exists_ project_root) ;;
  occupied <-
    (if root_exists : bool then
       entries <- on_fs (iterdir project_root) ;;
       ret (negb (bool_decide (entries = [])))
     else ret false) ;;
  if occupied : bool then
    print (MSG_OCCUPIED ++ str_path project_root) ;;
    answer <- input MSG_CONFIRM ;;
    let confirm := lower (strip answer) in
    if decide (confirm ≠ "y") then print MSG_CANCELLED ;; ret false
    else ret true
  else ret true.

(** The [meta] dictionary of [main]. *)
Definition meta_of (cfg : Config) : dict :=
  [("project_name", project_name cfg);
   ("project_cn_name", project_cn_name cfg);
   ("project_type", project_type cfg);
   ("template", template cfg);
   ("duration_weeks", duration_weeks cfg);
   ("hours_per_week", hours_per_week cfg)].

(** The terminal once an occupied target was announced and the question put
    and answered, [rest] being the input that is left. *)
Definition asked (project_root : Path) (rest : list string) (w : World) : World :=
  set_terminal rest
    (stdout w ++ [text_line (MSG_OCCUPIED ++ str_path project_root); MSG_CONFIRM]) w.

(** [main], from [project_root.mkdir] through step 6: everything that is
    written below the project root. *)
Definition scaffold_files (cfg : Config) (project_root : Path) : M unit :=
  on_fs (mkdir project_root true true) ;;
  let meta := meta_of cfg in
  on_fs (create_common_dirs project_root) ;;
  on_fs (create_type_dirs project_root (project_type cfg)) ;;
  on_fs (init_readme project_root (project_name cfg) (project_cn_name cfg)
           (project_type cfg) (template cfg)) ;;
  on_fs (init_env_example project_root) ;;
  init_license project_root ;;
  init_changelog project_root ;;
  init_docs project_root meta ;;
  on_fs (apply_template project_root (project_type cfg) (template cfg) meta) ;;
  write_project_meta project_root meta.

(** [main], the closing messages. *)
Definition report (cfg : Config) (project_root : Path) : M unit :=
  print (LF ++ "🎉 脚手架已完成项目初始化：") ;;
  print ("   位置：" ++ str_path project_root) ;;
  print ("   类型：" ++ project_type cfg) ;;
  print ("   模板：" ++ template cfg) ;;
  print "   下一步建议：" ;;
  print "   1. 打开 docs/project-brief.md 补全项目信息" ;;
  (if decide (template cfg = "fintech-dapp") then
     print "   2. 查看 docs/fintech-notes.md，把业务关键点先写清楚"
   else
     print "   2. 在 docs/roadmap.md 写出 M1 要完成的具体项") ;;
  print "   3. 决定技术栈并开始搭建最小运行环境（Hello World）".

(** What [report] writes. *)
Definition report_lines (cfg : Config) (project_root : Path) : list string :=
  [text_line (LF ++ "🎉 脚手架已完成项目初始化：");
   text_line ("   位置：" ++ str_path project_root);
   text_line ("   类型：" ++ project_type cfg);
   text_line ("   模板：" ++ template cfg);
   text_line "   下一步建议：";
   text_line "   1. 打开 docs/project-brief.md 补全项目信息";
   text_line
     (if decide (template cfg = "fintech-dapp")
      then "   2. 查看 docs/fintech-notes.md，把业务关键点先写清楚"
      else "   2. 在 docs/roadmap.md 写出 M1 要完成的具体项");
   text_line "   3. 决定技术栈并开始搭建最小运行环境（Hello World）"].

(** The layout the file generation leaves below the project root
    (specification, section 6, "Persisted state layout"), entry by entry in
    the order of creation; [n] is the number of clock readings before the
    run. *)
Definition layout (cfg : Config) (n : nat) : list (list string * node) :=
  ((fun ds => (ds, Dir)) <$> spec_plan (project_type cfg)) ++
  [ (["README.md"],
     File (document (readme_text (project_cn_name cfg) (project_name cfg)
                       (project_type cfg) (template cfg))));
    ([".env.example"], File (document env_example_text));
    (["LICENSE"],
     File (document (license_text (pretty (dt_year (env_clock env n))))));
    (["CHANGELOG.md"],
     File (document (changelog_text (strftime_ymd (env_clock env (1 + n))))));
    (["docs"; "project-brief.md"],
     File (document (brief_text (project_cn_name cfg) (project_name cfg)
                       (duration_weeks cfg) (hours_per_week cfg))));
    (["docs"; "roadmap.md"], File (document roadmap_text));
    (["docs"; "dev-log.md"],
     File (document (devlog_text (strftime_ymd (env_clock env (2 + n))))));
    (["docs"; "decisions.md"], File (document decisions_text)) ] ++
  (if decide (template cfg = "fintech-dapp") then
     (if decide (project_type cfg = "web-app") then
        [ (["src"; "frontend"; "pages"], Dir);
          (["src"; "frontend"; "components"], Dir);
          (["src"; "frontend"; "hooks"], Dir);
          (["src"; "frontend"; "styles"], Dir);
          (["src"; "frontend"; "README.md"], File (document frontend_readme_text));
          (["src"; "backend"; "api"], Dir);
          (["src"; "backend"; "services"], Dir);
          (["src"; "backend"; "models"], Dir);
          (["src"; "backend"; "jobs"], Dir);
          (["src"; "backend"; "README.md"], File (document backend_readme_text)) ]
      else []) ++
     [ (["infra"; "docker-compose.example.yml"], File (document docker_example_text));
       (["docs"; "fintech-notes.md"],
        File (document (fintech_doc_text (project_cn_name cfg) (project_name cfg)))) ]
   else []) ++
  [ (["project_meta.json"],
     File (json_dumps
             (meta_of cfg ++
              [("created_at", isoformat (env_clock env (3 + n)));
               ("scaffold_version", "2.0")]) ++ LF)) ].

(** [main] once the target is accepted: the files, then step 7, then the
    closing messages. *)
Definition generate (args : Args) (cfg : Config) (project_root : Path) : M unit :=
  scaffold_files cfg project_root ;;
  (if arg_no_git args then ret tt else git_init project_root) ;;
  report cfg project_root.

Definition main (args : Args) : M unit :=
  cfg <- resolve_config args ;;
  let project_root := project_root_of cfg in
  proceed <- confirm_target project_root ;;
  if proceed : bool then generate args cfg project_root else ret tt.

(** The invariant of a resolved configuration (specification, section 3). *)
Definition valid_config (args : Args) (cfg : Config) : Prop :=
  project_name cfg ≠ "" ∧
  project_cn_name cfg ≠ "" ∧
  project_type cfg ∈ PROJECT_TYPES ∧
  template cfg ∈ TEMPLATES ∧
  base_dir cfg = or_else (arg_base_dir args) (env_getcwd env) ∧
  duration_weeks cfg ≠ "" ∧
  hours_per_week cfg ≠ "".

End Script.

(** ** A concrete environment, for running the script on examples

    Base directories are absolute and free of links, [.] and [..], so that
    resolving them is splitting them; the clock shows 4 November 2025, 09:05
    and one more second at every reading. *)
Module Demo.

Definition posix_path (s : string) : Path :=
  reverse (filter (fun d => d ≠ "") (split_on 47 s)).

Definition clock (n : nat) : datetime :=
  {| dt_year := 2025; dt_month := 11; dt_day := 4; dt_hour := 9;
     dt_minute := 5; dt_second := N.of_nat n; dt_microsecond := 0 |}.

Definition str_exn (e : exn) : string :=
  match e with
  | CalledProcessError cmd rc =>
      "Command '" ++ repr_list cmd ++ "' returned non-zero exit status " ++
      pretty rc ++ "."
  | FileNotFoundError => "[Errno 2] No such file or directory: 'git'"
  | _ => "error"
  end.

Definition env (run : list string -> option Path -> FS -> process_result) : Env :=
  {| env_getcwd := "/home/dev"; env_resolve := posix_path; env_clock := clock;
     env_run := run; env_str_exn := str_exn |}.

(** No [git] on the machine. *)
Definition no_git (cmd : list string) (cwd : option Path) (f : FS) : process_result :=
  CannotStart FileNotFoundError.

(** A [git] that works: [init] creates the repository marker. *)
Definition good_git (cmd : list string) (cwd : option Path) (f : FS) : process_result :=
  match cmd, cwd with
  | ["git"; "init"], Some root => Exited 0 (<[(root / ".git")%path := Dir]> f)
  | _, _ => Exited 0 f
  end.

(** A [git] launcher that is installed but unusable: every command, the
    version probe included, exits with status 1. *)
Definition broken_git (cmd : list string) (cwd : option Path) (f : FS) : process_result :=
  Exited 1 f.

Definition world (f : FS) (lines : list string) : World :=
  {| fs := f; stdin := lines; stdout := []; ticks := 0; spawned := [] |}.

(** [vibe-scaffold demo-app --type service-api --template default
    --base-dir /tmp/x] *)
Definition args : Args :=
  {| arg_project_name := Some "demo-app"; arg_project_type := Some "service-api";
     arg_project_cn_name := None; arg_template := Some "default";
     arg_base_dir := Some "/tmp/x"; arg_no_git := false |}.

(** What these command lines resolve to when every prompt is answered with
    an empty line. *)
Definition config : Config :=
  {| project_name := "demo-app"; project_cn_name := "demo-app";
     project_type := "service-api"; template := "default";
     base_dir := "/tmp/x"; duration_weeks := "4"; hours_per_week := "20" |}.

(** A tool-script project with the fintech-dapp template. *)
Definition tool_config : Config :=
  {| project_name := "demo-app"; project_cn_name := "demo-app";
     project_type := "tool-script"; template := "fintech-dapp";
     base_dir := "/tmp/x"; duration_weeks := "4"; hours_per_week := "20" |}.

Definition root : Path := ["demo-app"; "x"; "tmp"].

(** A target that is already there, with one file of the user's in it. *)
Definition occupied : FS :=
  <[ (root / "notes.txt")%path := File "keep me" ]>
    (<[ root := Dir ]> (<[ ["x"; "tmp"] := Dir ]> (<[ ["tmp"] := Dir ]> ∅))).

(** A project of an earlier run, of which the record is left. *)
Definition scaffolded : FS :=
  <[ (root / "project_meta.json")%path := File "{}" ]>
    (<[ root := Dir ]> (<[ ["x"; "tmp"] := Dir ]> (<[ ["tmp"] := Dir ]> ∅))).

(** A target that holds a [src/frontend] of the user's own. *)
Definition with_frontend : FS :=
  <[ (root / "src" / "frontend")%path := Dir ]>
    (<[ (root / "src")%path := Dir ]>
       (<[ root := Dir ]> (<[ ["x"; "tmp"] := Dir ]> (<[ ["tmp"] := Dir ]> ∅)))).

End Demo.

(** ** Relations between file systems and between worlds, for the frames *)

(** Every entry is as it was, but for the one at [p]. *)
Definition kept_but (p : Path) (fs fs' : FS) : Prop :=
  ∀ q x, q ≠ p -> fs !! q = Some x -> fs' !! q = Some x.

(** A computation on worlds keeps [R], whatever its outcome. *)
Definition keeps_world {A : Type} (R : World -> World -> Prop) (m : M A) : Prop :=
  ∀ w r w', m w = (r, w') -> R w w'.

(** Neither the terminal nor the record of external commands has changed. *)
Definition silent (w w' : World) : Prop :=
  stdin w' = stdin w ∧ stdout w' = stdout w ∧ spawned w' = spawned w.

(** ** One round of [prompt_if_missing] *)

(** The prompt of a round. *)
Definition prompt_of (prompt_text : string) (default : option string) : string :=
  match default with
  | Some d => prompt_text ++ " [" ++ d ++ "]: "
  | None => prompt_text ++ ": "
  end.

(** The value a round takes from the line it has read. *)
Definition answer_of (default : option string) (line : string) : string :=
  match default with
  | Some d => if decide (strip line = "") then d else strip line
  | None => strip line
  end.

(** Whether the round is left through [continue], with the notice. *)
Definition refused (choices : list string) (raw : string) : bool :=
  negb (bool_decide (choices = [])) && negb (bool_decide (raw ∈ choices)).

(** Whether the round returns. *)
Definition accepted (choices : list string) (raw : string) : bool :=
  negb (refused choices raw) && negb (bool_decide (raw = "")).

(** What a round that does not return writes. *)
Definition retry_output (prompt_text : string) (default : option string)
  (choices : list string) (line : string) : list string :=
  prompt_of prompt_text default ::
  (if refused choices (answer_of default line)
   then [text_line ("请输入有效选项: " ++ repr_list choices)] else []).

(** ** A [git] that cannot commit

    The launcher works and [init] creates the repository marker, but
    [commit] exits with status 128, as it does where no author identity is
    configured. *)
Definition git_without_identity (cmd : list string) (cwd : option Path) (f : FS)
  : process_result :=
  match cmd, cwd with
  | ["git"; "init"], Some root => Exited 0 (<[(root / ".git")%path := Dir]> f)
  | "git" :: "commit" :: _, _ => Exited 128 f
  | _, _ => Exited 0 f
  end.

(** Between [w] and [w'] the terminal was not used and no command was run,
    and every entry of the file system is as it was, but for the one at
    [p]. *)
Definition undisturbed (p : Path) (w w' : World) : Prop :=
  silent w w' ∧ kept_but p (fs w) (fs w').

(** ** Running to completion, with what is known of the file system *)

(** The directories a generation needs below the project root: those of the
    plan and, with the fintech-dapp template, the two blocks in [src] and
    the directories they hold. *)
Definition needed_dirs (cfg : Config) : list (list string) :=
  spec_plan (project_type cfg) ++
  (if decide (template cfg = "fintech-dapp") then
     [ ["src"; "frontend"];
       ["src"; "frontend"; "pages"]; ["src"; "frontend"; "components"];
       ["src"; "frontend"; "hooks"]; ["src"; "frontend"; "styles"];
       ["src"; "backend"];
       ["src"; "backend"; "api"]; ["src"; "backend"; "services"];
       ["src"; "backend"; "models"]; ["src"; "backend"; "jobs"] ]
   else []).

(** What is known at a point of a generation: the file system is a tree; no
    regular file sits at any of the paths [D]; the paths [E] are
    directories; the paths [X] exist; [meta] is not a directory. *)
Definition settled (D E X : list Path) (meta : Path) (fs : FS) : Prop :=
  well_formed fs ∧
  (∀ p, p ∈ D -> fs !! p = None ∨ fs !! p = Some Dir) ∧
  (∀ p, p ∈ E -> stat fs p = Some Dir) ∧
  (∀ p, p ∈ X -> is_Some (fs !! p)) ∧
  fs !! meta ≠ Some Dir.

(** From a file system with [P], the computation returns normally, in a
    file system with [Q]. *)
Definition runs_fs {A : Type} (P : FS -> Prop) (m : SE FS A) (Q : FS -> Prop) : Prop :=
  ∀ fs, P fs -> ∃ a fs', m fs = (Ok a, fs') ∧ Q fs'.

Definition runs {A : Type} (P : FS -> Prop) (m : M A) (Q : FS -> Prop) : Prop :=
  ∀ w, P (fs w) -> ∃ a w', m w = (Ok a, w') ∧ Q (fs w').

(** ** Paths that name entries *)

(** Every segment of the path can be the name of an entry: none is empty,
    [.] or [..], and none holds a slash. *)
Definition names_only (p : Path) : Prop :=
  ∀ d, d ∈ p -> d ≠ "" ∧ d ≠ "." ∧ d ≠ ".." ∧ split_on 47 d = [d].
(** * Properties *)

(** ** Paths *)

Lemma join_inj root a b : join root a = join root b -> a = b.
Proof.
  unfold join. intros H. apply app_inv_tail in H.
  apply (f_equal reverse) in H. by rewrite !reverse_involutive in H.
Qed.

Lemma join_snoc root ds d : join root (ds ++ [d]) = (join root ds / d)%path.
Proof. unfold join. by rewrite reverse_app. Qed.

Lemma join_ne_root root ds : ds ≠ [] -> join root ds ≠ root.
Proof.
  unfold join. intros Hne H. apply (f_equal length) in H.
  rewrite length_app, length_reverse in H. destruct ds; [done | simpl in H; lia].
Qed.

Lemma join_not_nil root ds : ds ≠ [] -> join root ds ≠ [].
Proof.
  unfold join. intros Hne H. apply app_eq_nil in H as [H _].
  apply (f_equal reverse) in H. rewrite reverse_involutive in H. done.
Qed.

(** ** One [mkdir] step *)

Lemma stat_cons fs d up : stat fs (d :: up) = fs !! (d :: up).
Proof. reflexivity. Qed.

(** With the parent in place, [mkdir] adds the one directory, or finds it. *)
Lemma mkdir_child fs d up parents :
  stat fs up = Some Dir ->
  (fs !! (d :: up) = None ∨ fs !! (d :: up) = Some Dir) ->
  mkdir (d :: up) parents true fs = (Ok tt, <[d :: up := Dir]> fs).
Proof.
  intros Hup Hp. simpl. rewrite Hup.
  destruct Hp as [Hp | Hp]; rewrite Hp; [done |].
  unfold is_dir. rewrite stat_cons, Hp. simpl. by rewrite insert_id.
Qed.

Lemma lookup_add_dirs fs ps q :
  add_dirs fs ps !! q = if bool_decide (q ∈ ps) then Some Dir else fs !! q.
Proof.
  induction ps as [| p ps IH]; simpl; [done |].
  destruct (decide (p = q)) as [-> | Hne].
  - rewrite lookup_insert_eq. rewrite bool_decide_eq_true_2; [done | left].
  - rewrite lookup_insert_ne by done. rewrite IH.
    destruct (bool_decide (q ∈ ps)) eqn:E.
    + apply bool_decide_eq_true_1 in E. rewrite bool_decide_eq_true_2; [done | by right].
    + apply bool_decide_eq_false_1 in E. rewrite bool_decide_eq_false_2; [done |].
      rewrite elem_of_cons. intros [Heq | Hin]; [by apply Hne | by apply E].
Qed.

Lemma elem_of_map_join root ds (L : list (list string)) :
  join root ds ∈ join root <$> L <-> ds ∈ L.
Proof.
  rewrite list_elem_of_fmap. split.
  - intros (y & Hy & Hin). apply join_inj in Hy. by subst.
  - intros Hin. by exists ds.
Qed.

Lemma stat_insert_ne fs p q x : p ≠ q -> stat (<[p := x]> fs) q = stat fs q.
Proof. intros Hne. destruct q; [done |]. simpl. by rewrite lookup_insert_ne. Qed.

Lemma stat_insert_eq fs d up x : stat (<[d :: up := x]> fs) (d :: up) = Some x.
Proof. simpl. by rewrite lookup_insert_eq. Qed.

Lemma cons_app_ne_self {A} (k : list A) (a : A) (l : list A) : a :: k ++ l ≠ l.
Proof.
  intros H. apply (f_equal length) in H. simpl in H. rewrite length_app in H. lia.
Qed.

Arguments mkdir : simpl never.

(** Two concrete paths over the same root differ. *)
Ltac path_neq :=
  let H := fresh in
  intros H;
  first
    [ discriminate H
    | congruence
    | apply (f_equal length) in H; simpl in H; lia ].

(** The node at a path after a run of insertions over a fresh root. *)
Ltac solve_stat Hroot :=
  repeat (rewrite stat_insert_ne by path_neq);
  first [ apply stat_insert_eq | exact Hroot ].

Ltac solve_free Hfresh :=
  repeat (rewrite lookup_insert_ne by path_neq);
  first
    [ right; apply lookup_insert_eq
    | left; first
        [ apply (Hfresh [_]) | apply (Hfresh [_; _]) | apply (Hfresh [_; _; _]) ];
      discriminate ].

Ltac step_mkdir Hroot Hfresh :=
  rewrite mkdir_child; [ | solve_stat Hroot | solve_free Hfresh ].

Lemma plan_directories_run root pt fs :
  pt ∈ PROJECT_TYPES -> fresh_root fs root ->
  plan_directories root pt fs =
    (Ok tt, add_dirs fs (join root <$> reverse (spec_plan pt))).
Proof.
  intros Hpt [Hroot Hfresh].
  unfold PROJECT_TYPES in Hpt. rewrite !elem_of_cons in Hpt.
  unfold plan_directories, create_common_dirs, create_type_dirs.
  destruct Hpt as [-> | [-> | [-> | Hpt]]]; [| | | by apply elem_of_nil in Hpt].
  - unfold spec_plan, spec_type_dirs. simpl. unfold bind, ret.
    repeat step_mkdir Hroot Hfresh. reflexivity.
  - unfold spec_plan, spec_type_dirs. simpl. unfold bind, ret.
    repeat step_mkdir Hroot Hfresh. reflexivity.
  - unfold spec_plan, spec_type_dirs. simpl. unfold bind, ret.
    repeat step_mkdir Hroot Hfresh. reflexivity.
Qed.

(** C1. For each valid project type, planning the directories of a fresh
    project root succeeds and leaves below the root exactly the common
    directories [docs], [tests], [scripts], [infra], [src] and the documented
    directories of the type, all of them directories; nothing else below the
    root exists afterwards, and no path outside it is touched. *)
Theorem plan_directories_exact (root : Path) (pt : string) (fs : FS) :
  pt ∈ PROJECT_TYPES ->
  fresh_root fs root ->
  ∃ fs' : FS,
    plan_directories root pt fs = (Ok tt, fs') ∧
    (∀ ds, ds ≠ [] ->
       fs' !! join root ds =
         if bool_decide (ds ∈ spec_plan pt)
         then Some Dir else None) ∧
    (∀ q, (∀ ds, ds ≠ [] -> q ≠ join root ds) -> fs' !! q = fs !! q).
Proof.
  intros Hpt Hfresh. eexists. split; [by apply plan_directories_run |].
  set (L := spec_plan pt).
  assert (HL : ∀ ds, ds ∈ L -> ds ≠ []).
  { intros ds Hin ->. subst L. unfold PROJECT_TYPES in Hpt.
    rewrite !elem_of_cons in Hpt.
    destruct Hpt as [-> | [-> | [-> | Hpt]]]; [| | | by apply elem_of_nil in Hpt];
      vm_compute in Hin; repeat (apply elem_of_cons in Hin as [Hin | Hin]; [done |]);
      by apply elem_of_nil in Hin. }
  split.
  - intros ds Hds. rewrite lookup_add_dirs.
    destruct (bool_decide (ds ∈ L)) eqn:E.
    + apply bool_decide_eq_true_1 in E. rewrite bool_decide_eq_true_2; [done |].
      apply elem_of_map_join. by apply elem_of_reverse.
    + apply bool_decide_eq_false_1 in E. rewrite bool_decide_eq_false_2.
      * by apply Hfresh.
      * rewrite elem_of_map_join, elem_of_reverse. done.
  - intros q Hq. rewrite lookup_add_dirs. rewrite bool_decide_eq_false_2; [done |].
    rewrite list_elem_of_fmap. intros (ds & -> & Hin).
    rewrite elem_of_reverse in Hin. exact (Hq ds (HL ds Hin) eq_refl).
Qed.

(** C1, at a concrete input: an empty project directory [/tmp/x/demo-app]. *)
Lemma plan_directories_exact_witness :
  ∃ fs' : FS,
    plan_directories ["demo-app"; "x"; "tmp"] "service-api"
      (<[ ["demo-app"; "x"; "tmp"] := Dir ]> ∅) = (Ok tt, fs') ∧
    (∀ ds, ds ≠ [] ->
       fs' !! join ["demo-app"; "x"; "tmp"] ds =
         if bool_decide (ds ∈ spec_plan "service-api")
         then Some Dir else None) ∧
    (∀ q, (∀ ds, ds ≠ [] -> q ≠ join ["demo-app"; "x"; "tmp"] ds) ->
       fs' !! q = (<[ ["demo-app"; "x"; "tmp"] := Dir ]> ∅ : FS) !! q).
Proof.
  apply (plan_directories_exact ["demo-app"; "x"; "tmp"] "service-api").
  - unfold PROJECT_TYPES. apply elem_of_cons. right. apply elem_of_cons. by left.
  - split; [reflexivity |].
    intros ds Hds. rewrite lookup_insert_ne; [apply lookup_empty |].
    apply not_eq_sym. by apply join_ne_root.
Defined.

(** ** [mkdir] with missing ancestors *)

Lemma mkdir_cons d up parents exist_ok fs :
  mkdir (d :: up) parents exist_ok fs =
    match os_mkdir (d :: up) fs with
    | (Ok _, fs1) => (Ok tt, fs1)
    | (Raise FileNotFoundError, fs1) =>
        if parents then
          match mkdir up true true fs1 with
          | (Ok _, fs2) => mkdir_flat (d :: up) exist_ok fs2
          | (Raise e, fs2) => (Raise e, fs2)
          end
        else (Raise FileNotFoundError, fs1)
    | (Raise e, fs1) =>
        if exist_ok && is_dir fs1 (d :: up) then (Ok tt, fs1) else (Raise e, fs1)
    end.
Proof. reflexivity. Qed.

Lemma grows_to_refl p fs : grows_to p fs fs.
Proof. intros q. by left. Qed.

Lemma grows_to_trans p1 p2 fs0 fs1 fs2 :
  p1 `suffix_of` p2 -> grows_to p1 fs0 fs1 -> grows_to p2 fs1 fs2 ->
  grows_to p2 fs0 fs2.
Proof.
  intros Hs H1 H2 q. destruct (H2 q) as [E2 | (N2 & D2 & S2)];
    destruct (H1 q) as [E1 | (N1 & D1 & S1)].
  - left. congruence.
  - right. repeat split; [done | congruence | by etrans].
  - right. repeat split; [congruence | done | done].
  - congruence.
Qed.

Lemma os_mkdir_grows p fs r fs' :
  os_mkdir p fs = (r, fs') -> grows_to p fs fs'.
Proof.
  unfold os_mkdir. intros H q.
  destruct p as [| d up]; [left; congruence |].
  destruct (stat fs up) as [[| c] |]; try (left; congruence).
  destruct (fs !! (d :: up)) eqn:E; [left; congruence |].
  injection H as <- <-. destruct (decide (d :: up = q)) as [<- | Hne].
  - right. by rewrite lookup_insert_eq.
  - left. by rewrite lookup_insert_ne.
Qed.

Lemma mkdir_flat_grows p exist_ok fs r fs' :
  mkdir_flat p exist_ok fs = (r, fs') -> grows_to p fs fs'.
Proof.
  unfold mkdir_flat. destruct (os_mkdir p fs) as [r1 fs1] eqn:E.
  apply os_mkdir_grows in E. intros H.
  assert (fs' = fs1) as ->; [| done].
  destruct r1 as [[] | []]; try destruct (exist_ok && is_dir fs1 p); congruence.
Qed.

Lemma mkdir_grows p parents exist_ok fs r fs' :
  mkdir p parents exist_ok fs = (r, fs') -> grows_to p fs fs'.
Proof.
  revert parents exist_ok fs r fs'.
  induction p as [| d up IH]; intros parents exist_ok fs r fs' H.
  - assert (fs' = fs) as ->; [| apply grows_to_refl].
    unfold mkdir in H. simpl in H. destruct exist_ok; simpl in H; congruence.
  - rewrite mkdir_cons in H.
    destruct (os_mkdir (d :: up) fs) as [r1 fs1] eqn:E.
    apply os_mkdir_grows in E.
    destruct r1 as [[] | e].
    { injection H as <- <-. done. }
    destruct e;
      try (assert (fs' = fs1) as ->;
             [destruct (exist_ok && is_dir fs1 (d :: up)); congruence | done]).
    destruct parents; [| by injection H as <- <-].
    destruct (mkdir up true true fs1) as [r2 fs2] eqn:E2.
    apply IH in E2.
    assert (Hs : up `suffix_of` d :: up) by (by apply suffix_cons_r).
    destruct r2 as [[] | e].
    + apply mkdir_flat_grows in H.
      eapply grows_to_trans; [reflexivity | exact E |].
      eapply grows_to_trans; [exact Hs | exact E2 | exact H].
    + injection H as <- <-.
      eapply grows_to_trans; [reflexivity | exact E |].
      eapply grows_to_trans; [exact Hs | exact E2 | apply grows_to_refl].
Qed.

Lemma suffix_cons_not {A} (d : A) (l : list A) : ¬ (d :: l) `suffix_of` l.
Proof. intros H. apply suffix_length in H. simpl in H. lia. Qed.

Lemma grows_to_above d up fs fs' :
  grows_to up fs fs' -> fs' !! (d :: up) = fs !! (d :: up).
Proof.
  intros H. destruct (H (d :: up)) as [E | (_ & _ & S)]; [done |].
  by apply suffix_cons_not in S.
Qed.

Lemma mkdir_flat_child fs d up :
  stat fs up = Some Dir ->
  (fs !! (d :: up) = None ∨ fs !! (d :: up) = Some Dir) ->
  mkdir_flat (d :: up) true fs = (Ok tt, <[d :: up := Dir]> fs).
Proof.
  intros Hup Hp. unfold mkdir_flat. simpl. rewrite Hup.
  destruct Hp as [Hp | Hp]; rewrite Hp; [done |].
  unfold is_dir. rewrite stat_cons, Hp. simpl. by rewrite insert_id.
Qed.

(** [mkdir(parents=True, exist_ok=True)] succeeds whenever no regular file is
    in the way, and the path is a directory afterwards. *)
Lemma mkdir_parents_ok p fs :
  creatable fs p ->
  ∃ fs', mkdir p true true fs = (Ok tt, fs') ∧ stat fs' p = Some Dir.
Proof.
  revert fs. induction p as [| d up IH]; intros fs Hc.
  - exists fs. split; reflexivity.
  - assert (Hcup : creatable fs up).
    { intros q Hq. apply Hc. by apply suffix_cons_r. }
    assert (Hp : fs !! (d :: up) = None ∨ fs !! (d :: up) = Some Dir).
    { apply (Hc (d :: up)). reflexivity. }
    destruct (Hcup up) as [Hup | Hup]; [reflexivity | |].
    + destruct (IH fs Hcup) as (fs1 & E1 & D1).
      exists (<[d :: up := Dir]> fs1). split; [| apply stat_insert_eq].
      rewrite mkdir_cons. simpl. rewrite Hup, E1.
      apply mkdir_flat_child; [done |].
      apply mkdir_grows in E1. by rewrite (grows_to_above _ _ _ _ E1).
    + exists (<[d :: up := Dir]> fs). split; [| apply stat_insert_eq].
      by apply mkdir_child.
Qed.

(** ** [write_file] *)

Lemma write_file_skips path content fs :
  path_exists fs path = true -> write_file path content false fs = (Ok tt, fs).
Proof. intros H. unfold write_file. by rewrite H. Qed.

Lemma write_file_writes path content overwrite fs :
  path ≠ [] ->
  creatable fs (parent path) ->
  fs !! path = None ∨ (overwrite = true ∧ ∃ c0, fs !! path = Some (File c0)) ->
  ∃ fs', write_file path content overwrite fs = (Ok tt, fs') ∧
         fs' !! path = Some (File content) ∧
         (∀ q, q ≠ path -> fs' !! q = fs !! q ∨
            (fs !! q = None ∧ fs' !! q = Some Dir ∧ q `suffix_of` parent path)).
Proof.
  intros Hne Hc Hp. destruct path as [| d up]; [done |]. simpl in Hc.
  destruct (mkdir_parents_ok up fs Hc) as (fs1 & E1 & D1).
  exists (<[d :: up := File content]> fs1).
  assert (Hsame : fs1 !! (d :: up) = fs !! (d :: up)).
  { apply mkdir_grows in E1. by apply grows_to_above. }
  split; [| split].
  - unfold write_file.
    replace (path_exists fs (d :: up) && negb overwrite) with false.
    + unfold bind. simpl parent. rewrite E1. unfold write_text. rewrite D1, Hsame.
      destruct Hp as [-> | (_ & c0 & ->)]; done.
    + unfold path_exists. rewrite stat_cons.
      destruct Hp as [-> | (-> & c0 & ->)]; done.
  - apply lookup_insert_eq.
  - intros q Hq. rewrite lookup_insert_ne by done.
    apply mkdir_grows in E1. apply E1.
Qed.

(** With [overwrite=True] a call that returns has written its content. *)
Lemma write_file_overwrite_result path content fs fs' :
  write_file path content true fs = (Ok tt, fs') ->
  fs' !! path = Some (File content).
Proof.
  unfold write_file. rewrite andb_false_r. unfold bind.
  destruct (mkdir (parent path) true true fs) as [[[] | e] fs1]; [| done].
  unfold write_text. destruct path as [| d up]; [done |].
  destruct (stat fs1 up) as [[| c] |]; try done.
  destruct (fs1 !! (d :: up)) as [[| c] |]; try done;
    intros [= <-]; apply lookup_insert_eq.
Qed.

(** C2 (as amended). When [path] does not exist yet and its parent can be
    created, [write_file(path, c1)] writes [c1], and a second
    [write_file(path, c2, overwrite=False)] returns without error and changes
    nothing, so the file still holds [c1].  When [path] is absent or a regular
    file, [write_file(path, c1)] followed by
    [write_file(path, c2, overwrite=True)] returns without error and the file
    holds [c2]. *)
Theorem write_file_twice (path : Path) (c1 c2 : string) (fs : FS) :
  path ≠ [] ->
  creatable fs (parent path) ->
  (fs !! path = None ->
   ∃ fs1, write_file path c1 false fs = (Ok tt, fs1) ∧
          write_file path c2 false fs1 = (Ok tt, fs1) ∧
          fs1 !! path = Some (File c1)) ∧
  (fs !! path ≠ Some Dir ->
   ∃ fs1 fs2, write_file path c1 false fs = (Ok tt, fs1) ∧
              write_file path c2 true fs1 = (Ok tt, fs2) ∧
              fs2 !! path = Some (File c2)).
Proof.
  intros Hne Hc.
  assert (Hfirst : fs !! path = None ->
    ∃ fs1, write_file path c1 false fs = (Ok tt, fs1) ∧
           fs1 !! path = Some (File c1) ∧ creatable fs1 (parent path)).
  { intros Hnone.
    destruct (write_file_writes path c1 false fs Hne Hc) as (fs1 & E1 & L1 & F1);
      [by left |].
    exists fs1. repeat split; [done | done |].
    intros q Hq. destruct path as [| d up]; [done |]. simpl in Hq, Hc.
    assert (Hqne : q ≠ d :: up).
    { intros ->. by apply suffix_cons_not in Hq. }
    destruct q as [| e q']; [by right |]. rewrite stat_cons.
    destruct (F1 (e :: q') Hqne) as [-> | (_ & -> & _)]; [| by right].
    apply (Hc (e :: q') Hq). }
  split.
  - intros Hnone. destruct (Hfirst Hnone) as (fs1 & E1 & L1 & _).
    exists fs1. repeat split; [done | | done].
    apply write_file_skips. unfold path_exists.
    destruct path; [done |]. by rewrite stat_cons, L1.
  - intros Hnd. destruct (fs !! path) as [[| c0] |] eqn:E0; [done | |].
    + exists fs.
      destruct (write_file_writes path c2 true fs Hne Hc) as (fs2 & E2 & L2 & _);
        [right; eauto |].
      exists fs2. repeat split; [| done | done].
      apply write_file_skips. unfold path_exists.
      destruct path; [done |]. by rewrite stat_cons, E0.
    + destruct (Hfirst eq_refl) as (fs1 & E1 & L1 & C1).
      destruct (write_file_writes path c2 true fs1 Hne C1) as (fs2 & E2 & L2 & _);
        [right; eauto |].
      by exists fs1, fs2.
Qed.

(** C2, at a concrete input: [/tmp/a.txt] written under a missing [/tmp]. *)
Lemma write_file_twice_witness :
  (∃ fs1, write_file ["a.txt"; "tmp"] "one" false (∅ : FS) = (Ok tt, fs1) ∧
          write_file ["a.txt"; "tmp"] "two" false fs1 = (Ok tt, fs1) ∧
          fs1 !! ["a.txt"; "tmp"] = Some (File "one")) ∧
  (∃ fs1 fs2, write_file ["a.txt"; "tmp"] "one" false (∅ : FS) = (Ok tt, fs1) ∧
              write_file ["a.txt"; "tmp"] "two" true fs1 = (Ok tt, fs2) ∧
              fs2 !! ["a.txt"; "tmp"] = Some (File "two")).
Proof.
  destruct (write_file_twice ["a.txt"; "tmp"] "one" "two" ∅) as [A B].
  - discriminate.
  - intros q _. destruct q; [by right | by left].
  - split; [apply A; reflexivity | apply B; discriminate].
Defined.

(** C2 as stated fails when the file is already there: the first call is
    itself skipped, and [/tmp/a.txt] keeps the content it had, not [c1]. *)
Lemma write_file_twice_counterexample :
  let fs : FS := <[ ["a.txt"; "tmp"] := File "zero" ]> (<[ ["tmp"] := Dir ]> ∅) in
  (write_file ["a.txt"; "tmp"] "one" false ;;
   write_file ["a.txt"; "tmp"] "two" false) fs = (Ok tt, fs) ∧
  fs !! ["a.txt"; "tmp"] = Some (File "zero") ∧
  fs !! ["a.txt"; "tmp"] ≠ Some (File "one").
Proof.
  split; [| split].
  - unfold bind. rewrite !write_file_skips; reflexivity.
  - reflexivity.
  - intros H. vm_compute in H. discriminate H.
Qed.

(** ** The monad *)

Lemma bind_unfold {S A B} (m : SE S A) (k : A -> SE S B) (s : S) :
  bind m k s =
    match m s with
    | (Ok a, s') => k a s'
    | (Raise e, s') => (Raise e, s')
    end.
Proof. reflexivity. Qed.

Lemma bind_ok {S A B} (m : SE S A) (k : A -> SE S B) (s s' : S) (a : A) :
  m s = (Ok a, s') -> bind m k s = k a s'.
Proof. intros H. by rewrite bind_unfold, H. Qed.

Lemma bind_raise {S A B} (m : SE S A) (k : A -> SE S B) (s s' : S) (e : exn) :
  m s = (Raise e, s') -> bind m k s = (Raise e, s').
Proof. intros H. by rewrite bind_unfold, H. Qed.

(** ** The terminal *)

Lemma quiet_refl w : quiet w w.
Proof. by repeat split. Qed.

Lemma quiet_trans w1 w2 w3 : quiet w1 w2 -> quiet w2 w3 -> quiet w1 w3.
Proof. intros (? & ? & ?) (? & ? & ?). repeat split; congruence. Qed.

Lemma quiet_set_terminal lines out w : quiet w (set_terminal lines out w).
Proof. by repeat split. Qed.

Lemma print_quiet s w : quiet w (print s w).2.
Proof. apply quiet_set_terminal. Qed.

Lemma input_quiet s w : quiet w (input s w).2.
Proof. unfold input. destruct (stdin w); apply quiet_set_terminal. Qed.

(** What [prompt_if_missing] returns is never empty and, where choices are
    given, is one of them. *)
Lemma prompt_loop_ok text default choices lines out raw lines' out' :
  prompt_loop text default choices lines out = (Ok raw, lines', out') ->
  raw ≠ "" ∧ (choices = [] ∨ raw ∈ choices).
Proof.
  revert out. induction lines as [| line rest IH]; intros out H; simpl in H.
  - discriminate H.
  - match type of H with
    | context [bool_decide (?x ∈ choices)] => set (r := x) in *
    end.
    destruct (bool_decide (choices = [])) eqn:Ec; simpl in H.
    + apply bool_decide_eq_true_1 in Ec.
      destruct (bool_decide (r = "")) eqn:Er; simpl in H; [by eapply IH |].
      apply bool_decide_eq_false_1 in Er. injection H as <- _ _. by split; [| left].
    + destruct (bool_decide (r ∈ choices)) eqn:Ein; simpl in H; [| by eapply IH].
      apply bool_decide_eq_true_1 in Ein.
      destruct (bool_decide (r = "")) eqn:Er; simpl in H; [by eapply IH |].
      apply bool_decide_eq_false_1 in Er. injection H as <- _ _. by split; [| right].
Qed.

Lemma truthy_or_else value other :
  truthy value = true -> value = Some (or_else value other) ∧ or_else value other ≠ "".
Proof. destruct value as [[| a r] |]; simpl; try discriminate. by intros _. Qed.

Lemma prompt_if_missing_quiet value text default choices w :
  quiet w (prompt_if_missing value text default choices w).2.
Proof.
  unfold prompt_if_missing. destruct (truthy value); [apply quiet_refl |].
  destruct (prompt_loop _ _ _ _ _) as [[r lines] out]. apply quiet_set_terminal.
Qed.

Lemma prompt_if_missing_ok value text default choices w x w' :
  prompt_if_missing value text default choices w = (Ok x, w') ->
  x ≠ "" ∧ (value = Some x ∨ choices = [] ∨ x ∈ choices).
Proof.
  unfold prompt_if_missing. destruct (truthy value) eqn:Et.
  - intros [= <- <-]. destruct (truthy_or_else value "" Et) as [Hv Hne].
    split; [done | by left].
  - destruct (prompt_loop _ _ _ _ _) as [[r lines] out] eqn:E.
    intros [= -> <-]. apply prompt_loop_ok in E as [Hne Hch]. split; [done | by right].
Qed.

(** ** Resolution of the configuration *)

Lemma resolve_config_spec env args w :
  quiet w (resolve_config env args w).2 ∧
  (parsed args ->
   ∀ cfg, (resolve_config env args w).1 = Ok cfg -> valid_config env args cfg).
Proof.
  unfold resolve_config, bind.
  destruct (prompt_if_missing (arg_project_name args) _ _ _ w) as [[name | e] w1] eqn:E1;
    pose proof (prompt_if_missing_quiet (arg_project_name args)
      "请输入项目英文机器名 (如 fintech-x-app-202511)" None [] w) as Q1;
    rewrite E1 in Q1; simpl in Q1; [| by split].
  destruct (prompt_if_missing (arg_project_cn_name args) _ _ _ w1) as [[cn | e] w2] eqn:E2;
    pose proof (prompt_if_missing_quiet (arg_project_cn_name args)
      "请输入项目中文名" (Some name) [] w1) as Q2;
    rewrite E2 in Q2; simpl in Q2; [| split; [by eapply quiet_trans | done]].
  destruct (prompt_if_missing (arg_project_type args) _ _ _ w2) as [[ty | e] w3] eqn:E3;
    pose proof (prompt_if_missing_quiet (arg_project_type args)
      ("请选择项目类型 " ++ repr_list PROJECT_TYPES) None PROJECT_TYPES w2) as Q3;
    rewrite E3 in Q3; simpl in Q3;
    [| split; [by eapply quiet_trans; [eapply quiet_trans |] | done]].
  destruct (prompt_if_missing (arg_template args) _ _ _ w3) as [[tpl | e] w4] eqn:E4;
    pose proof (prompt_if_missing_quiet (arg_template args)
      ("请选择模板 " ++ repr_list TEMPLATES) (Some "default") TEMPLATES w3) as Q4;
    rewrite E4 in Q4; simpl in Q4;
    [| split; [by repeat (eapply quiet_trans; [| eassumption]) | done]].
  destruct (prompt_if_missing None "预估项目周期（周）" _ _ w4) as [[weeks | e] w5] eqn:E5;
    pose proof (prompt_if_missing_quiet None "预估项目周期（周）" (Some "4") [] w4) as Q5;
    rewrite E5 in Q5; simpl in Q5;
    [| split; [by repeat (eapply quiet_trans; [| eassumption]) | done]].
  destruct (prompt_if_missing None "每周可投入时间（小时）" _ _ w5) as [[hours | e] w6] eqn:E6;
    pose proof (prompt_if_missing_quiet None "每周可投入时间（小时）" (Some "20") [] w5) as Q6;
    rewrite E6 in Q6; simpl in Q6;
    [| split; [by repeat (eapply quiet_trans; [| eassumption]) | done]].
  split; [by repeat (eapply quiet_trans; [| eassumption]) |].
  intros [Htype Htemplate] cfg [= <-]. unfold valid_config. simpl.
  apply prompt_if_missing_ok in E1 as [N1 _], E2 as [N2 _], E3 as [N3 C3],
    E4 as [N4 C4], E5 as [N5 _], E6 as [N6 _].
  repeat split; try done.
  - destruct C3 as [C3 | [C3 | C3]]; [by apply Htype | discriminate C3 | done].
  - destruct C4 as [C4 | [C4 | C4]]; [by apply Htemplate | discriminate C4 | done].
Qed.

(** C8. Until every field of the configuration is resolved, a run only
    talks to the terminal: when the prompts are through, the file system (and
    the clock and the record of external commands) is exactly as at the
    start.  If resolution does not complete, the run ends there with that
    exception, so nothing was created or written; if it completes, the
    configuration is valid, and only then does [main] go on to the target
    check and the generation, starting from the untouched file system. *)
Theorem resolution_precedes_effects (env : Env) (args : Args) (w : World) :
  parsed args ->
  quiet w (resolve_config env args w).2 ∧
  match (resolve_config env args w).1 with
  | Raise e => main env args w = (Raise e, (resolve_config env args w).2)
  | Ok cfg =>
      valid_config env args cfg ∧
      main env args w =
        (proceed <- confirm_target (project_root_of env cfg) ;;
         if proceed : bool then generate env args cfg (project_root_of env cfg)
         else ret tt) (resolve_config env args w).2
  end.
Proof.
  intros Hp. destruct (resolve_config_spec env args w) as [Hq Hv].
  specialize (Hv Hp). split; [done |]. unfold main.
  rewrite (bind_unfold (resolve_config env args)).
  destruct (resolve_config env args w) as [[cfg | e] w1]; simpl in *; [| done].
  split; [by apply Hv | done].
Qed.

(** C8, at a concrete input: the command line of the demonstration, with the
    terminal closed before the last prompt is answered. *)
Lemma resolution_precedes_effects_witness :
  let w := Demo.world Demo.occupied [""; "6"] in
  let env := Demo.env Demo.no_git in
  quiet w (resolve_config env Demo.args w).2 ∧
  match (resolve_config env Demo.args w).1 with
  | Raise e => main env Demo.args w = (Raise e, (resolve_config env Demo.args w).2)
  | Ok cfg =>
      valid_config env Demo.args cfg ∧
      main env Demo.args w =
        (proceed <- confirm_target (project_root_of env cfg) ;;
         if proceed : bool then generate env Demo.args cfg (project_root_of env cfg)
         else ret tt) (resolve_config env Demo.args w).2
  end.
Proof.
  apply (resolution_precedes_effects (Demo.env Demo.no_git) Demo.args).
  split; intros t [= <-]; vm_compute; set_solver.
Defined.

(** ** The guard on an occupied target *)

Lemma confirm_target_occupied root w answer rest :
  stat (fs w) root = Some Dir ->
  children (fs w) root ≠ [] ->
  stdin w = answer :: rest ->
  confirm_target root w =
    if decide (lower (strip answer) = "y") then (Ok true, asked root rest w)
    else (Ok false,
          set_terminal rest (stdout (asked root rest w) ++ [text_line MSG_CANCELLED])
            (asked root rest w)).
Proof.
  intros Hdir Hch Hin. destruct w as [f lines out n sp]. simpl in *. subst lines.
  unfold confirm_target, bind, on_fs, exists_, iterdir, path_exists, ret. simpl.
  rewrite Hdir. simpl. rewrite Hdir. simpl.
  rewrite bool_decide_eq_false_2 by done. simpl.
  unfold asked, set_terminal. simpl.
  destruct (decide (lower (strip answer) = "y")) as [Hy | Hn].
  - rewrite decide_False by (intros H; by apply H). simpl.
    by rewrite <- app_assoc.
  - rewrite decide_True by done. simpl. by rewrite <- !app_assoc.
Qed.

Lemma main_at_confirmation env args w cfg answer rest :
  (resolve_config env args w).1 = Ok cfg ->
  stat (fs w) (project_root_of env cfg) = Some Dir ->
  children (fs w) (project_root_of env cfg) ≠ [] ->
  stdin (resolve_config env args w).2 = answer :: rest ->
  main env args w =
    if decide (lower (strip answer) = "y")
    then generate env args cfg (project_root_of env cfg)
           (asked (project_root_of env cfg) rest (resolve_config env args w).2)
    else (Ok tt,
          set_terminal rest
            (stdout (asked (project_root_of env cfg) rest (resolve_config env args w).2)
               ++ [text_line MSG_CANCELLED])
            (asked (project_root_of env cfg) rest (resolve_config env args w).2)).
Proof.
  intros Hcfg Hdir Hch Hin.
  destruct (resolve_config_spec env args w) as [(Hfs & _ & _) _].
  unfold main. rewrite (bind_unfold (resolve_config env args)).
  destruct (resolve_config env args w) as [r w1]. simpl in *. subst r.
  rewrite bind_unfold.
  rewrite (confirm_target_occupied _ w1 answer rest); [| by rewrite Hfs ..| done].
  by destruct (decide (lower (strip answer) = "y")).
Qed.

(** C4. When the resolved project root exists and is not empty, the tool
    announces it and asks for confirmation, and an answer that declines (any
    answer that is not [y] after stripping and lower-casing, the empty answer
    included, so declining is the default) ends the run without error and
    with a cancellation message: the file system is exactly the one the run
    started with, so the directory is unchanged and no [project_meta.json]
    was produced; the clock was not read and no command was run. *)
Theorem declined_run_changes_nothing (env : Env) (args : Args) (w : World)
  (cfg : Config) (answer : string) (rest : list string) :
  (resolve_config env args w).1 = Ok cfg ->
  stat (fs w) (project_root_of env cfg) = Some Dir ->
  children (fs w) (project_root_of env cfg) ≠ [] ->
  stdin (resolve_config env args w).2 = answer :: rest ->
  lower (strip answer) ≠ "y" ->
  lower (strip "") ≠ "y" ∧
  ∃ w', main env args w = (Ok tt, w') ∧
        fs w' = fs w ∧ ticks w' = ticks w ∧ spawned w' = spawned w ∧
        stdin w' = rest ∧
        stdout w' =
          (stdout (resolve_config env args w).2 ++
           [text_line (MSG_OCCUPIED ++ str_path (project_root_of env cfg));
            MSG_CONFIRM; text_line MSG_CANCELLED])%list.
Proof.
  intros Hcfg Hdir Hch Hin Hno. split; [by vm_compute |].
  rewrite (main_at_confirmation env args w cfg answer rest) by done.
  rewrite decide_False by done. eexists. split; [reflexivity |].
  destruct (resolve_config_spec env args w) as [(Hfs & Hsp & Ht) _].
  simpl. repeat split; try done. by rewrite <- app_assoc.
Qed.

(** C4, at a concrete input: the occupied target of the demonstration, the
    question answered with an empty line. *)
Lemma declined_run_changes_nothing_witness :
  let env := Demo.env Demo.good_git in
  let w := Demo.world Demo.occupied [""; ""; ""; ""] in
  lower (strip "") ≠ "y" ∧
  ∃ w', main env Demo.args w = (Ok tt, w') ∧
        fs w' = Demo.occupied ∧ ticks w' = 0 ∧ spawned w' = [] ∧
        stdin w' = [] ∧
        stdout w' =
          (stdout (resolve_config env Demo.args w).2 ++
           [text_line (MSG_OCCUPIED ++ "/tmp/x/demo-app");
            MSG_CONFIRM; text_line MSG_CANCELLED])%list.
Proof.
  apply (declined_run_changes_nothing (Demo.env Demo.good_git) Demo.args
           (Demo.world Demo.occupied [""; ""; ""; ""])
           {| project_name := "demo-app"; project_cn_name := "demo-app";
              project_type := "service-api"; template := "default";
              base_dir := "/tmp/x"; duration_weeks := "4";
              hours_per_week := "20" |} "" []).
  - reflexivity.
  - reflexivity.
  - by vm_compute.
  - reflexivity.
  - by vm_compute.
Defined.

(** C9. At the confirmation prompt of an occupied target the run goes on
    to the generation exactly when the answer, stripped of surrounding white
    space and lower-cased, is the one character [y]; with every other answer
    it stops without error, the cancellation message being the last thing
    written.  The empty answer, [yes] and [Y es] are such other answers. *)
Theorem confirmation_accepts_only_y (env : Env) (args : Args) (w : World)
  (cfg : Config) (answer : string) (rest : list string) :
  (resolve_config env args w).1 = Ok cfg ->
  stat (fs w) (project_root_of env cfg) = Some Dir ->
  children (fs w) (project_root_of env cfg) ≠ [] ->
  stdin (resolve_config env args w).2 = answer :: rest ->
  let root := project_root_of env cfg in
  let w1 := asked root rest (resolve_config env args w).2 in
  (lower (strip answer) = "y" ->
   main env args w = generate env args cfg root w1) ∧
  (lower (strip answer) ≠ "y" ->
   main env args w =
     (Ok tt, set_terminal rest (stdout w1 ++ [text_line MSG_CANCELLED]) w1)) ∧
  (confirm_target root (resolve_config env args w).2).1
    = Ok (bool_decide (lower (strip answer) = "y")) ∧
  lower (strip "") ≠ "y" ∧ lower (strip "yes") ≠ "y" ∧ lower (strip "Y es") ≠ "y".
Proof.
  intros Hcfg Hdir Hch Hin root w1.
  pose proof (main_at_confirmation env args w cfg answer rest Hcfg Hdir Hch Hin) as Hm.
  destruct (resolve_config_spec env args w) as [(Hfs & _ & _) _].
  split; [| split; [| split]].
  - intros Hy. by rewrite Hm, decide_True.
  - intros Hn. by rewrite Hm, decide_False.
  - rewrite (confirm_target_occupied root _ answer rest); [| by rewrite Hfs ..| done].
    destruct (decide (lower (strip answer) = "y")).
    + by rewrite bool_decide_eq_true_2.
    + by rewrite bool_decide_eq_false_2.
  - by vm_compute.
Qed.

(** C9, at a concrete input: the occupied target of the demonstration, the
    question answered with [ Y ] between blanks. *)
Lemma confirmation_accepts_only_y_witness :
  let env := Demo.env Demo.good_git in
  let w := Demo.world Demo.occupied [""; ""; ""; " Y "] in
  let cfg :=
    {| project_name := "demo-app"; project_cn_name := "demo-app";
       project_type := "service-api"; template := "default";
       base_dir := "/tmp/x"; duration_weeks := "4"; hours_per_week := "20" |} in
  let w1 := asked Demo.root [] (resolve_config env Demo.args w).2 in
  main env Demo.args w = generate env Demo.args cfg Demo.root w1 ∧
  (confirm_target Demo.root (resolve_config env Demo.args w).2).1 = Ok true.
Proof.
  intros env w cfg w1.
  destruct (confirmation_accepts_only_y env Demo.args w cfg " Y " [])
    as (Hyes & _ & Hgate & _).
  - reflexivity.
  - reflexivity.
  - by vm_compute.
  - reflexivity.
  - split; [apply Hyes; reflexivity | exact Hgate].
Defined.

(** ** Version control *)

(** A command that is not in a list of concrete command lines. *)
Ltac absurd_elem :=
  let H := fresh in
  intros H;
  repeat (apply elem_of_cons in H as [H | H]; [discriminate H |]);
  by apply elem_of_nil in H.

Ltac prefix_of_sequence :=
  first
    [ by exists [GIT_INIT; GIT_ADD; GIT_COMMIT]
    | by exists [GIT_ADD; GIT_COMMIT]
    | by exists [GIT_COMMIT]
    | by exists [] ].

(** C7 (as amended). [git_init] never raises, and what it does is fixed by
    what the external program does, as follows.  The version probe is always
    attempted.  If it cannot be started, the warning that git is missing is
    printed and nothing else is run.  If it could be started, its exit status
    is not looked at: whatever it is, the run goes on, and if the project
    root holds a [.git] entry now, that is said and nothing else is run.
    Otherwise init, add and commit are attempted in this order, each only if
    the one before exited with status 0; the first of them that cannot be
    started or exits with another status ends the sequence, and the warning
    with the text of that failure is printed; if all three exit with status
    0 the success line is printed.  In every case the file system is as the
    last command that ran left it (nothing is undone), exactly one line is
    printed, and the commands handed over are an initial part of probe,
    init, add, commit. *)
Theorem git_init_sequence (env : Env) (root : Path) (w : World) :
  let warning e := MSG_GIT_FAILED ++ env_str_exn env e in
  let failed cmd rc := warning (CalledProcessError cmd rc) in
  git_init env root w =
    (Ok tt,
     match env_run env GIT_PROBE None (fs w) with
     | CannotStart _ => after_git w [GIT_PROBE] (fs w) MSG_NO_GIT
     | Exited _ f1 =>
         if path_exists f1 (root / ".git")%path
         then after_git w [GIT_PROBE] f1 MSG_ALREADY_REPO
         else
           match env_run env GIT_INIT (Some root) f1 with
           | CannotStart e => after_git w [GIT_PROBE; GIT_INIT] f1 (warning e)
           | Exited rc1 f2 =>
               if negb (rc1 =? 0)%Z
               then after_git w [GIT_PROBE; GIT_INIT] f2 (failed GIT_INIT rc1)
               else
                 match env_run env GIT_ADD (Some root) f2 with
                 | CannotStart e =>
                     after_git w [GIT_PROBE; GIT_INIT; GIT_ADD] f2 (warning e)
                 | Exited rc2 f3 =>
                     if negb (rc2 =? 0)%Z
                     then after_git w [GIT_PROBE; GIT_INIT; GIT_ADD] f3
                            (failed GIT_ADD rc2)
                     else
                       match env_run env GIT_COMMIT (Some root) f3 with
                       | CannotStart e =>
                           after_git w [GIT_PROBE; GIT_INIT; GIT_ADD; GIT_COMMIT] f3
                             (warning e)
                       | Exited rc3 f4 =>
                           after_git w [GIT_PROBE; GIT_INIT; GIT_ADD; GIT_COMMIT] f4
                             (if (rc3 =? 0)%Z then MSG_GIT_DONE
                              else failed GIT_COMMIT rc3)
                       end
                 end
           end
     end) ∧
  ∃ attempts,
    spawned (git_init env root w).2 = (spawned w ++ attempts)%list ∧
    attempts `prefix_of` [GIT_PROBE; GIT_INIT; GIT_ADD; GIT_COMMIT] ∧
    GIT_PROBE ∈ attempts.
Proof.
  intros warning failed. subst warning failed.
  destruct w as [f lines out n sp].
  unfold git_init, try_except, bind, subprocess_run, on_fs, exists_, print, ret,
    after_git.
  cbn [fs set_fs set_spawned set_terminal stdin stdout spawned ticks andb negb].
  destruct (env_run env GIT_PROBE None f) as [e0 | rc0 f1]; simpl.
  { split; [reflexivity |]. exists [GIT_PROBE].
    split; [done |]. split; [prefix_of_sequence | set_solver]. }
  destruct (path_exists f1 (root / ".git")%path); simpl.
  { split; [reflexivity |]. exists [GIT_PROBE].
    split; [done |]. split; [prefix_of_sequence | set_solver]. }
  destruct (env_run env GIT_INIT (Some root) f1) as [e1 | rc1 f2]; simpl.
  { split; [by rewrite <- !app_assoc |]. exists [GIT_PROBE; GIT_INIT].
    split; [by rewrite <- !app_assoc |]. split; [prefix_of_sequence | set_solver]. }
  destruct (rc1 =? 0)%Z; simpl.
  2: { split; [by rewrite <- !app_assoc |]. exists [GIT_PROBE; GIT_INIT].
       split; [by rewrite <- !app_assoc |]. split; [prefix_of_sequence | set_solver]. }
  destruct (env_run env GIT_ADD (Some root) f2) as [e2 | rc2 f3]; simpl.
  { split; [by rewrite <- !app_assoc |]. exists [GIT_PROBE; GIT_INIT; GIT_ADD].
    split; [by rewrite <- !app_assoc |]. split; [prefix_of_sequence | set_solver]. }
  destruct (rc2 =? 0)%Z; simpl.
  2: { split; [by rewrite <- !app_assoc |]. exists [GIT_PROBE; GIT_INIT; GIT_ADD].
       split; [by rewrite <- !app_assoc |]. split; [prefix_of_sequence | set_solver]. }
  destruct (env_run env GIT_COMMIT (Some root) f3) as [e3 | rc3 f4]; simpl.
  { split; [by rewrite <- !app_assoc |].
    exists [GIT_PROBE; GIT_INIT; GIT_ADD; GIT_COMMIT].
    split; [by rewrite <- !app_assoc |]. split; [prefix_of_sequence | set_solver]. }
  destruct (rc3 =? 0)%Z; simpl.
  all: split; [by rewrite <- !app_assoc |].
  all: exists [GIT_PROBE; GIT_INIT; GIT_ADD; GIT_COMMIT].
  all: split; [by rewrite <- !app_assoc |]; split; [prefix_of_sequence | set_solver].
Qed.

(** C7 as stated fails at the probe: with a launcher that starts but exits
    with status 1 on every command, the version probe does not succeed, and
    [git init] is run all the same. *)
Lemma git_init_sequence_counterexample :
  let env := Demo.env Demo.broken_git in
  let w := Demo.world (<[Demo.root := Dir]> ∅) [] in
  env_run env GIT_PROBE None (fs w) = Exited 1 (fs w) ∧
  (git_init env Demo.root w).1 = Ok tt ∧
  spawned (git_init env Demo.root w).2 = [GIT_PROBE; GIT_INIT].
Proof. repeat split. Qed.

Lemma report_runs cfg root w :
  report cfg root w =
    (Ok tt, set_terminal (stdin w) (stdout w ++ report_lines cfg root) w).
Proof.
  destruct w as [f lines out n sp].
  unfold report, bind, print, set_terminal, report_lines. simpl.
  destruct (decide (template cfg = "fintech-dapp")); simpl;
    by rewrite <- !app_assoc.
Qed.

Lemma git_init_cannot_start env root w e :
  env_run env GIT_PROBE None (fs w) = CannotStart e ->
  git_init env root w =
    (Ok tt,
     set_terminal (stdin w) (stdout w ++ [text_line MSG_NO_GIT])
       (set_spawned (spawned w ++ [GIT_PROBE]) w)).
Proof.
  intros H. destruct w as [f lines out n sp]. simpl in H.
  unfold git_init, try_except, bind, subprocess_run, print, ret. simpl.
  by rewrite H.
Qed.

(** ** Writing into a directory that is there *)

Lemma well_formed_parent fs d up x :
  well_formed fs -> fs !! (d :: up) = Some x -> stat fs up = Some Dir.
Proof. intros Hwf H. exact (Hwf (d :: up) x H). Qed.

Lemma mkdir_existing fs p parents :
  well_formed fs -> stat fs p = Some Dir -> mkdir p parents true fs = (Ok tt, fs).
Proof.
  intros Hwf Hp. destruct p as [| d up]; [reflexivity |].
  rewrite stat_cons in Hp.
  rewrite mkdir_child; [by rewrite insert_id | by eapply well_formed_parent | by right].
Qed.

Lemma write_file_in_dir fs d up content overwrite :
  well_formed fs ->
  stat fs up = Some Dir ->
  fs !! (d :: up) = None ∨ (overwrite = true ∧ ∃ c0, fs !! (d :: up) = Some (File c0)) ->
  write_file (d :: up) content overwrite fs =
    (Ok tt, <[d :: up := File content]> fs).
Proof.
  intros Hwf Hup Hp. unfold write_file.
  replace (path_exists fs (d :: up) && negb overwrite) with false.
  - unfold bind. simpl parent. rewrite mkdir_existing by done.
    unfold write_text. rewrite Hup. by destruct Hp as [-> | (_ & c0 & ->)].
  - unfold path_exists. rewrite stat_cons.
    by destruct Hp as [-> | (-> & c0 & ->)].
Qed.

(** C3. [write_project_meta] writes [project_meta.json] in the project
    root with overwriting enabled: whether the file is absent or there from an
    earlier run, its content afterwards is the JSON text of a mapping with
    exactly the keys [project_name], [project_cn_name], [project_type],
    [template], [duration_weeks], [hours_per_week], [created_at] and
    [scaffold_version], in this order, the first six holding the resolved
    configuration, [created_at] the ISO-8601 text of the clock reading taken
    by this very call, and [scaffold_version] the literal [2.0]. *)
Theorem write_project_meta_record (env : Env) (root : Path) (cfg : Config)
  (w : World) :
  well_formed (fs w) ->
  stat (fs w) root = Some Dir ->
  fs w !! (root / "project_meta.json")%path ≠ Some Dir ->
  let now := env_clock env (ticks w) in
  let saved : dict :=
    [("project_name", project_name cfg);
     ("project_cn_name", project_cn_name cfg);
     ("project_type", project_type cfg);
     ("template", template cfg);
     ("duration_weeks", duration_weeks cfg);
     ("hours_per_week", hours_per_week cfg);
     ("created_at", isoformat now);
     ("scaffold_version", "2.0")] in
  write_project_meta env root (meta_of cfg) w =
    (Ok tt,
     set_fs (<[(root / "project_meta.json")%path := File (json_dumps saved ++ LF)]> (fs w))
       (set_ticks (S (ticks w)) w)) ∧
  String.length (isoformat now) = (if (dt_microsecond now =? 0)%N then 19 else 26).
Proof.
  intros Hwf Hroot Hmeta now saved. split.
  - destruct w as [f lines out n sp]. simpl in *.
    unfold write_project_meta, bind, datetime_now, on_fs. simpl.
    rewrite write_file_in_dir; [done | done | done |].
    destruct (f !! (root / "project_meta.json")%path) as [[| c0] |] eqn:E;
      [done | right; eauto | by left].
  - unfold isoformat, strftime_ymd, pad6, pad4, pad2.
    destruct (dt_microsecond now =? 0)%N; reflexivity.
Qed.

(** Well-formedness of a file system that is written out. *)
Ltac concrete_well_formed :=
  unfold well_formed; apply map_Forall_to_list; vm_compute; repeat constructor.

(** C3, at a concrete input: a second run over the project of an earlier
    one, whose record is replaced. *)
Lemma write_project_meta_record_witness :
  let env := Demo.env Demo.no_git in
  let w := Demo.world Demo.scaffolded [] in
  let saved : dict :=
    [("project_name", "demo-app"); ("project_cn_name", "demo-app");
     ("project_type", "service-api"); ("template", "default");
     ("duration_weeks", "4"); ("hours_per_week", "20");
     ("created_at", "2025-11-04T09:05:00"); ("scaffold_version", "2.0")] in
  write_project_meta env Demo.root (meta_of Demo.config) w =
    (Ok tt,
     set_fs (<[(Demo.root / "project_meta.json")%path :=
                 File (json_dumps saved ++ LF)]> Demo.scaffolded)
       (set_ticks 1 w)) ∧
  String.length "2025-11-04T09:05:00" = 19.
Proof.
  apply (write_project_meta_record (Demo.env Demo.no_git) Demo.root Demo.config
           (Demo.world Demo.scaffolded [])).
  - concrete_well_formed.
  - reflexivity.
  - by vm_compute.
Defined.

(** ** Frames: what a computation keeps, whatever its outcome *)

Section Keeps.

Context (R : FS -> FS -> Prop).
Hypothesis R_refl : ∀ fs, R fs fs.
Hypothesis R_trans : ∀ fs1 fs2 fs3, R fs1 fs2 -> R fs2 fs3 -> R fs1 fs3.

Lemma keeps_ret {A : Type} (a : A) : keeps R (ret a).
Proof using R_refl. intros fs r fs' [= <- <-]. apply R_refl. Qed.

Lemma keeps_raise {A : Type} (e : exn) : keeps R (raise e : SE FS A).
Proof using R_refl. intros fs r fs' [= <- <-]. apply R_refl. Qed.

Lemma keeps_bind {A B : Type} (m : SE FS A) (k : A -> SE FS B) :
  keeps R m -> (∀ a, keeps R (k a)) -> keeps R (bind m k).
Proof using R_trans.
  intros Hm Hk fs r fs'. rewrite bind_unfold.
  destruct (m fs) as [[a | e] fs1] eqn:E; intros H.
  - eapply R_trans; [by eapply Hm | by eapply Hk].
  - injection H as <- <-. by eapply Hm.
Qed.

Lemma keeps_for_each {A : Type} (l : list A) (body : A -> SE FS unit) :
  (∀ x, keeps R (body x)) -> keeps R (for_each l body).
Proof using R_refl R_trans.
  intros Hb. induction l as [| x l IH]; simpl.
  - apply keeps_ret.
  - apply keeps_bind; [apply Hb | by intros _].
Qed.

Lemma keeps_exists p : keeps R (exists_ p).
Proof using R_refl. intros fs r fs' [= <- <-]. apply R_refl. Qed.

Lemma keeps_getitem d key : keeps R (getitem d key).
Proof using R_refl.
  unfold getitem. destruct (dict_get d key); [apply keeps_ret | apply keeps_raise].
Qed.

End Keeps.

Lemma grows_to_subseteq p fs fs' : grows_to p fs fs' -> fs ⊆ fs'.
Proof.
  intros H. apply map_subseteq_spec. intros q x Hq.
  destruct (H q) as [-> | (Hn & _ & _)]; congruence.
Qed.

(** [mkdir] only adds entries, and so does [write_file] without
    overwriting. *)
Lemma keeps_subseteq_mkdir p parents exist_ok :
  keeps (⊆) (mkdir p parents exist_ok).
Proof. intros fs r fs' H. eapply grows_to_subseteq, mkdir_grows, H. Qed.

Lemma keeps_subseteq_write_file p content :
  keeps (⊆) (write_file p content false).
Proof.
  intros fs r fs'. unfold write_file, path_exists.
  destruct (stat fs p) as [x |] eqn:Es; simpl; [by intros [= <- <-] |].
  destruct p as [| d up]; [done |]. rewrite stat_cons in Es.
  rewrite bind_unfold. simpl parent.
  destruct (mkdir up true true fs) as [[[] | e] fs1] eqn:E1;
    pose proof (mkdir_grows _ _ _ _ _ _ E1) as Hg.
  - unfold write_text.
    destruct (stat fs1 up) as [[| c] |];
      try (intros [= <- <-]; by eapply grows_to_subseteq).
    rewrite (grows_to_above _ _ _ _ Hg), Es. intros [= <- <-].
    etrans; [by eapply grows_to_subseteq |].
    apply insert_subseteq. by rewrite (grows_to_above _ _ _ _ Hg).
  - intros [= <- <-]. by eapply grows_to_subseteq.
Qed.

(** ** The blocks of the fintech-dapp template *)

Lemma mkdir_present fs p parents :
  stat fs p = Some Dir -> stat fs (parent p) = Some Dir ->
  mkdir p parents true fs = (Ok tt, fs).
Proof.
  intros Hp Hup. destruct p as [| d up]; [reflexivity |].
  rewrite stat_cons in Hp. simpl in Hup.
  rewrite mkdir_child; [by rewrite insert_id | done | by right].
Qed.

Lemma write_file_fresh fs d up content overwrite :
  stat fs up = Some Dir -> stat fs (parent up) = Some Dir ->
  fs !! (d :: up) = None ->
  write_file (d :: up) content overwrite fs = (Ok tt, <[d :: up := File content]> fs).
Proof.
  intros Hup Hupup Hp. unfold write_file, path_exists.
  rewrite stat_cons, Hp. simpl. rewrite bind_unfold.
  rewrite mkdir_present by done. unfold write_text. by rewrite Hup, Hp.
Qed.

(** Making the directories [names] in a directory [base] that is there. *)
Lemma for_each_mkdir_children fs base names :
  stat fs base = Some Dir ->
  (∀ d, d ∈ names -> fs !! (d :: base) = None ∨ fs !! (d :: base) = Some Dir) ->
  ∃ fs1, for_each names (fun d => mkdir (base / d)%path true true) fs = (Ok tt, fs1) ∧
         fs ⊆ fs1 ∧
         (∀ d, d ∈ names -> fs1 !! (d :: base) = Some Dir) ∧
         (∀ q, (∀ d, d ∈ names -> q ≠ d :: base) -> fs1 !! q = fs !! q).
Proof.
  revert fs. induction names as [| n names IH]; intros fs Hbase Hfree.
  - exists fs. repeat split; [done | by intros d Hd; apply elem_of_nil in Hd].
  - simpl. rewrite bind_unfold.
    rewrite mkdir_child; [| done | apply Hfree; by left].
    destruct (IH (<[n :: base := Dir]> fs)) as (fs1 & E & Hsub & Hin & Hout).
    + rewrite stat_insert_ne; [done |]. apply cons_app_ne_self with (k := []).
    + intros d Hd. destruct (decide (d = n)) as [-> | Hne].
      * right. apply lookup_insert_eq.
      * rewrite lookup_insert_ne by congruence. apply Hfree. by right.
    + exists fs1. split; [done |]. split; [| split].
      * etrans; [| exact Hsub].
        destruct (Hfree n) as [H | H]; [by left | by apply insert_subseteq |].
        by rewrite insert_id.
      * intros d Hd. apply elem_of_cons in Hd as [-> | Hd]; [| by apply Hin].
        eapply lookup_weaken; [apply lookup_insert_eq | exact Hsub].
      * intros q Hq. rewrite Hout; [| intros d Hd; apply Hq; by right].
        apply lookup_insert_ne. apply not_eq_sym, Hq. by left.
Qed.

Lemma template_block fs base names readme :
  "README.md" ∉ names ->
  stat fs (parent base) = Some Dir ->
  block_ready fs base names ->
  ∃ fs1,
    (for_each names (fun d => mkdir (base / d)%path true true) ;;
     write_file (base / "README.md")%path readme false) fs = (Ok tt, fs1) ∧
    fs ⊆ fs1 ∧ block_done fs fs1 base names readme.
Proof.
  intros Hnot Hup [Hbase Hfree].
  destruct (for_each_mkdir_children fs base names Hbase Hfree)
    as (fs1 & E & Hsub & Hin & Hout).
  assert (Hreadme : fs1 !! ("README.md" :: base) = fs !! ("README.md" :: base)).
  { apply Hout. intros d Hd [= <-]. done. }
  rewrite bind_unfold, E.
  destruct (fs !! ("README.md" :: base)) as [x |] eqn:Ex.
  - exists fs1. split; [| split; [done |]].
    + apply write_file_skips. unfold path_exists. by rewrite stat_cons, Hreadme.
    + repeat split; [done | congruence | congruence].
  - exists (<[("README.md" :: base) := File readme]> fs1). split; [| split].
    + apply write_file_fresh; [| | done].
      * destruct base; [done |]. eapply lookup_weaken; [exact Hbase | exact Hsub].
      * destruct base as [| b [| b' up]]; [done | done |].
        eapply lookup_weaken; [exact Hup | exact Hsub].
    + etrans; [exact Hsub |]. by apply insert_subseteq.
    + repeat split.
      * intros d Hd. rewrite lookup_insert_ne; [by apply Hin |].
        intros [= <-]. done.
      * intros _. apply lookup_insert_eq.
      * congruence.
Qed.

(** The steps of the template after its two blocks, and the steps from the
    second block on, only add entries. *)
Ltac keeps_subseteq :=
  repeat first
    [ apply keeps_ret; reflexivity
    | apply keeps_exists; reflexivity
    | apply keeps_getitem; reflexivity
    | apply keeps_subseteq_mkdir
    | apply keeps_subseteq_write_file
    | apply keeps_for_each; [reflexivity | intros; etrans; eassumption | intros ?]
    | apply keeps_bind; [intros; etrans; eassumption | | intros ?]
    | match goal with |- keeps _ (if ?b then _ else _) => destruct b end ].

Lemma suffix_self_cons {A} (l k : list A) (a : A) :
  (a :: k ++ l) `suffix_of` l -> False.
Proof.
  intros H. apply suffix_length in H. simpl in H. rewrite length_app in H. lia.
Qed.

Lemma changes_within_refl S fs : changes_within S fs fs.
Proof. intros q. by left. Qed.

Lemma changes_within_trans S fs1 fs2 fs3 :
  changes_within S fs1 fs2 -> changes_within S fs2 fs3 -> changes_within S fs1 fs3.
Proof.
  intros H1 H2 q. destruct (H2 q) as [-> | ?]; [| by right]. apply H1.
Qed.

Lemma keeps_within_mkdir (S : Path -> Prop) p parents exist_ok :
  (∀ q, q `suffix_of` p -> S q) ->
  keeps (changes_within S) (mkdir p parents exist_ok).
Proof.
  intros HS fs r fs' H q. apply mkdir_grows in H.
  destruct (H q) as [-> | (_ & _ & Hq)]; [by left | right; by apply HS].
Qed.

Lemma keeps_within_write_file (S : Path -> Prop) p content overwrite :
  (∀ q, q `suffix_of` p -> S q) ->
  keeps (changes_within S) (write_file p content overwrite).
Proof.
  intros HS fs r fs'. unfold write_file.
  destruct (path_exists fs p && negb overwrite); [intros [= <- <-]; by left |].
  rewrite bind_unfold.
  destruct (mkdir (parent p) true true fs) as [[[] | e] fs1] eqn:E1.
  - intros H q. apply mkdir_grows in E1.
    assert (Hstep : fs' !! q = fs1 !! q ∨ q = p).
    { unfold write_text in H. destruct p as [| d up]; [left; congruence |].
      destruct (stat fs1 up) as [[| c] |]; try (left; congruence).
      destruct (fs1 !! (d :: up)) as [[| c] |]; try (left; congruence);
        injection H as <- <-;
        (destruct (decide (d :: up = q)) as [<- | Hne];
           [by right | left; by rewrite lookup_insert_ne]). }
    destruct Hstep as [-> | ->]; [| right; by apply HS].
    destruct (E1 q) as [-> | (_ & _ & Hq)]; [by left |].
    right. apply HS. etrans; [exact Hq |].
    destruct p; [done | by apply suffix_cons_r].
  - intros [= <- <-] q. apply mkdir_grows in E1.
    destruct (E1 q) as [-> | (_ & _ & Hq)]; [by left |].
    right. apply HS. etrans; [exact Hq |].
    destruct p; [done | by apply suffix_cons_r].
Qed.

(** A path of the form [x / ... ] cannot lie above a shorter path that
    differs from it in a segment. *)
Ltac not_above :=
  let q := fresh "q" in
  let Hq := fresh "Hq" in
  let Hf := fresh "Hf" in
  intros q Hq Hf;
  pose proof (transitivity Hf Hq) as Hq';
  repeat
    (apply suffix_cons_inv in Hq' as [Hq' | Hq'];
     [ first [ discriminate Hq'
             | congruence
             | (apply (f_equal length) in Hq'; simpl in Hq'; lia) ] | ]);
  apply suffix_length in Hq'; simpl in Hq'; lia.

Ltac keeps_within :=
  repeat first
    [ apply keeps_ret; apply changes_within_refl
    | apply keeps_exists; apply changes_within_refl
    | apply keeps_getitem; apply changes_within_refl
    | apply keeps_within_mkdir; not_above
    | apply keeps_within_write_file; not_above
    | apply keeps_for_each;
        [apply changes_within_refl | apply changes_within_trans | intros ?]
    | apply keeps_bind; [apply changes_within_trans | | intros ?]
    | match goal with |- keeps _ (if ?b then _ else _) => destruct b end ].

Lemma apply_fintech_frontend_kept root pt meta fs q :
  stat fs (root / "src" / "frontend")%path = None ->
  (root / "src" / "frontend")%path `suffix_of` q ->
  (apply_fintech_dapp_template root pt meta fs).2 !! q = fs !! q.
Proof.
  intros Hnone Hq.
  destruct (apply_fintech_dapp_template root pt meta fs) as [r fs'] eqn:E.
  unfold apply_fintech_dapp_template in E. rewrite bind_unfold in E.
  unfold exists_ at 1, path_exists in E. rewrite Hnone in E.
  match type of E with
  | ?m fs = _ =>
      assert (K : keeps
        (changes_within (fun q => ¬ (root / "src" / "frontend")%path `suffix_of` q)) m)
  end.
  { unfold BACKEND_DIRS. keeps_within. }
  simpl. destruct (K _ _ _ E q) as [-> | Hno]; done.
Qed.

Lemma apply_fintech_backend_kept root pt meta fs q :
  stat fs (root / "src" / "backend")%path = None ->
  (root / "src" / "backend")%path `suffix_of` q ->
  (apply_fintech_dapp_template root pt meta fs).2 !! q = fs !! q.
Proof.
  intros Hnone Hq.
  set (S := fun q => ¬ (root / "src" / "backend")%path `suffix_of` q).
  assert (Hkept : ∀ f f', changes_within S f f' ->
            f' !! q = f !! q ∧
            stat f' (root / "src" / "backend")%path = stat f (root / "src" / "backend")%path).
  { intros f f' Hc. split.
    - destruct (Hc q) as [-> | Hno]; done.
    - rewrite !stat_cons. destruct (Hc (root / "src" / "backend")%path) as [-> | Hno];
        [done | by destruct Hno]. }
  destruct (apply_fintech_dapp_template root pt meta fs) as [r fs'] eqn:E.
  unfold apply_fintech_dapp_template in E. rewrite bind_unfold in E.
  unfold exists_ at 1 in E. rewrite bind_unfold in E.
  match type of E with
  | match ?m fs with _ => _ end = _ =>
      assert (K1 : keeps (changes_within S) m)
        by (unfold FRONTEND_DIRS; subst S; keeps_within);
      destruct (m fs) as [[[] | e] fs1] eqn:E1
  end; apply K1 in E1; destruct (Hkept _ _ E1) as [Hq1 Hb1]; simpl.
  - rewrite <- Hq1. rewrite bind_unfold in E.
    unfold exists_ at 1, path_exists in E. rewrite Hb1, Hnone in E.
    match type of E with
    | ?m fs1 = _ =>
        assert (K2 : keeps (changes_within S) m) by (subst S; keeps_within)
    end.
    apply K2 in E. by destruct (Hkept _ _ E).
  - injection E as <- <-. done.
Qed.

Lemma block_done_weaken fs fs1 fs' base names readme :
  block_done fs fs1 base names readme -> fs1 ⊆ fs' ->
  block_done fs fs' base names readme.
Proof.
  intros (Hd & Hn & Hs) Hsub. repeat split.
  - intros d Hin. eapply lookup_weaken; [by apply Hd | done].
  - intros H. eapply lookup_weaken; [by apply Hn | done].
  - intros x H. eapply lookup_weaken; [by apply Hs | done].
Qed.

Lemma apply_fintech_frontend_done root pt meta fs :
  well_formed fs ->
  block_ready fs (root / "src" / "frontend")%path FRONTEND_DIRS ->
  block_done fs (apply_fintech_dapp_template root pt meta fs).2
    (root / "src" / "frontend")%path FRONTEND_DIRS (document frontend_readme_text).
Proof.
  intros Hwf Hready.
  destruct (template_block fs (root / "src" / "frontend")%path FRONTEND_DIRS
              (document frontend_readme_text)) as (fs1 & E1 & Hsub & Hdone).
  { unfold FRONTEND_DIRS. absurd_elem. }
  { destruct Hready as [Hf _]. rewrite stat_cons in Hf.
    eapply well_formed_parent; [done | exact Hf]. }
  { done. }
  destruct (apply_fintech_dapp_template root pt meta fs) as [r fs'] eqn:E.
  unfold apply_fintech_dapp_template in E. rewrite bind_unfold in E.
  unfold exists_ at 1, path_exists in E.
  destruct Hready as [Hf _]. rewrite Hf in E.
  rewrite bind_unfold, E1 in E.
  match type of E with
  | ?m fs1 = _ =>
      assert (K : keeps (⊆) m) by (unfold BACKEND_DIRS; keeps_subseteq)
  end.
  apply K in E. simpl. by eapply block_done_weaken.
Qed.

Lemma apply_fintech_backend_done root pt meta fs :
  well_formed fs ->
  stat fs (root / "src" / "frontend")%path = None ∨
    block_ready fs (root / "src" / "frontend")%path FRONTEND_DIRS ->
  block_ready fs (root / "src" / "backend")%path BACKEND_DIRS ->
  block_done fs (apply_fintech_dapp_template root pt meta fs).2
    (root / "src" / "backend")%path BACKEND_DIRS (document backend_readme_text).
Proof.
  intros Hwf Hfront [Hb Hfree].
  set (S := fun q => ¬ (root / "src" / "backend")%path `suffix_of` q).
  assert (Hsrc : stat fs (root / "src")%path = Some Dir).
  { rewrite stat_cons in Hb. eapply well_formed_parent; [done | exact Hb]. }
  (* the state after the frontend part *)
  assert (Hfirst : ∃ fs1,
    (if path_exists fs (root / "src" / "frontend")%path then
       for_each FRONTEND_DIRS
         (fun d => mkdir (root / "src" / "frontend" / d)%path true true) ;;
       write_file (root / "src" / "frontend" / "README.md")%path
         (document frontend_readme_text) false
     else ret tt) fs = (Ok tt, fs1) ∧ fs ⊆ fs1 ∧ changes_within S fs fs1).
  { destruct Hfront as [Hnone | Hready].
    - exists fs. unfold path_exists. rewrite Hnone.
      repeat split; [done | apply changes_within_refl].
    - destruct (template_block fs (root / "src" / "frontend")%path FRONTEND_DIRS
                  (document frontend_readme_text)) as (fs1 & E1 & Hsub & _).
      { unfold FRONTEND_DIRS. absurd_elem. }
      { done. }
      { done. }
      exists fs1. unfold path_exists. destruct Hready as [-> _].
      repeat split; [done | done |].
      assert (K : keeps (changes_within S)
        (for_each FRONTEND_DIRS
           (fun d => mkdir (root / "src" / "frontend" / d)%path true true) ;;
         write_file (root / "src" / "frontend" / "README.md")%path
           (document frontend_readme_text) false))
        by (unfold FRONTEND_DIRS; subst S; keeps_within).
      exact (K _ _ _ E1). }
  destruct Hfirst as (fs1 & E1 & Hsub1 & Hch1).
  assert (Hsame : ∀ q, (root / "src" / "backend")%path `suffix_of` q ->
                       fs1 !! q = fs !! q).
  { intros q Hq. destruct (Hch1 q) as [-> | Hno]; done. }
  destruct (template_block fs1 (root / "src" / "backend")%path BACKEND_DIRS
              (document backend_readme_text)) as (fs2 & E2 & Hsub2 & Hdone).
  { unfold BACKEND_DIRS. absurd_elem. }
  { simpl. eapply lookup_weaken; [exact Hsrc | exact Hsub1]. }
  { split.
    - rewrite stat_cons. eapply lookup_weaken; [exact Hb | exact Hsub1].
    - intros d Hd. rewrite Hsame; [by apply Hfree | by apply suffix_cons_r]. }
  destruct (apply_fintech_dapp_template root pt meta fs) as [r fs'] eqn:E.
  unfold apply_fintech_dapp_template in E. rewrite bind_unfold in E.
  unfold exists_ at 1 in E. rewrite bind_unfold, E1 in E.
  rewrite bind_unfold in E. unfold exists_ at 1, path_exists in E.
  rewrite stat_cons in E.
  rewrite (lookup_weaken _ _ _ _ Hb Hsub1) in E.
  rewrite bind_unfold, E2 in E.
  match type of E with
  | ?m fs2 = _ => assert (K : keeps (⊆) m) by keeps_subseteq
  end.
  apply K in E. simpl. eapply block_done_weaken; [| exact E].
  destruct Hdone as (Hd & Hn & Hs). repeat split; [done | |].
  - intros H. apply Hn. by rewrite Hsame by (by apply suffix_cons_r).
  - intros x H. apply Hs. by rewrite Hsame by (by apply suffix_cons_r).
Qed.

(** C10 (as amended). What [apply_fintech_dapp_template] does about the
    frontend and the backend follows the directories [src/frontend] and
    [src/backend] as they are when it runs, and nothing else: its
    [project_type] argument makes no difference to its result.  Whatever the project type, if [src/frontend]
    is a directory (and none of the four names is taken by a file), then
    afterwards [pages], [components], [hooks] and [styles] are directories in
    it and it has a README, the template's unless one was there; if
    [src/frontend] does not exist, nothing at or below it is created.  The
    same holds of [src/backend] with [api], [services], [models] and [jobs],
    provided the frontend steps before it did not fail. *)
Theorem fintech_steps_follow_directories (root : Path) (meta : dict) (fs : FS) :
  well_formed fs ->
  let frontend := (root / "src" / "frontend")%path in
  let backend := (root / "src" / "backend")%path in
  let after pt := (apply_fintech_dapp_template root pt meta fs).2 in
  (∀ pt pt',
     apply_fintech_dapp_template root pt meta fs =
     apply_fintech_dapp_template root pt' meta fs) ∧
  (block_ready fs frontend ["pages"; "components"; "hooks"; "styles"] ->
   ∀ pt, block_done fs (after pt) frontend ["pages"; "components"; "hooks"; "styles"]
           (document frontend_readme_text)) ∧
  (stat fs frontend = None ->
   ∀ pt q, frontend `suffix_of` q -> after pt !! q = fs !! q) ∧
  (stat fs frontend = None ∨
     block_ready fs frontend ["pages"; "components"; "hooks"; "styles"] ->
   block_ready fs backend ["api"; "services"; "models"; "jobs"] ->
   ∀ pt, block_done fs (after pt) backend ["api"; "services"; "models"; "jobs"]
           (document backend_readme_text)) ∧
  (stat fs backend = None ->
   ∀ pt q, backend `suffix_of` q -> after pt !! q = fs !! q).
Proof.
  intros Hwf frontend backend after.
  split; [| split; [| split; [| split]]].
  - reflexivity.
  - intros Hready pt. by apply (apply_fintech_frontend_done root pt meta fs).
  - intros Hnone pt q Hq. by apply apply_fintech_frontend_kept.
  - intros Hfront Hready pt. by apply (apply_fintech_backend_done root pt meta fs).
  - intros Hnone pt q Hq. by apply apply_fintech_backend_kept.
Qed.

(** C10, at a concrete input: a tool-script project whose target holds a
    [src/frontend] of the user's; the frontend steps are done, the backend
    steps are not. *)
Lemma fintech_steps_follow_directories_witness :
  let frontend := (Demo.root / "src" / "frontend")%path in
  let backend := (Demo.root / "src" / "backend")%path in
  let fs' :=
    (apply_fintech_dapp_template Demo.root "tool-script" (meta_of Demo.config)
       Demo.with_frontend).2 in
  block_done Demo.with_frontend fs' frontend ["pages"; "components"; "hooks"; "styles"]
    (document frontend_readme_text) ∧
  (∀ q, backend `suffix_of` q -> fs' !! q = Demo.with_frontend !! q).
Proof.
  intros frontend backend fs'.
  destruct (fintech_steps_follow_directories Demo.root (meta_of Demo.config)
              Demo.with_frontend) as (_ & Hfront & _ & _ & Hback).
  - concrete_well_formed.
  - split.
    + apply Hfront. split; [reflexivity |].
      intros d Hd. left.
      repeat (apply elem_of_cons in Hd as [-> | Hd]; [reflexivity |]).
      by apply elem_of_nil in Hd.
    + intros q Hq. apply Hback; [reflexivity | exact Hq].
Defined.

(** C10 as stated fails where one of the four names is taken by a regular
    file: with a file [components] in an existing [src/frontend], the call
    ends in [FileExistsError] when it comes to that name.  [pages] has been
    made by then; [hooks], [styles] and the README of the frontend are not
    made, and the steps for the existing [src/backend] are not run at all. *)
Lemma fintech_steps_follow_directories_counterexample :
  let frontend := (Demo.root / "src" / "frontend")%path in
  let backend := (Demo.root / "src" / "backend")%path in
  let fs : FS :=
    <[ backend := Dir ]>
      (<[ (frontend / "components")%path := File "mine" ]> Demo.with_frontend) in
  let result :=
    apply_fintech_dapp_template Demo.root "web-app" (meta_of Demo.config) fs in
  stat fs frontend = Some Dir ∧
  stat fs backend = Some Dir ∧
  result.1 = Raise FileExistsError ∧
  result.2 !! (frontend / "pages")%path = Some Dir ∧
  result.2 !! (frontend / "hooks")%path = None ∧
  result.2 !! (frontend / "styles")%path = None ∧
  result.2 !! (frontend / "README.md")%path = None ∧
  result.2 !! (backend / "api")%path = None ∧
  result.2 !! (backend / "README.md")%path = None.
Proof. vm_compute. repeat split. Qed.

(** ** Well-formedness is kept *)

Lemma well_formed_insert_dir fs d up :
  well_formed fs -> stat fs up = Some Dir ->
  well_formed (<[d :: up := Dir]> fs).
Proof.
  intros Hwf Hup p x Hp.
  assert (Hne : d :: up ≠ up) by apply (cons_app_ne_self [] d up).
  destruct (decide (p = d :: up)) as [-> | Hpne].
  - cbn [parent tail]. by rewrite stat_insert_ne.
  - rewrite lookup_insert_ne in Hp by done.
    pose proof (Hwf p x Hp) as Hpar. cbn beta in Hpar.
    destruct (decide (parent p = d :: up)) as [-> | Hparne].
    + apply stat_insert_eq.
    + by rewrite stat_insert_ne.
Qed.

Lemma os_mkdir_well_formed p fs r fs' :
  well_formed fs -> os_mkdir p fs = (r, fs') -> well_formed fs'.
Proof.
  intros Hwf. unfold os_mkdir. destruct p as [| d up]; [by intros [= _ <-] |].
  destruct (stat fs up) as [[| c] |] eqn:Eup; try by intros [= _ <-].
  destruct (fs !! (d :: up)); intros [= _ <-]; [done |].
  by apply well_formed_insert_dir.
Qed.

Lemma mkdir_flat_well_formed p exist_ok fs r fs' :
  well_formed fs -> mkdir_flat p exist_ok fs = (r, fs') -> well_formed fs'.
Proof.
  intros Hwf. unfold mkdir_flat.
  destruct (os_mkdir p fs) as [r1 fs1] eqn:E.
  apply os_mkdir_well_formed in E; [| done]. intros H.
  assert (fs' = fs1) as ->; [| done].
  destruct r1 as [[] | []]; try destruct (exist_ok && is_dir fs1 p); congruence.
Qed.

Lemma mkdir_well_formed p parents exist_ok fs r fs' :
  well_formed fs -> mkdir p parents exist_ok fs = (r, fs') -> well_formed fs'.
Proof.
  revert parents exist_ok fs r fs'.
  induction p as [| d up IH]; intros parents exist_ok fs r fs' Hwf H.
  - assert (fs' = fs) as ->; [| done].
    unfold mkdir in H. simpl in H. destruct exist_ok; simpl in H; congruence.
  - rewrite mkdir_cons in H.
    destruct (os_mkdir (d :: up) fs) as [r1 fs1] eqn:E.
    apply os_mkdir_well_formed in E; [| done].
    destruct r1 as [[] | e]; [by injection H as <- <- |].
    destruct e;
      try (assert (fs' = fs1) as ->;
             [destruct (exist_ok && is_dir fs1 (d :: up)); congruence | done]).
    destruct parents; [| by injection H as <- <-].
    destruct (mkdir up true true fs1) as [r2 fs2] eqn:E2.
    apply IH in E2; [| done].
    destruct r2 as [[] | e]; [by eapply mkdir_flat_well_formed | by injection H as <- <-].
Qed.

(** The first step of the generation on a vacant target: the project root is
    made, with what is missing above it, and is fresh. *)
Lemma mkdir_vacant_root fs root :
  well_formed fs -> vacant fs root ->
  ∃ fs1, mkdir root true true fs = (Ok tt, fs1) ∧
         well_formed fs1 ∧ fresh_root fs1 root ∧ grows_to root fs fs1.
Proof.
  intros Hwf [Hc Hbelow].
  destruct (mkdir_parents_ok root fs Hc) as (fs1 & E & Hdir).
  exists fs1. pose proof (mkdir_grows _ _ _ _ _ _ E) as Hg.
  repeat split; [done | by eapply mkdir_well_formed | done | | done].
  intros ds Hds. destruct (Hg (join root ds)) as [-> | (_ & _ & Hs)]; [by apply Hbelow |].
  exfalso. apply suffix_length in Hs. unfold join in Hs.
  rewrite length_app, length_reverse in Hs. destruct ds; [done | simpl in Hs; lia].
Qed.

(** ** The whole file generation, step by step *)

Lemma on_fs_unfold {A : Type} (m : SE FS A) (w : World) :
  on_fs m w = let (r, f) := m (fs w) in (r, set_fs f w).
Proof. reflexivity. Qed.

Lemma getitem_meta {S : Type} (cfg : Config) :
  @getitem S (meta_of cfg) "project_cn_name" = ret (project_cn_name cfg) ∧
  @getitem S (meta_of cfg) "project_name" = ret (project_name cfg) ∧
  @getitem S (meta_of cfg) "duration_weeks" = ret (duration_weeks cfg) ∧
  @getitem S (meta_of cfg) "hours_per_week" = ret (hours_per_week cfg).
Proof. repeat split. Qed.

Ltac rewrite_getitems cfg :=
  let H1 := fresh in
  let H2 := fresh in
  let H3 := fresh in
  let H4 := fresh in
  destruct (@getitem_meta FS cfg) as (H1 & H2 & H3 & H4);
  rewrite ?H1, ?H2, ?H3, ?H4;
  clear H1 H2 H3 H4;
  destruct (@getitem_meta World cfg) as (H1 & H2 & H3 & H4);
  rewrite ?H1, ?H2, ?H3, ?H4;
  clear H1 H2 H3 H4.

Ltac solve_none Hfresh :=
  repeat (rewrite lookup_insert_ne by path_neq);
  first [ apply (Hfresh [_]) | apply (Hfresh [_; _]) | apply (Hfresh [_; _; _]) ];
  discriminate.

Ltac solve_dir Hroot Hup :=
  repeat (rewrite stat_insert_ne by path_neq);
  first [ apply stat_insert_eq | exact Hroot | exact Hup ].

Lemma path_exists_none fs p : stat fs p = None -> path_exists fs p = false.
Proof. intros H. unfold path_exists. by rewrite H. Qed.

(** Comparisons of two string constants. *)
Ltac resolve_decides :=
  repeat
    match goal with
    | |- context [decide (?a = ?b)] =>
        first
          [ rewrite (decide_True (P := a = b)) by reflexivity
          | rewrite (decide_False (P := a = b)) by discriminate ]
    end.

Lemma path_exists_some fs p x : stat fs p = Some x -> path_exists fs p = true.
Proof. intros H. unfold path_exists. by rewrite H. Qed.

Ltac world_cbn :=
  cbn [fs set_fs set_ticks set_terminal set_spawned stdin stdout ticks spawned
       for_each parent tail].

Ltac step Hroot Hup Hfresh :=
  world_cbn; unfold bind, ret;
  first
    [ rewrite mkdir_child; [ | solve_dir Hroot Hup | solve_free Hfresh ]
    | rewrite write_file_fresh;
      [ | solve_dir Hroot Hup | solve_dir Hroot Hup | solve_none Hfresh ]
    | rewrite path_exists_none;
      [ | rewrite stat_cons; solve_none Hfresh ]
    | rewrite (path_exists_some _ _ Dir);
      [ | solve_dir Hroot Hup ] ].

Arguments document : simpl never.
Arguments write_file : simpl never.
Arguments json_dumps : simpl never.
Arguments isoformat : simpl never.
Arguments strftime_ymd : simpl never.
Arguments pretty : simpl never.
Arguments stat : simpl never.

Lemma fresh_below (fs : FS) (root q : Path) :
  (∀ ds, ds ≠ [] -> fs !! join root ds = None) ->
  root `suffix_of` q -> q ≠ root -> fs !! q = None.
Proof.
  intros Hfresh [k ->] Hne.
  replace (k ++ root)%list with (join root (reverse k)).
  - apply Hfresh. intros H. apply (f_equal reverse) in H.
    rewrite reverse_involutive in H. by subst k.
  - unfold join. by rewrite reverse_involutive.
Qed.

(** A path at or below [x / a / b] is none of the concrete paths over [x]
    that the generation writes. *)
Ltac suffix_absurd H :=
  repeat
    (apply suffix_cons_inv in H as [H | H];
     [ first [ discriminate H
             | congruence
             | (apply (f_equal length) in H; simpl in H; lia) ] | ]);
  apply suffix_length in H; simpl in H; lia.

Ltac lookup_below Hq :=
  repeat (rewrite lookup_insert_ne;
          [ | let E := fresh in intros E; rewrite <- E in Hq; suffix_absurd Hq ]).

Lemma scaffold_files_after_mkdir env cfg root w f1 :
  mkdir root true true (fs w) = (Ok tt, f1) ->
  mkdir root true true f1 = (Ok tt, f1) ->
  scaffold_files env cfg root w = scaffold_files env cfg root (set_fs f1 w).
Proof.
  intros H H1. unfold scaffold_files.
  rewrite !(bind_unfold (on_fs (mkdir root true true))), !on_fs_unfold.
  cbn [fs set_fs]. by rewrite H, H1.
Qed.

(** The tool-script project with the fintech-dapp template on a fresh root. *)
Lemma scaffold_tool_script_fintech_fresh env cfg root w :
  fresh_root (fs w) root ->
  stat (fs w) (parent root) = Some Dir ->
  project_type cfg = "tool-script" ->
  template cfg = "fintech-dapp" ->
  ∃ w', scaffold_files env cfg root w = (Ok tt, w') ∧
    stdout w' = stdout w ∧
    fs w' !! (root / "docs" / "fintech-notes.md")%path =
      Some (File (document (fintech_doc_text (project_cn_name cfg) (project_name cfg)))) ∧
    fs w' !! (root / "infra" / "docker-compose.example.yml")%path =
      Some (File (document docker_example_text)) ∧
    (∀ q, (root / "src" / "frontend")%path `suffix_of` q -> fs w' !! q = None) ∧
    (∀ q, (root / "src" / "backend")%path `suffix_of` q -> fs w' !! q = None).
Proof.
  intros [Hroot Hfresh] Hup Hty Htpl.
  destruct w as [f lines out n sp]. cbn [fs] in Hroot, Hfresh, Hup.
  destruct root as [| r up]; cbn [parent tail] in Hup.
  all: eexists; unfold scaffold_files; rewrite Hty, Htpl.
  all: unfold create_common_dirs, create_type_dirs, init_readme, init_env_example,
    init_license, init_changelog, init_docs, apply_template,
    apply_fintech_dapp_template, write_project_meta, datetime_now, exists_.
  all: rewrite_getitems cfg.
  all: resolve_decides.
  all: unfold bind, ret, on_fs; world_cbn.
  all: rewrite mkdir_present by done.
  all: repeat step Hroot Hup Hfresh.
  all: split; [reflexivity |]; world_cbn.
  all: split; [reflexivity |].
  all: split; [rewrite lookup_insert_ne by path_neq; apply lookup_insert_eq |].
  all: split; [do 2 (rewrite lookup_insert_ne by path_neq); apply lookup_insert_eq |].
  all: split; intros q Hq; lookup_below Hq.
  all: apply (fresh_below _ _ _ Hfresh);
    [ etrans; [| exact Hq]; by do 2 apply suffix_cons_r
    | intros E; rewrite E in Hq; suffix_absurd Hq ].
Qed.

(** C5. Scaffolding a tool-script project with the fintech-dapp template
    into a vacant target succeeds and writes [docs/fintech-notes.md] and
    [infra/docker-compose.example.yml], while neither [src/frontend] nor
    [src/backend] nor anything below them exists afterwards: the directory
    steps did not make them, so the template skips its frontend and backend
    steps, and it does so silently, nothing being written to the terminal. *)
Theorem fintech_on_tool_script (env : Env) (cfg : Config) (root : Path) (w : World) :
  well_formed (fs w) ->
  vacant (fs w) root ->
  project_type cfg = "tool-script" ->
  template cfg = "fintech-dapp" ->
  ∃ w', scaffold_files env cfg root w = (Ok tt, w') ∧
    stdout w' = stdout w ∧
    fs w' !! (root / "docs" / "fintech-notes.md")%path =
      Some (File (document (fintech_doc_text (project_cn_name cfg) (project_name cfg)))) ∧
    fs w' !! (root / "infra" / "docker-compose.example.yml")%path =
      Some (File (document docker_example_text)) ∧
    (∀ q, (root / "src" / "frontend")%path `suffix_of` q -> fs w' !! q = None) ∧
    (∀ q, (root / "src" / "backend")%path `suffix_of` q -> fs w' !! q = None).
Proof.
  intros Hwf Hvac Hty Htpl.
  destruct (mkdir_vacant_root (fs w) root Hwf Hvac) as (f1 & E & Hwf1 & Hfresh1 & _).
  assert (Hup : stat f1 (parent root) = Some Dir).
  { destruct Hfresh1 as [Hr _]. destruct root as [| r up]; [done |].
    eapply well_formed_parent; [exact Hwf1 | exact Hr]. }
  rewrite (scaffold_files_after_mkdir env cfg root w f1 E).
  - destruct (scaffold_tool_script_fintech_fresh env cfg root (set_fs f1 w))
      as (w' & Hrun & Hout & Hrest); [done .. |].
    exists w'. split; [exact Hrun |]. split; [exact Hout | exact Hrest].
  - apply mkdir_present; [by destruct Hfresh1 | done].
Qed.

(** C5, at a concrete input: the tool-script demonstration on an empty
    disk. *)
Lemma fintech_on_tool_script_witness :
  let env := Demo.env Demo.no_git in
  let w := Demo.world ∅ [] in
  ∃ w', scaffold_files env Demo.tool_config Demo.root w = (Ok tt, w') ∧
    stdout w' = [] ∧
    fs w' !! (Demo.root / "docs" / "fintech-notes.md")%path =
      Some (File (document (fintech_doc_text "demo-app" "demo-app"))) ∧
    fs w' !! (Demo.root / "infra" / "docker-compose.example.yml")%path =
      Some (File (document docker_example_text)) ∧
    (∀ q, (Demo.root / "src" / "frontend")%path `suffix_of` q -> fs w' !! q = None) ∧
    (∀ q, (Demo.root / "src" / "backend")%path `suffix_of` q -> fs w' !! q = None).
Proof.
  apply (fintech_on_tool_script (Demo.env Demo.no_git) Demo.tool_config Demo.root
           (Demo.world ∅ [])).
  - concrete_well_formed.
  - split.
    + intros q _. destruct q; [by right | by left].
    + intros ds _. apply lookup_empty.
  - reflexivity.
  - reflexivity.
Defined.

(** ** The layout of a generated project *)

(** On a vacant target the file generation succeeds for every project type
    and template: the project root is made with what is missing above it,
    and below it exactly the documented layout is written; the terminal is
    not used, no command is run, and the clock is read four times. *)
Lemma scaffold_files_layout_fresh env cfg root w :
  fresh_root (fs w) root ->
  stat (fs w) (parent root) = Some Dir ->
  project_type cfg ∈ PROJECT_TYPES ->
  template cfg ∈ TEMPLATES ->
  scaffold_files env cfg root w =
    (Ok tt,
     set_ticks (4 + ticks w)
       (set_fs (write_tree root (fs w) (layout env cfg (ticks w))) w)).
Proof.
  intros [Hroot Hfresh] Hup Hty Htpl.
  destruct w as [f lines out n sp]. cbn [fs] in Hroot, Hfresh, Hup.
  unfold PROJECT_TYPES in Hty. unfold TEMPLATES in Htpl.
  rewrite !elem_of_cons in Hty. rewrite !elem_of_cons in Htpl.
  assert (Hlen : (length (tail root) <= length root)%nat)
    by (destruct root; simpl; lia).
  assert (Hlen' : (length (parent root) <= length root)%nat) by done.
  destruct Hty as [Hty | [Hty | [Hty | Hty]]]; [| | | by apply elem_of_nil in Hty].
  all: destruct Htpl as [Htpl | [Htpl | Htpl]]; [| | by apply elem_of_nil in Htpl].
  all: unfold scaffold_files, layout; rewrite Hty, Htpl.
  all: unfold create_common_dirs, create_type_dirs, init_readme, init_env_example,
    init_license, init_changelog, init_docs, apply_template,
    apply_fintech_dapp_template, write_project_meta, datetime_now, exists_,
    FRONTEND_DIRS, BACKEND_DIRS.
  all: rewrite_getitems cfg.
  all: resolve_decides.
  all: unfold bind, ret, on_fs; world_cbn.
  all: rewrite mkdir_present by done.
  all: repeat step Hroot Hup Hfresh.
  all: reflexivity.
Qed.

Lemma write_tree_cons (root : Path) (f : FS) (e : list string * node) (l : list (list string * node)) :
  write_tree root f (e :: l) = write_tree root (<[join root e.1 := e.2]> f) l.
Proof. reflexivity. Qed.

Lemma lookup_write_tree_kept (root : Path) (f : FS) (l : list (list string * node)) (q : Path) :
  is_Some (f !! q) -> is_Some (write_tree root f l !! q).
Proof.
  revert f. induction l as [| e l IH]; intros f Hq; [done |].
  rewrite write_tree_cons. apply IH.
  destruct (decide (join root e.1 = q)) as [<- | Hne].
  - rewrite lookup_insert_eq. by eexists.
  - by rewrite lookup_insert_ne.
Qed.

Lemma lookup_write_tree_in (root : Path) (f : FS) (l : list (list string * node)) (ds : list string) :
  ds ∈ l.*1 -> is_Some (write_tree root f l !! join root ds).
Proof.
  revert f. induction l as [| e l IH]; intros f Hin; [by apply elem_of_nil in Hin |].
  rewrite fmap_cons in Hin. rewrite write_tree_cons.
  apply elem_of_cons in Hin as [-> | Hin]; [| by apply IH].
  apply lookup_write_tree_kept. rewrite lookup_insert_eq. by eexists.
Qed.

Lemma lookup_write_tree_other (root : Path) (f : FS) (l : list (list string * node)) (q : Path) :
  (∀ ds, ds ∈ l.*1 -> q ≠ join root ds) -> write_tree root f l !! q = f !! q.
Proof.
  revert f. induction l as [| e l IH]; intros f Hq; [done |].
  rewrite write_tree_cons, IH.
  - apply lookup_insert_ne. apply not_eq_sym, Hq. rewrite fmap_cons. by left.
  - intros ds Hin. apply Hq. rewrite fmap_cons. by right.
Qed.

(** The file generation on a vacant target, for every valid configuration:
    it succeeds, and afterwards an entry below the project root exists exactly
    if the layout names it; outside the root only the root itself and what
    was missing above it have been made. *)
Theorem scaffold_files_layout env cfg root w :
  well_formed (fs w) ->
  vacant (fs w) root ->
  project_type cfg ∈ PROJECT_TYPES ->
  template cfg ∈ TEMPLATES ->
  ∃ f1 w',
    mkdir root true true (fs w) = (Ok tt, f1) ∧
    scaffold_files env cfg root w = (Ok tt, w') ∧
    fs w' = write_tree root f1 (layout env cfg (ticks w)) ∧
    stdin w' = stdin w ∧ stdout w' = stdout w ∧ spawned w' = spawned w ∧
    ticks w' = 4 + ticks w ∧
    (∀ ds, ds ≠ [] ->
       is_Some (fs w' !! join root ds) <-> ds ∈ (layout env cfg (ticks w)).*1) ∧
    (∀ q, (∀ ds, ds ≠ [] -> q ≠ join root ds) -> fs w' !! q = f1 !! q).
Proof.
  intros Hwf Hvac Hty Htpl.
  destruct (mkdir_vacant_root (fs w) root Hwf Hvac) as (f1 & E & Hwf1 & Hfresh1 & _).
  assert (Hup : stat f1 (parent root) = Some Dir).
  { destruct Hfresh1 as [Hr _]. destruct root as [| r up]; [done |].
    eapply well_formed_parent; [exact Hwf1 | exact Hr]. }
  assert (Hnonempty : ∀ ds, ds ∈ (layout env cfg (ticks w)).*1 -> ds ≠ []).
  { intros ds Hin ->. revert Hin. unfold layout, spec_plan, spec_type_dirs.
    unfold PROJECT_TYPES in Hty. unfold TEMPLATES in Htpl.
    rewrite !elem_of_cons in Hty. rewrite !elem_of_cons in Htpl.
    destruct Hty as [-> | [-> | [-> | Hty]]]; [| | | by apply elem_of_nil in Hty];
      (destruct Htpl as [-> | [-> | Htpl]]; [| | by apply elem_of_nil in Htpl]);
      cbn; absurd_elem. }
  exists f1. eexists.
  split; [exact E |]. split.
  { rewrite (scaffold_files_after_mkdir env cfg root w f1 E).
    - by apply scaffold_files_layout_fresh.
    - apply mkdir_present; [by destruct Hfresh1 | done]. }
  cbn [fs stdin stdout spawned ticks set_fs set_ticks].
  repeat split; try done.
  - intros Hsome. destruct (decide (ds ∈ (layout env cfg (ticks w)).*1)) as [| Hnot]; [done |].
    exfalso. rewrite lookup_write_tree_other in Hsome.
    + destruct Hfresh1 as [_ Hbelow]. rewrite Hbelow in Hsome by done.
      by destruct Hsome.
    + intros ds' Hin' Heq. apply join_inj in Heq. by subst.
  - apply lookup_write_tree_in.
  - intros q Hq. apply lookup_write_tree_other. intros ds Hin. apply Hq. by apply Hnonempty.
Qed.

(** ** A run on a machine without the version-control binary *)

Lemma generate_without_git env args cfg root w w1 e :
  arg_no_git args = false ->
  scaffold_files env cfg root w = (Ok tt, w1) ->
  env_run env GIT_PROBE None (fs w1) = CannotStart e ->
  generate env args cfg root w =
    (Ok tt,
     set_terminal (stdin w1)
       (stdout w1 ++ text_line MSG_NO_GIT :: report_lines cfg root)
       (set_spawned (spawned w1 ++ [GIT_PROBE]) w1)).
Proof.
  intros Hgit Hfiles Hprobe. unfold generate.
  rewrite (bind_unfold (scaffold_files env cfg root)), Hfiles, Hgit.
  rewrite (bind_unfold (git_init env root)), (git_init_cannot_start env root w1 e Hprobe).
  rewrite report_runs. cbn [stdin stdout set_terminal set_spawned].
  by rewrite <- app_assoc.
Qed.

(** C6. When the version-control binary is absent, so that the probe
    cannot be started, [git_init] writes the warning and returns without
    error, having attempted nothing but the probe and changed no file.  A run
    whose file generation has succeeded then goes on to its closing messages
    and ends without error, with the file system exactly as the file
    generation left it and the warning as the only addition to its output.
    In particular a run with a valid configuration on a vacant target ends
    without error with the whole documented layout below the project root. *)
Theorem missing_git_is_not_fatal (env : Env) (args : Args) (cfg : Config)
  (root : Path) (e : exn) :
  arg_no_git args = false ->
  (∀ f, env_run env GIT_PROBE None f = CannotStart e) ->
  (∀ w, ∃ w2,
     git_init env root w = (Ok tt, w2) ∧
     fs w2 = fs w ∧
     spawned w2 = (spawned w ++ [GIT_PROBE])%list ∧
     stdout w2 = (stdout w ++ [text_line MSG_NO_GIT])%list) ∧
  (∀ w w1,
     scaffold_files env cfg root w = (Ok tt, w1) ->
     ∃ w3,
       generate env args cfg root w = (Ok tt, w3) ∧
       fs w3 = fs w1 ∧
       spawned w3 = (spawned w1 ++ [GIT_PROBE])%list ∧
       stdout w3 = (stdout w1 ++ text_line MSG_NO_GIT :: report_lines cfg root)%list) ∧
  (∀ w,
     well_formed (fs w) -> vacant (fs w) root ->
     project_type cfg ∈ PROJECT_TYPES -> template cfg ∈ TEMPLATES ->
     ∃ f1 w3,
       mkdir root true true (fs w) = (Ok tt, f1) ∧
       generate env args cfg root w = (Ok tt, w3) ∧
       fs w3 = write_tree root f1 (layout env cfg (ticks w)) ∧
       spawned w3 = (spawned w ++ [GIT_PROBE])%list ∧
       stdout w3 = (stdout w ++ text_line MSG_NO_GIT :: report_lines cfg root)%list).
Proof.
  intros Hgit Habsent. split; [| split].
  - intros w. eexists. split; [by apply (git_init_cannot_start env root w e) |].
    by repeat split.
  - intros w w1 Hfiles. eexists.
    split; [by apply (generate_without_git env args cfg root w w1 e) |].
    by repeat split.
  - intros w Hwf Hvac Hty Htpl.
    destruct (scaffold_files_layout env cfg root w Hwf Hvac Hty Htpl)
      as (f1 & w1 & Hmk & Hfiles & Hfs & Hin & Hout & Hsp & _).
    exists f1. eexists. split; [exact Hmk |].
    split; [by apply (generate_without_git env args cfg root w w1 e) |].
    cbn [fs stdout spawned set_terminal set_spawned].
    rewrite Hfs, Hout, Hsp. by repeat split.
Qed.

(** C6, at a concrete input: the demonstration on an empty disk, on a
    machine without [git]. *)
Lemma missing_git_is_not_fatal_witness :
  let env := Demo.env Demo.no_git in
  let w := Demo.world ∅ [] in
  ∃ f1 w3,
    mkdir Demo.root true true ∅ = (Ok tt, f1) ∧
    generate env Demo.args Demo.config Demo.root w = (Ok tt, w3) ∧
    fs w3 = write_tree Demo.root f1 (layout env Demo.config 0) ∧
    spawned w3 = [GIT_PROBE] ∧
    stdout w3 = text_line MSG_NO_GIT :: report_lines Demo.config Demo.root.
Proof.
  intros env w.
  destruct (missing_git_is_not_fatal env Demo.args Demo.config Demo.root
              FileNotFoundError) as (_ & _ & Hrun).
  - reflexivity.
  - intros f. reflexivity.
  - apply (Hrun w).
    + concrete_well_formed.
    + split.
      * intros q _. destruct q; [by right | by left].
      * intros ds _. apply lookup_empty.
    + vm_compute. set_solver.
    + vm_compute. set_solver.
Defined.

(** * Further properties of the script *)

(** ** The writer and [mkdir] *)

Lemma write_text_well_formed p content fs r fs' :
  well_formed fs -> write_text p content fs = (r, fs') -> well_formed fs'.
Proof.
  intros Hwf. unfold write_text. destruct p as [| d up]; [by intros [= _ <-] |].
  destruct (stat fs up) as [[| c] |] eqn:Eup; try by intros [= _ <-].
  destruct (fs !! (d :: up)) as [[| c0] |] eqn:Ep; intros [= _ <-]; [done | |].
  all: intros q x Hq.
  all: assert (Hne : d :: up ≠ up) by apply (cons_app_ne_self [] d up).
  all: destruct (decide (q = d :: up)) as [-> | Hqne];
    [cbn [parent tail]; by rewrite stat_insert_ne |].
  all: rewrite lookup_insert_ne in Hq by done.
  all: pose proof (Hwf q x Hq) as Hpar; cbn beta in Hpar.
  all: rewrite stat_insert_ne; [done |].
  all: intros Heq; rewrite <- Heq in Hpar; rewrite stat_cons, Ep in Hpar; done.
Qed.

(** X1. [mkdir], with any flags, and [write_file] without overwriting never
    remove or change an entry that exists: the file system before is
    contained in the one after, whether the call returns or raises. *)
Theorem writer_never_clobbers (p : Path) (parents exist_ok : bool)
  (content : string) (fs : FS) :
  fs ⊆ (mkdir p parents exist_ok fs).2 ∧
  fs ⊆ (write_file p content false fs).2.
Proof.
  split.
  - destruct (mkdir p parents exist_ok fs) as [r fs'] eqn:E.
    by apply (keeps_subseteq_mkdir p parents exist_ok fs r fs').
  - destruct (write_file p content false fs) as [r fs'] eqn:E.
    by apply (keeps_subseteq_write_file p content fs r fs').
Qed.

(** X2. [mkdir] and [write_file], with any flags and whether they return or
    raise, leave a well-formed file system well-formed: every entry still
    sits in a directory. *)
Theorem writer_keeps_well_formed (p : Path) (parents exist_ok overwrite : bool)
  (content : string) (fs : FS) :
  well_formed fs ->
  well_formed (mkdir p parents exist_ok fs).2 ∧
  well_formed (write_file p content overwrite fs).2.
Proof.
  intros Hwf. split.
  - destruct (mkdir p parents exist_ok fs) as [r fs'] eqn:E.
    by eapply mkdir_well_formed.
  - unfold write_file. destruct (path_exists fs p && negb overwrite); [done |].
    rewrite bind_unfold.
    destruct (mkdir (parent p) true true fs) as [[[] | e] fs1] eqn:E1;
      pose proof (mkdir_well_formed _ _ _ _ _ _ Hwf E1) as Hwf1; [| done].
    destruct (write_text p content fs1) as [r fs'] eqn:E2.
    by eapply write_text_well_formed.
Qed.

Lemma writer_keeps_well_formed_witness :
  well_formed (mkdir ["f.txt"; "c"] true true Demo.occupied).2 ∧
  well_formed (write_file ["f.txt"; "c"] "x" true Demo.occupied).2.
Proof.
  apply (writer_keeps_well_formed _ true true true "x" Demo.occupied).
  concrete_well_formed.
Defined.

Lemma write_file_ok_exists p content overwrite fs fs1 :
  write_file p content overwrite fs = (Ok tt, fs1) -> path_exists fs1 p = true.
Proof.
  unfold write_file.
  destruct (path_exists fs p && negb overwrite) eqn:Ex.
  - intros [= <-]. by apply andb_prop in Ex as [-> _].
  - rewrite bind_unfold.
    destruct (mkdir (parent p) true true fs) as [[[] | e] f1]; [| done].
    unfold write_text. destruct p as [| d up]; [done |].
    destruct (stat f1 up) as [[| c] |]; try done.
    destruct (f1 !! (d :: up)) as [[| c] |]; try done;
      intros [= <-]; unfold path_exists; by rewrite stat_cons, lookup_insert_eq.
Qed.

(** X3. Once [write_file] has returned for a path, every later call for
    that path without overwriting, with whatever content, returns without
    error and changes nothing. *)
Theorem write_file_settles (p : Path) (c c' : string) (overwrite : bool) (fs : FS) :
  (write_file p c overwrite fs).1 = Ok tt ->
  write_file p c' false (write_file p c overwrite fs).2 =
    (Ok tt, (write_file p c overwrite fs).2).
Proof.
  destruct (write_file p c overwrite fs) as [r fs1] eqn:E. simpl. intros ->.
  apply write_file_skips. by eapply write_file_ok_exists.
Qed.

Lemma write_file_settles_witness :
  write_file ["a.txt"; "tmp"] "two" false
    (write_file ["a.txt"; "tmp"] "one" true (∅ : FS)).2 =
  (Ok tt, (write_file ["a.txt"; "tmp"] "one" true (∅ : FS)).2).
Proof. apply (write_file_settles ["a.txt"; "tmp"] "one" "two" true ∅). reflexivity. Defined.

(** X4. Where a directory sits at the path, [write_file] without
    overwriting skips the write without any error, so the file is never
    written, and with [overwrite=True] it raises [IsADirectoryError]; the
    file system is unchanged either way. *)
Theorem write_file_on_directory (p : Path) (content : string) (fs : FS) :
  well_formed fs ->
  stat fs p = Some Dir ->
  write_file p content false fs = (Ok tt, fs) ∧
  write_file p content true fs = (Raise IsADirectoryError, fs).
Proof.
  intros Hwf Hp. split.
  - apply write_file_skips. unfold path_exists. by rewrite Hp.
  - unfold write_file. rewrite andb_false_r, bind_unfold.
    destruct p as [| d up]; [reflexivity |].
    rewrite stat_cons in Hp.
    cbn [parent tail]. rewrite mkdir_existing; [| done | by eapply well_formed_parent].
    unfold write_text. by rewrite (well_formed_parent fs d up Dir Hwf Hp), Hp.
Qed.

Lemma write_file_on_directory_witness :
  write_file Demo.root "text" false Demo.occupied = (Ok tt, Demo.occupied) ∧
  write_file Demo.root "text" true Demo.occupied =
    (Raise IsADirectoryError, Demo.occupied).
Proof.
  apply (write_file_on_directory Demo.root "text" Demo.occupied).
  - concrete_well_formed.
  - reflexivity.
Defined.

Lemma for_each_mkdir_blocked (fs : FS) (base : Path) (names : list string)
  (d c : string) :
  stat fs base = Some Dir ->
  d ∈ names ->
  fs !! (d :: base) = Some (File c) ->
  (for_each names (fun n => mkdir (base / n)%path true true) fs).1 =
    Raise FileExistsError.
Proof.
  revert fs. induction names as [| n names IH]; intros fs Hbase Hin Hd;
    [by apply elem_of_nil in Hin |].
  cbn [for_each]. rewrite bind_unfold.
  assert (Hfile : ∀ c0, fs !! (n :: base) = Some (File c0) ->
            mkdir (n :: base) true true fs = (Raise FileExistsError, fs)).
  { intros c0 H0. rewrite mkdir_cons. unfold os_mkdir. rewrite Hbase, H0.
    unfold is_dir. by rewrite stat_cons, H0. }
  destruct (decide (n = d)) as [-> | Hne]; [by rewrite (Hfile c Hd) |].
  destruct (fs !! (n :: base)) as [[| c0] |] eqn:En.
  - rewrite mkdir_child by eauto. apply IH.
    + rewrite stat_insert_ne; [done | apply (cons_app_ne_self [] n base)].
    + apply elem_of_cons in Hin as [-> | Hin]; done.
    + rewrite lookup_insert_ne; [done | congruence].
  - by rewrite (Hfile c0 eq_refl).
  - rewrite mkdir_child by eauto. apply IH.
    + rewrite stat_insert_ne; [done | apply (cons_app_ne_self [] n base)].
    + apply elem_of_cons in Hin as [-> | Hin]; done.
    + rewrite lookup_insert_ne; [done | congruence].
Qed.

(** X5. If one of the names [docs], [tests], [scripts], [infra] is taken by
    a regular file in the project root, [create_common_dirs] raises
    [FileExistsError]: the [exist_ok] of its [mkdir] only tolerates a
    directory. *)
Theorem create_common_dirs_blocked (root : Path) (d c : string) (fs : FS) :
  stat fs root = Some Dir ->
  d ∈ ["docs"; "tests"; "scripts"; "infra"] ->
  fs !! (root / d)%path = Some (File c) ->
  (create_common_dirs root fs).1 = Raise FileExistsError.
Proof.
  intros Hroot Hin Hd. unfold create_common_dirs.
  by apply (for_each_mkdir_blocked fs root _ d c).
Qed.

Lemma create_common_dirs_blocked_witness :
  (create_common_dirs Demo.root
     (<[ (Demo.root / "tests")%path := File "notes" ]> Demo.occupied)).1 =
  Raise FileExistsError.
Proof.
  apply (create_common_dirs_blocked Demo.root "tests" "notes").
  - reflexivity.
  - set_solver.
  - reflexivity.
Defined.

(** ** The directory steps on a project root that is not there *)




(** ** The prompt loop *)

Lemma prompt_loop_rounds (text : string) (default : option string)
  (choices : list string) (bad : list string) (lines out : list string) :
  Forall (fun l => accepted choices (answer_of default l) = false) bad ->
  prompt_loop text default choices (bad ++ lines) out =
  prompt_loop text default choices lines
    (out ++ concat (retry_output text default choices <$> bad)).
Proof.
  revert out. induction bad as [| l bad IH]; intros out Hbad.
  - simpl. by rewrite app_nil_r.
  - apply Forall_cons in Hbad as [Hl Hbad].
    rewrite fmap_cons, concat_cons. unfold retry_output at 1.
    change ((l :: bad) ++ lines)%list with (l :: (bad ++ lines))%list.
    cbn [prompt_loop]. fold (prompt_of text default). fold (answer_of default l).
    fold (refused choices (answer_of default l)).
    unfold accepted in Hl.
    destruct (refused choices (answer_of default l)) eqn:Er.
    + rewrite IH by done. f_equal. by rewrite <- !app_assoc.
    + simpl in Hl. rewrite Hl. rewrite IH by done. f_equal. by rewrite <- !app_assoc.
Qed.

(** X7. When no value was given on the command line, [prompt_if_missing]
    returns the first answer that is acceptable (non-empty after stripping
    and defaulting, and one of the choices where there are choices): the
    lines before it are consumed, each with a prompt and, where it was not
    one of the choices, the notice; the lines after it are left.  If no line
    of the input is acceptable the call ends in [EOFError], the input used
    up.  Nothing but the terminal is touched. *)
Theorem prompt_returns_first_valid (value : option string) (text : string)
  (default : option string) (choices : list string) (w : World)
  (bad : list string) :
  truthy value = false ->
  Forall (fun l => accepted choices (answer_of default l) = false) bad ->
  (∀ good rest,
     stdin w = (bad ++ good :: rest)%list ->
     accepted choices (answer_of default good) = true ->
     prompt_if_missing value text default choices w =
       (Ok (answer_of default good),
        set_terminal rest
          (stdout w ++ concat (retry_output text default choices <$> bad)
             ++ [prompt_of text default]) w)) ∧
  (stdin w = bad ->
   prompt_if_missing value text default choices w =
     (Raise EOFError,
      set_terminal []
        (stdout w ++ concat (retry_output text default choices <$> bad)
           ++ [prompt_of text default]) w)).
Proof.
  intros Hv Hbad. unfold prompt_if_missing. rewrite Hv. split.
  - intros good rest Hin Hgood. rewrite Hin, prompt_loop_rounds by done.
    cbn [prompt_loop]. fold (prompt_of text default). fold (answer_of default good).
    fold (refused choices (answer_of default good)).
    unfold accepted in Hgood. apply andb_true_iff in Hgood as [Hr He].
    apply negb_true_iff in Hr. rewrite Hr, He. by rewrite <- app_assoc.
  - intros Hin. rewrite Hin.
    rewrite <- (app_nil_r bad) at 1. rewrite prompt_loop_rounds by done.
    cbn [prompt_loop]. fold (prompt_of text default). by rewrite <- app_assoc.
Qed.

Lemma prompt_returns_first_valid_witness :
  let w := Demo.world ∅ ["  "; "desktop"; " web-app "; "later"] in
  let text := "请选择项目类型 " ++ repr_list PROJECT_TYPES in
  let notice := text_line ("请输入有效选项: " ++ repr_list PROJECT_TYPES) in
  prompt_if_missing None text None PROJECT_TYPES w =
    (Ok "web-app",
     set_terminal ["later"]
       [text ++ ": "; notice; text ++ ": "; notice; text ++ ": "] w).
Proof.
  intros w text notice.
  destruct (prompt_returns_first_valid None text None PROJECT_TYPES w ["  "; "desktop"])
    as [Hfirst _].
  - reflexivity.
  - repeat constructor.
  - exact (Hfirst " web-app " ["later"] eq_refl eq_refl).
Defined.

(** ** Runs without a terminal *)

(** X8. The two planning questions (weeks, hours per week) have no
    command-line flag, so a run cannot be made without a terminal: with the
    input at its end, [main] ends in [EOFError] whatever the arguments are,
    also when name, type, Chinese name and template are all given.  Nothing
    was created, no command was run. *)
Theorem main_needs_a_terminal (env : Env) (args : Args) (w : World) :
  stdin w = [] ->
  ∃ w', main env args w = (Raise EOFError, w') ∧
        fs w' = fs w ∧ spawned w' = spawned w ∧ ticks w' = ticks w.
Proof.
  intros Hin. unfold main. rewrite bind_unfold.
  assert (∃ w', resolve_config env args w = (Raise EOFError, w') ∧ quiet w w')
    as (w' & E & Hq & Hs & Ht).
  { unfold resolve_config, bind, prompt_if_missing.
    destruct (truthy (arg_project_name args));
      [| rewrite Hin; eexists; split; [reflexivity | apply quiet_set_terminal]].
    destruct (truthy (arg_project_cn_name args));
      [| rewrite Hin; eexists; split; [reflexivity | apply quiet_set_terminal]].
    destruct (truthy (arg_project_type args));
      [| rewrite Hin; eexists; split; [reflexivity | apply quiet_set_terminal]].
    destruct (truthy (arg_template args));
      [| rewrite Hin; eexists; split; [reflexivity | apply quiet_set_terminal]].
    cbn [truthy]. rewrite Hin. eexists. split; [reflexivity | apply quiet_set_terminal]. }
  rewrite E. by exists w'.
Qed.

Lemma main_needs_a_terminal_witness :
  let env := Demo.env Demo.good_git in
  let args :=
    {| arg_project_name := Some "demo-app"; arg_project_type := Some "service-api";
       arg_project_cn_name := Some "演示"; arg_template := Some "default";
       arg_base_dir := Some "/tmp/x"; arg_no_git := true |} in
  ∃ w', main env args (Demo.world ∅ []) = (Raise EOFError, w') ∧
        fs w' = ∅ ∧ spawned w' = [] ∧ ticks w' = 0.
Proof.
  intros env args. apply (main_needs_a_terminal env args (Demo.world ∅ [])).
  reflexivity.
Defined.

(** ** Defaults *)

Lemma prompt_if_missing_given (v : string) (text : string)
  (default : option string) (choices : list string) (w : World) :
  v ≠ "" -> prompt_if_missing (Some v) text default choices w = (Ok v, w).
Proof. intros Hv. by destruct v. Qed.

Lemma prompt_if_missing_blank (value : option string) (text d : string)
  (choices : list string) (w : World) (line : string) (rest : list string) :
  truthy value = false ->
  stdin w = line :: rest ->
  strip line = "" ->
  d ≠ "" ->
  choices = [] ∨ d ∈ choices ->
  prompt_if_missing value text (Some d) choices w =
    (Ok d, set_terminal rest (stdout w ++ [text ++ " [" ++ d ++ "]: "]) w).
Proof.
  intros Hv Hin Hblank Hd Hch. unfold prompt_if_missing. rewrite Hv, Hin.
  cbn [prompt_loop]. rewrite Hblank. rewrite (decide_True (P := "" = "")) by done.
  rewrite (bool_decide_eq_false_2 (d = "")) by done.
  destruct Hch as [-> | Hch]; [done |].
  rewrite (bool_decide_eq_true_2 (d ∈ choices)) by done.
  by rewrite andb_false_r.
Qed.

(** X9. Answering with an empty line (or blanks only) takes the default
    where there is one: with the name and the type given on the command
    line and four blank answers, the Chinese name becomes the project name,
    the template [default], the period [4] weeks and the time [20] hours per
    week; the base directory is the flag's value or, without one, the
    current directory.  Exactly the four lines are consumed. *)
Theorem blank_answers_take_defaults (env : Env) (args : Args) (w : World)
  (name ty l1 l2 l3 l4 : string) (rest : list string) :
  arg_project_name args = Some name -> name ≠ "" ->
  arg_project_type args = Some ty -> ty ≠ "" ->
  truthy (arg_project_cn_name args) = false ->
  truthy (arg_template args) = false ->
  stdin w = l1 :: l2 :: l3 :: l4 :: rest ->
  strip l1 = "" -> strip l2 = "" -> strip l3 = "" -> strip l4 = "" ->
  ∃ w', resolve_config env args w =
          (Ok {| project_name := name; project_cn_name := name;
                 project_type := ty; template := "default";
                 base_dir := or_else (arg_base_dir args) (env_getcwd env);
                 duration_weeks := "4"; hours_per_week := "20" |}, w') ∧
        stdin w' = rest ∧ length (stdout w') = (4 + length (stdout w))%nat.
Proof.
  intros Hname Hn Hty Ht Hcn Htpl Hin B1 B2 B3 B4.
  unfold resolve_config. rewrite Hname, Hty.
  rewrite (bind_unfold (prompt_if_missing (Some name) _ _ _)).
  rewrite prompt_if_missing_given by done.
  rewrite (bind_unfold (prompt_if_missing (arg_project_cn_name args) _ _ _)).
  rewrite (prompt_if_missing_blank _ _ name [] w l1 (l2 :: l3 :: l4 :: rest))
    by (done || by left).
  rewrite (bind_unfold (prompt_if_missing (Some ty) _ _ _)).
  rewrite prompt_if_missing_given by done.
  rewrite (bind_unfold (prompt_if_missing (arg_template args) _ _ _)).
  rewrite (prompt_if_missing_blank _ _ "default" TEMPLATES _ l2 (l3 :: l4 :: rest))
    by (done || (right; set_solver)).
  rewrite (bind_unfold (prompt_if_missing None _ _ _)).
  rewrite (prompt_if_missing_blank None _ "4" [] _ l3 (l4 :: rest))
    by (done || by left).
  rewrite (bind_unfold (prompt_if_missing None _ _ _)).
  rewrite (prompt_if_missing_blank None _ "20" [] _ l4 rest)
    by (done || by left).
  eexists. split; [reflexivity |]. split; [done |].
  cbn [stdout set_terminal]. rewrite !length_app. simpl. lia.
Qed.

Lemma blank_answers_take_defaults_witness :
  let env := Demo.env Demo.no_git in
  let args :=
    {| arg_project_name := Some "demo-app"; arg_project_type := Some "service-api";
       arg_project_cn_name := None; arg_template := None;
       arg_base_dir := Some "/tmp/x"; arg_no_git := false |} in
  let w := Demo.world ∅ [""; "  "; ""; ""; "left"] in
  ∃ w', resolve_config env args w = (Ok Demo.config, w') ∧
        stdin w' = ["left"] ∧ length (stdout w') = 4%nat.
Proof.
  intros env args w.
  apply (blank_answers_take_defaults env args w "demo-app" "service-api"
           "" "  " "" "" ["left"]); (reflexivity || discriminate).
Defined.

(** ** The guard on the target, where it does not ask *)

Lemma confirm_target_vacant (root : Path) (w : World) :
  stat (fs w) root = None ∨
    (stat (fs w) root = Some Dir ∧ children (fs w) root = []) ->
  confirm_target root w = (Ok true, w).
Proof.
  destruct w as [f lines out n sp]. cbn [fs]. intros Hvac.
  unfold confirm_target, bind, on_fs, exists_, iterdir, ret, path_exists.
  cbn [fs set_fs].
  destruct Hvac as [Hnone | [Hdir Hempty]].
  - by rewrite Hnone.
  - rewrite Hdir. cbn [fs set_fs]. by rewrite Hdir, Hempty.
Qed.

Lemma confirm_target_file (root : Path) (w : World) (c : string) :
  stat (fs w) root = Some (File c) ->
  confirm_target root w = (Raise NotADirectoryError, w).
Proof.
  destruct w as [f lines out n sp]. cbn [fs]. intros Hfile.
  unfold confirm_target, bind, on_fs, exists_, iterdir, ret, path_exists.
  cbn [fs set_fs]. rewrite Hfile. cbn [fs set_fs]. by rewrite Hfile.
Qed.

(** The project root for some names, below the base directory [/tmp/x]: the
    name [.] gives the base directory itself, a name with slashes a nested
    root, an absolute name replaces the base, and a segment [..] is kept. *)
Lemma project_root_examples :
  let base : Path := ["x"; "tmp"] in
  truediv base "demo-app" = ["demo-app"; "x"; "tmp"] ∧
  truediv base "." = base ∧
  truediv base "a/b" = ["b"; "a"; "x"; "tmp"] ∧
  truediv base "demo/" = ["demo"; "x"; "tmp"] ∧
  truediv base "./a//b/." = ["b"; "a"; "x"; "tmp"] ∧
  truediv base "/abs/p" = ["p"; "abs"] ∧
  truediv base "///y" = ["y"] ∧
  truediv base "x/../y" = ["y"; ".."; "x"; "x"; "tmp"] ∧
  str_path (truediv base "x/../y") = "/tmp/x/x/../y" ∧
  str_path (truediv base "//a/b") = "//a/b" ∧
  str_path (truediv base "//") = "//" ∧
  str_path (truediv base "/") = "/".
Proof. vm_compute. repeat split. Qed.

(** With the name [.] the project root is the base directory: where that
    holds entries the question is put, and an answer other than [y] ends the
    run with nothing written. *)
Lemma dot_name_is_the_base_directory :
  let env := Demo.env Demo.no_git in
  let args :=
    {| arg_project_name := Some "."; arg_project_type := Some "service-api";
       arg_project_cn_name := None; arg_template := Some "default";
       arg_base_dir := Some "/tmp/x"; arg_no_git := true |} in
  let w := Demo.world Demo.occupied [""; ""; ""; "n"] in
  ∃ w', main env args w = (Ok tt, w') ∧
        fs w' = Demo.occupied ∧ stdin w' = [] ∧
        last (stdout w') = Some (text_line MSG_CANCELLED) ∧
        MSG_CONFIRM ∈ stdout w'.
Proof.
  intros env args w. eexists. split; [vm_compute; reflexivity |].
  split; [reflexivity |]. split; [reflexivity |]. split; [reflexivity |].
  cbn [stdout]. set_solver.
Qed.

(** X10. The confirmation is asked for only on a directory that has
    entries.  Let the project root, [base / name] as [pathlib] forms it, be a
    path of names (no segment [..], no root of two slashes), on a disk of
    directories and regular files.  On a root that does not exist, and on an
    existing directory without entries, the guard lets the run proceed
    without reading or writing the terminal.  On a root that is a regular
    file it does not ask either: listing it raises [NotADirectoryError],
    which nothing catches, so [main] ends there with the file system as it
    was.  A name such as [.] or [a/b] is covered: its root is the base
    directory itself, or two levels below it. *)
Theorem guard_without_question (env : Env) (args : Args) (w : World) (cfg : Config) :
  (resolve_config env args w).1 = Ok cfg ->
  names_only (project_root_of env cfg) ->
  let root := project_root_of env cfg in
  let w1 := (resolve_config env args w).2 in
  (stat (fs w) root = None ∨
   (stat (fs w) root = Some Dir ∧ children (fs w) root = []) ->
   confirm_target root w1 = (Ok true, w1) ∧
   main env args w = generate env args cfg root w1) ∧
  (∀ c, stat (fs w) root = Some (File c) ->
        confirm_target root w1 = (Raise NotADirectoryError, w1) ∧
        main env args w = (Raise NotADirectoryError, w1) ∧
        fs w1 = fs w).
Proof.
  intros Hcfg _ root w1.
  destruct (resolve_config_spec env args w) as [(Hfs & _ & _) _].
  fold w1 in Hfs.
  assert (Hmain : main env args w =
            (proceed <- confirm_target root ;;
             if proceed : bool then generate env args cfg root else ret tt) w1).
  { unfold main. rewrite bind_unfold.
    destruct (resolve_config env args w) as [r w'] eqn:E. simpl in Hcfg. by subst r. }
  split.
  - intros Hvac. rewrite <- Hfs in Hvac.
    pose proof (confirm_target_vacant root w1 Hvac) as Hc.
    split; [exact Hc |]. rewrite Hmain, bind_unfold. by rewrite Hc.
  - intros c Hfile. rewrite <- Hfs in Hfile.
    pose proof (confirm_target_file root w1 c Hfile) as Hc.
    split; [exact Hc |]. split; [| exact Hfs].
    rewrite Hmain, bind_unfold. by rewrite Hc.
Qed.

(** The segments of the example root are names. *)
Ltac demo_names :=
  let d := fresh "d" in
  let Hd := fresh "Hd" in
  intros d Hd; change (d ∈ Demo.root) in Hd; unfold Demo.root in Hd;
  repeat (apply elem_of_cons in Hd as [-> | Hd]; [by repeat split |]);
  by apply elem_of_nil in Hd.

Lemma guard_without_question_witness :
  let env := Demo.env Demo.no_git in
  let blocked : FS :=
    <[ Demo.root := File "not a directory" ]>
      (<[ ["x"; "tmp"] := Dir ]> (<[ ["tmp"] := Dir ]> ∅)) in
  let w := Demo.world blocked [""; ""; ""] in
  let w1 := (resolve_config env Demo.args w).2 in
  main env Demo.args w = (Raise NotADirectoryError, w1) ∧ fs w1 = blocked.
Proof.
  intros env blocked w w1.
  destruct (guard_without_question env Demo.args w Demo.config) as [_ Hfile];
    [reflexivity | demo_names |].
  destruct (Hfile "not a directory" eq_refl) as (_ & Hmain & Hfs).
  split; [exact Hmain | exact Hfs].
Defined.

(** ** Version control: the other ways through [git_init] *)

Ltac git_cbn :=
  cbn [fs set_fs set_spawned set_terminal stdin stdout spawned ticks andb negb
       Z.eqb].



(** X12. What a failing commit leaves.  When the probe could be started,
    the target holds no [.git] and [git init] and [git add] exit with status
    0, the four commands are run in order, and the file system is what the
    commit left, whatever its exit status: with status 0 the success line is
    written; with another status the warning with the text of the
    [CalledProcessError], and what [git init] and [git add] did is not
    undone.  In both cases [git_init] returns normally, so a run goes on to
    its closing messages. *)
Theorem git_init_commit_outcome (env : Env) (args : Args) (cfg : Config)
  (root : Path) (w : World) (rc rc3 : Z) (f1 f2 f3 f4 : FS) :
  env_run env GIT_PROBE None (fs w) = Exited rc f1 ->
  path_exists f1 (root / ".git")%path = false ->
  env_run env GIT_INIT (Some root) f1 = Exited 0 f2 ->
  env_run env GIT_ADD (Some root) f2 = Exited 0 f3 ->
  env_run env GIT_COMMIT (Some root) f3 = Exited rc3 f4 ->
  let msg :=
    if (rc3 =? 0)%Z then MSG_GIT_DONE
    else MSG_GIT_FAILED ++ env_str_exn env (CalledProcessError GIT_COMMIT rc3) in
  let w' :=
    set_terminal (stdin w) (stdout w ++ [text_line msg])
      (set_fs f4
         (set_spawned (spawned w ++ [GIT_PROBE; GIT_INIT; GIT_ADD; GIT_COMMIT]) w)) in
  git_init env root w = (Ok tt, w') ∧
  (arg_no_git args = false ->
   ∀ w0, scaffold_files env cfg root w0 = (Ok tt, w) ->
         generate env args cfg root w0 =
           (Ok tt, set_terminal (stdin w) (stdout w' ++ report_lines cfg root) w')).
Proof.
  intros Hprobe Hgit Hinit Hadd Hcommit msg w'.
  assert (Hrun : git_init env root w = (Ok tt, w')).
  { subst w' msg. destruct w as [f lines out n sp]. cbn [fs] in Hprobe.
    unfold git_init, try_except, bind, subprocess_run, on_fs, exists_, print, ret.
    cbn [fs set_fs set_spawned set_terminal stdin stdout spawned ticks andb].
    rewrite Hprobe. git_cbn. rewrite Hgit. git_cbn. rewrite Hinit. git_cbn.
    rewrite Hadd. git_cbn. rewrite Hcommit.
    destruct (rc3 =? 0)%Z; git_cbn; by rewrite <- !app_assoc. }
  split; [exact Hrun |].
  intros Hflag w0 Hfiles. unfold generate.
  rewrite (bind_ok _ _ _ _ _ Hfiles), Hflag.
  rewrite (bind_ok _ _ _ _ _ Hrun). by rewrite report_runs.
Qed.

Lemma git_init_commit_outcome_witness :
  let env := Demo.env git_without_identity in
  let w := Demo.world Demo.occupied [] in
  let left : FS := <[ (Demo.root / ".git")%path := Dir ]> Demo.occupied in
  git_init env Demo.root w =
    (Ok tt,
     set_terminal []
       [text_line
          (MSG_GIT_FAILED ++
           Demo.str_exn (CalledProcessError GIT_COMMIT 128))]
       (set_fs left (set_spawned [GIT_PROBE; GIT_INIT; GIT_ADD; GIT_COMMIT] w))).
Proof.
  intros env w left.
  exact (proj1 (git_init_commit_outcome env Demo.args Demo.config Demo.root w
                  0 128 Demo.occupied left left left
                  eq_refl eq_refl eq_refl eq_refl eq_refl)).
Defined.

(** ** Frames of a whole run *)

Section KeepsWorld.

Context (R : World -> World -> Prop).
Hypothesis R_refl : ∀ w, R w w.
Hypothesis R_trans : ∀ w1 w2 w3, R w1 w2 -> R w2 w3 -> R w1 w3.

Lemma keeps_world_ret {A : Type} (a : A) : keeps_world R (ret a).
Proof using R_refl. intros w r w' [= <- <-]. apply R_refl. Qed.

Lemma keeps_world_bind {A B : Type} (m : M A) (k : A -> M B) :
  keeps_world R m -> (∀ a, keeps_world R (k a)) -> keeps_world R (bind m k).
Proof using R_trans.
  intros Hm Hk w r w'. rewrite bind_unfold.
  destruct (m w) as [[a | e] w1] eqn:E; intros H.
  - eapply R_trans; [by eapply Hm | by eapply Hk].
  - injection H as <- <-. by eapply Hm.
Qed.

Lemma keeps_world_getitem (d : dict) (key : string) :
  keeps_world R (getitem d key).
Proof using R_refl.
  unfold getitem. destruct (dict_get d key); intros w r w' [= <- <-]; apply R_refl.
Qed.

End KeepsWorld.

Lemma kept_but_refl (p : Path) (fs : FS) : kept_but p fs fs.
Proof. by intros q x _ H. Qed.

Lemma kept_but_trans (p : Path) (fs1 fs2 fs3 : FS) :
  kept_but p fs1 fs2 -> kept_but p fs2 fs3 -> kept_but p fs1 fs3.
Proof. intros H1 H2 q x Hq Hx. by apply H2, H1. Qed.

Lemma subseteq_kept_but (p : Path) (fs fs' : FS) : fs ⊆ fs' -> kept_but p fs fs'.
Proof. intros Hsub q x _ Hx. by eapply lookup_weaken. Qed.

Lemma undisturbed_refl (p : Path) (w : World) : undisturbed p w w.
Proof. split; [done | apply kept_but_refl]. Qed.

Lemma undisturbed_trans (p : Path) (w1 w2 w3 : World) :
  undisturbed p w1 w2 -> undisturbed p w2 w3 -> undisturbed p w1 w3.
Proof.
  intros [(A1 & B1 & C1) K1] [(A2 & B2 & C2) K2]. split.
  - unfold silent. by rewrite A2, B2, C2.
  - by eapply kept_but_trans.
Qed.

Lemma keeps_world_on_fs {A : Type} (p : Path) (m : SE FS A) :
  keeps (kept_but p) m -> keeps_world (undisturbed p) (on_fs m).
Proof.
  intros Hm w r w'. rewrite on_fs_unfold.
  destruct (m (fs w)) as [r1 f] eqn:E. intros [= <- <-].
  split; [done |]. by eapply Hm.
Qed.

Lemma keeps_world_adding {A : Type} (p : Path) (m : SE FS A) :
  keeps (⊆) m -> keeps_world (undisturbed p) (on_fs m).
Proof.
  intros Hm. apply keeps_world_on_fs. intros f r f' E.
  by eapply subseteq_kept_but, Hm.
Qed.

Lemma keeps_world_datetime_now (env : Env) (p : Path) :
  keeps_world (undisturbed p) (datetime_now env).
Proof. intros w r w' [= <- <-]. split; [done | apply kept_but_refl]. Qed.

(** With [overwrite=True], [write_file] changes no entry but the one it
    writes. *)
Lemma keeps_kept_but_write_file (p : Path) (content : string) (overwrite : bool) :
  keeps (kept_but p) (write_file p content overwrite).
Proof.
  intros fs r fs'. unfold write_file.
  destruct (path_exists fs p && negb overwrite);
    [intros [= <- <-]; apply kept_but_refl |].
  rewrite bind_unfold.
  destruct (mkdir (parent p) true true fs) as [[[] | e] fs1] eqn:E1;
    pose proof (keeps_subseteq_mkdir _ _ _ _ _ _ E1) as Hsub.
  - unfold write_text. intros H.
    assert (fs' = fs1 ∨ fs' = <[p := File content]> fs1) as [-> | ->].
    { destruct p as [| d up]; [left; congruence |].
      destruct (stat fs1 up) as [[| c] |]; [| left; congruence | left; congruence].
      destruct (fs1 !! (d :: up)) as [[| c] |]; [left | right | right]; congruence. }
    + by apply subseteq_kept_but.
    + intros q x Hq Hx. rewrite lookup_insert_ne by done. by eapply lookup_weaken.
  - intros [= <- <-]. by apply subseteq_kept_but.
Qed.

Lemma keeps_subseteq_apply_template (root : Path) (pt tpl : string) (meta : dict) :
  keeps (⊆) (apply_template root pt tpl meta).
Proof.
  unfold apply_template, apply_fintech_dapp_template, FRONTEND_DIRS, BACKEND_DIRS.
  destruct (decide (tpl = "fintech-dapp")); keeps_subseteq.
Qed.

Lemma keeps_subseteq_create_type_dirs (root : Path) (pt : string) :
  keeps (⊆) (create_type_dirs root pt).
Proof. unfold create_type_dirs. keeps_subseteq. Qed.

Lemma keeps_subseteq_create_common_dirs (root : Path) :
  keeps (⊆) (create_common_dirs root).
Proof. unfold create_common_dirs. keeps_subseteq. Qed.

Ltac keeps_undisturbed :=
  repeat first
    [ apply keeps_world_getitem; apply undisturbed_refl
    | apply keeps_world_datetime_now
    | apply keeps_world_adding;
      first [ apply keeps_subseteq_mkdir | apply keeps_subseteq_write_file
            | apply keeps_subseteq_create_common_dirs
            | apply keeps_subseteq_create_type_dirs
            | apply keeps_subseteq_apply_template ]
    | apply keeps_world_on_fs; apply keeps_kept_but_write_file
    | apply keeps_world_bind; [apply undisturbed_trans | | intros ?] ].

Lemma scaffold_files_undisturbed (env : Env) (cfg : Config) (root : Path) :
  keeps_world (undisturbed (root / "project_meta.json")%path)
    (scaffold_files env cfg root).
Proof.
  unfold scaffold_files, init_readme, init_env_example, init_license,
    init_changelog, init_docs, write_project_meta.
  keeps_undisturbed.
Qed.

(** X13. The file generation never damages what is there, on a disk that
    holds directories and regular files only (no symbolic and no hard links,
    so that writing one entry changes no other).  Whatever the configuration
    and the state of the target, and whether the generation completes or
    ends in an exception half-way, every entry that existed before it (file
    with its content, or directory) is unchanged after it, with the one
    exception of [project_meta.json] in the project root, which is
    rewritten.  The generation uses neither the terminal nor an external
    command. *)
Theorem scaffold_files_keeps_existing (env : Env) (cfg : Config) (root : Path)
  (w : World) :
  let w' := (scaffold_files env cfg root w).2 in
  (∀ q x, q ≠ (root / "project_meta.json")%path ->
          fs w !! q = Some x -> fs w' !! q = Some x) ∧
  stdin w' = stdin w ∧ stdout w' = stdout w ∧ spawned w' = spawned w.
Proof.
  intros w'. subst w'.
  destruct (scaffold_files env cfg root w) as [r w'] eqn:E.
  destruct (scaffold_files_undisturbed env cfg root w r w' E) as [Hs Hk].
  split; [exact Hk | exact Hs].
Qed.

Lemma confirm_target_quiet (root : Path) (w : World) :
  quiet w (confirm_target root w).2.
Proof.
  destruct w as [f lines out n sp].
  unfold confirm_target, bind, on_fs, exists_, iterdir, ret, print, input.
  cbn [fs set_fs stdin stdout].
  destruct (path_exists f root); cbn [fs set_fs stdin stdout snd]; [| done].
  destruct (stat f root) as [[| c] |]; cbn [fs set_fs stdin stdout snd]; [| done | done].
  destruct (negb (bool_decide (children f root = [])));
    cbn [fs set_fs set_terminal stdin stdout snd]; [| done].
  destruct lines as [| answer rest]; cbn [fs set_fs set_terminal stdin stdout snd];
    [done |].
  by destruct (decide (lower (strip answer) ≠ "y")).
Qed.

(** X14. With [--no-git] a whole run is safe for what exists, on a disk
    that holds directories and regular files only (no symbolic and no hard
    links): whatever the other arguments, the answers on the terminal and
    the state of the disk, and however the run ends (completed, declined at
    the confirmation, or stopped by an exception), no external command is
    run, and every entry that existed before the run, anywhere on the disk,
    is unchanged after it, unless its name is [project_meta.json]. *)
Theorem no_git_run_keeps_existing (env : Env) (args : Args) (w : World) :
  arg_no_git args = true ->
  let w' := (main env args w).2 in
  spawned w' = spawned w ∧
  ∀ q x, head q ≠ Some "project_meta.json" ->
         fs w !! q = Some x -> fs w' !! q = Some x.
Proof.
  intros Hflag w'. subst w'. unfold main. rewrite bind_unfold.
  destruct (resolve_config_spec env args w) as [(Hfs1 & Hsp1 & _) _].
  destruct (resolve_config env args w) as [[cfg | e] w1]; cbn [snd] in *;
    [| by rewrite Hfs1, Hsp1].
  rewrite bind_unfold.
  destruct (confirm_target_quiet (project_root_of env cfg) w1) as (Hfs2 & Hsp2 & _).
  destruct (confirm_target (project_root_of env cfg) w1) as [[[|] | e] w2];
    cbn [snd] in *; [| unfold ret; cbn [snd]; by rewrite Hfs2, Hsp2, Hfs1, Hsp1 ..].
  unfold generate. rewrite Hflag. rewrite bind_unfold.
  destruct (scaffold_files env cfg (project_root_of env cfg) w2) as [r w3] eqn:E3.
  destruct (scaffold_files_undisturbed env cfg _ w2 r w3 E3) as [(_ & _ & Hsp3) Hk].
  assert (Hkept : ∀ q x, head q ≠ Some "project_meta.json" ->
                         fs w !! q = Some x -> fs w3 !! q = Some x).
  { intros q x Hq Hx. apply Hk; [| by rewrite Hfs2, Hfs1].
    intros ->. by apply Hq. }
  destruct r as [[] | e]; cbn [snd]; [| by rewrite Hsp3, Hsp2, Hsp1].
  rewrite bind_unfold. unfold ret. rewrite report_runs.
  cbn [snd set_terminal fs spawned]. by rewrite Hsp3, Hsp2, Hsp1.
Qed.

Lemma no_git_run_keeps_existing_witness :
  let env := Demo.env Demo.good_git in
  let args :=
    {| arg_project_name := Some "demo-app"; arg_project_type := Some "service-api";
       arg_project_cn_name := None; arg_template := Some "default";
       arg_base_dir := Some "/tmp/x"; arg_no_git := true |} in
  let w := Demo.world Demo.occupied [""; ""; ""; "y"] in
  spawned (main env args w).2 = [] ∧
  fs (main env args w).2 !! (Demo.root / "notes.txt")%path = Some (File "keep me").
Proof.
  intros env args w.
  destruct (no_git_run_keeps_existing env args w eq_refl) as [Hsp Hk].
  split; [exact Hsp |].
  apply Hk; [discriminate | reflexivity].
Defined.

(** ** A first run, from the command line to the closing messages *)

Lemma children_vacant (fs : FS) (root : Path) :
  (∀ ds, ds ≠ [] -> fs !! join root ds = None) -> children fs root = [].
Proof.
  intros Hbelow. apply elem_of_nil_inv. intros q Hq.
  unfold children in Hq. apply list_elem_of_filter in Hq as [[Hne Hpar] Hin].
  apply list_elem_of_fmap in Hin as ([q' x] & -> & Hin). simpl in *.
  apply elem_of_map_to_list in Hin.
  destruct q' as [| d up]; [done |]. simpl in Hpar. subst up.
  pose proof (Hbelow [d] ltac:(done)) as Hnone. unfold join in Hnone.
  simpl in Hnone. congruence.
Qed.

(** X15. A first run with [--no-git], end to end, on a disk of directories
    and regular files.  When the prompts have resolved a configuration, the
    project root, [base / name] as [pathlib] forms it, is a path of names
    (no segment [..], no root of two slashes) and the target is vacant
    (absent or an empty directory, with no regular file in the way at any
    level above it), [main] asks no confirmation and completes: the project
    root is made with what was missing above it, below it exactly the
    documented layout is written, the clock having been read four times, and
    the terminal shows, after the prompts, the eight closing lines and
    nothing else.  No command is run. *)
Theorem first_run_without_git (env : Env) (args : Args) (w : World) (cfg : Config) :
  arg_no_git args = true ->
  parsed args ->
  (resolve_config env args w).1 = Ok cfg ->
  names_only (project_root_of env cfg) ->
  well_formed (fs w) ->
  vacant (fs w) (project_root_of env cfg) ->
  let root := project_root_of env cfg in
  let w1 := (resolve_config env args w).2 in
  ∃ f1 w',
    mkdir root true true (fs w) = (Ok tt, f1) ∧
    main env args w = (Ok tt, w') ∧
    fs w' = write_tree root f1 (layout env cfg (ticks w)) ∧
    (∀ ds, ds ≠ [] ->
       is_Some (fs w' !! join root ds) <-> ds ∈ (layout env cfg (ticks w)).*1) ∧
    stdin w' = stdin w1 ∧
    stdout w' = (stdout w1 ++ report_lines cfg root)%list ∧
    spawned w' = spawned w ∧
    ticks w' = (4 + ticks w)%nat.
Proof.
  intros Hflag Hparsed Hcfg _ Hwf Hvac root w1.
  destruct (resolve_config_spec env args w) as [(Hfs & Hsp & Htk) Hvalid].
  fold w1 in Hfs, Hsp, Htk.
  destruct (Hvalid Hparsed cfg Hcfg) as (_ & _ & Hty & Htpl & _).
  assert (Hguard : confirm_target root w1 = (Ok true, w1)).
  { apply confirm_target_vacant. rewrite Hfs. destruct Hvac as [Hc Hbelow].
    destruct (Hc root) as [Hn | Hd]; [done | by left |].
    right. split; [done | by apply children_vacant]. }
  rewrite <- Hfs in Hwf, Hvac.
  destruct (scaffold_files_layout env cfg root w1 Hwf Hvac Hty Htpl)
    as (f1 & w2 & Hmk & Hrun & Hlay & Hin & Hout & Hsp2 & Htk2 & Hbelow & _).
  exists f1. eexists. split; [by rewrite <- Hfs |]. split.
  { unfold main. rewrite bind_unfold.
    destruct (resolve_config env args w) as [r w0] eqn:E. simpl in Hcfg. subst r.
    change w0 with w1. fold root. rewrite (bind_ok _ _ _ _ _ Hguard).
    unfold generate. rewrite (bind_ok _ _ _ _ _ Hrun), Hflag.
    rewrite bind_unfold. unfold ret. apply report_runs. }
  cbn [fs set_terminal stdin stdout spawned ticks].
  rewrite <- Htk. split; [done |]. split; [done |]. split; [done |].
  split; [by rewrite Hout |]. split; [by rewrite Hsp2 | done].
Qed.

Lemma first_run_without_git_witness :
  let env := Demo.env Demo.good_git in
  let args :=
    {| arg_project_name := Some "demo-app"; arg_project_type := Some "service-api";
       arg_project_cn_name := None; arg_template := Some "default";
       arg_base_dir := Some "/tmp/x"; arg_no_git := true |} in
  let w := Demo.world ∅ [""; ""; ""] in
  let w1 := (resolve_config env args w).2 in
  ∃ f1 w',
    mkdir Demo.root true true ∅ = (Ok tt, f1) ∧
    main env args w = (Ok tt, w') ∧
    fs w' = write_tree Demo.root f1 (layout env Demo.config 0) ∧
    stdout w' = (stdout w1 ++ report_lines Demo.config Demo.root)%list ∧
    spawned w' = [].
Proof.
  intros env args w w1.
  destruct (first_run_without_git env args w Demo.config) as
    (f1 & w' & Hmk & Hmain & Hfs & _ & _ & Hout & Hsp & _).
  - reflexivity.
  - split; intros t [= <-]; set_solver.
  - reflexivity.
  - demo_names.
  - concrete_well_formed.
  - split.
    + intros q _. destruct q; [by right | by left].
    + intros ds _. apply lookup_empty.
  - exists f1, w'. by repeat split.
Defined.

(** ** Running the generation again *)

Lemma write_file_over (fs : FS) (d : string) (up : Path) (content c0 : string) :
  stat fs up = Some Dir -> stat fs (parent up) = Some Dir ->
  fs !! (d :: up) = Some (File c0) ->
  write_file (d :: up) content true fs = (Ok tt, <[d :: up := File content]> fs).
Proof.
  intros Hup Hupup Hp. unfold write_file, path_exists.
  rewrite stat_cons, Hp. simpl. rewrite bind_unfold.
  rewrite mkdir_present by done. unfold write_text. by rewrite Hup, Hp.
Qed.

Ltac solve_file :=
  repeat (rewrite lookup_insert_ne by path_neq);
  apply lookup_insert_eq.

Ltac restep Hroot Hup Hfresh :=
  world_cbn; unfold bind, ret;
  first
    [ rewrite mkdir_present; [ | solve_dir Hroot Hup | solve_dir Hroot Hup ]
    | rewrite write_file_skips;
      [ | eapply path_exists_some; rewrite stat_cons; solve_file ]
    | erewrite write_file_over;
      [ | solve_dir Hroot Hup | solve_dir Hroot Hup | solve_file ]
    | rewrite path_exists_none;
      [ | rewrite stat_cons; solve_none Hfresh ]
    | rewrite (path_exists_some _ _ Dir);
      [ | solve_dir Hroot Hup ] ].

Lemma scaffold_files_again_fresh (env : Env) (cfg cfg' : Config) (root : Path)
  (f : FS) (n : nat) (w : World) :
  fresh_root f root ->
  stat f (parent root) = Some Dir ->
  project_type cfg ∈ PROJECT_TYPES ->
  template cfg ∈ TEMPLATES ->
  project_type cfg' = project_type cfg ->
  template cfg' = template cfg ->
  fs w = write_tree root f (layout env cfg n) ->
  scaffold_files env cfg' root w =
    (Ok tt,
     set_ticks (4 + ticks w)
       (set_fs
          (<[(root / "project_meta.json")%path :=
               File (json_dumps
                       (meta_of cfg' ++
                        [("created_at", isoformat (env_clock env (3 + ticks w)));
                         ("scaffold_version", "2.0")]) ++ LF)]> (fs w)) w)).
Proof.
  intros [Hroot Hfresh] Hup Hty Htpl Hty' Htpl' Hfs.
  destruct w as [f0 lines out m sp]. cbn [fs] in Hfs. subst f0.
  unfold PROJECT_TYPES in Hty. unfold TEMPLATES in Htpl.
  rewrite !elem_of_cons in Hty. rewrite !elem_of_cons in Htpl.
  assert (Hlen : (length (tail root) <= length root)%nat)
    by (destruct root; simpl; lia).
  assert (Hlen' : (length (parent root) <= length root)%nat) by done.
  destruct Hty as [Hty | [Hty | [Hty | Hty]]]; [| | | by apply elem_of_nil in Hty].
  all: destruct Htpl as [Htpl | [Htpl | Htpl]]; [| | by apply elem_of_nil in Htpl].
  all: unfold scaffold_files, layout; rewrite Hty', Htpl', Hty, Htpl.
  all: unfold create_common_dirs, create_type_dirs, init_readme, init_env_example,
    init_license, init_changelog, init_docs, apply_template,
    apply_fintech_dapp_template, write_project_meta, datetime_now, exists_,
    FRONTEND_DIRS, BACKEND_DIRS, spec_plan, spec_common_dirs, spec_type_dirs.
  all: rewrite_getitems cfg'.
  all: resolve_decides.
  all: cbn [write_tree foldl fmap list_fmap app join reverse rev_append fst snd].
  all: unfold bind, ret, on_fs; world_cbn.
  all: repeat restep Hroot Hup Hfresh.
  all: reflexivity.
Qed.

(** X16. Running the generation a second time on its own result.  After a
    first run on a vacant target, a second run for the same project type and
    template (the other fields of the configuration may differ) completes,
    and the only thing it changes is [project_meta.json], rewritten with the
    second configuration and the reading of the clock at that time: no entry
    is added, and every file of the first run keeps the content the first
    run gave it, also [README.md] and [docs/project-brief.md], which carry
    the names and figures of the first configuration, and the dated files. *)
Theorem second_run_rewrites_only_the_record (env : Env) (cfg cfg' : Config)
  (root : Path) (w : World) :
  well_formed (fs w) ->
  vacant (fs w) root ->
  project_type cfg ∈ PROJECT_TYPES ->
  template cfg ∈ TEMPLATES ->
  project_type cfg' = project_type cfg ->
  template cfg' = template cfg ->
  ∃ w1 w2,
    scaffold_files env cfg root w = (Ok tt, w1) ∧
    scaffold_files env cfg' root w1 = (Ok tt, w2) ∧
    fs w2 =
      <[(root / "project_meta.json")%path :=
          File (json_dumps
                  (meta_of cfg' ++
                   [("created_at", isoformat (env_clock env (7 + ticks w)));
                    ("scaffold_version", "2.0")]) ++ LF)]> (fs w1) ∧
    (∀ q, q ≠ (root / "project_meta.json")%path -> fs w2 !! q = fs w1 !! q) ∧
    ticks w2 = (8 + ticks w)%nat.
Proof.
  intros Hwf Hvac Hty Htpl Hty' Htpl'.
  destruct (mkdir_vacant_root (fs w) root Hwf Hvac) as (f1 & E & Hwf1 & Hfresh1 & _).
  assert (Hup : stat f1 (parent root) = Some Dir).
  { destruct Hfresh1 as [Hr _]. destruct root as [| r up]; [done |].
    eapply well_formed_parent; [exact Hwf1 | exact Hr]. }
  assert (Hfirst : scaffold_files env cfg root w =
            (Ok tt,
             set_ticks (4 + ticks w)
               (set_fs (write_tree root f1 (layout env cfg (ticks w))) (set_fs f1 w)))).
  { rewrite (scaffold_files_after_mkdir env cfg root w f1 E).
    - by apply scaffold_files_layout_fresh.
    - apply mkdir_present; [by destruct Hfresh1 | done]. }
  eexists. eexists. split; [exact Hfirst |].
  split; [| split; [| split]].
  - by eapply (scaffold_files_again_fresh env cfg cfg' root f1 (ticks w)).
  - reflexivity.
  - intros q Hq. cbn [fs set_fs set_ticks]. by apply lookup_insert_ne.
  - reflexivity.
Qed.

Lemma second_run_rewrites_only_the_record_witness :
  let env := Demo.env Demo.no_git in
  let renamed :=
    {| project_name := "demo-app"; project_cn_name := "新名字";
       project_type := "service-api"; template := "default";
       base_dir := "/tmp/x"; duration_weeks := "8"; hours_per_week := "10" |} in
  ∃ w1 w2,
    scaffold_files env Demo.config Demo.root (Demo.world ∅ []) = (Ok tt, w1) ∧
    scaffold_files env renamed Demo.root w1 = (Ok tt, w2) ∧
    (∀ q, q ≠ (Demo.root / "project_meta.json")%path -> fs w2 !! q = fs w1 !! q) ∧
    ticks w2 = 8%nat.
Proof.
  intros env renamed.
  destruct (second_run_rewrites_only_the_record env Demo.config renamed Demo.root
              (Demo.world ∅ [])) as (w1 & w2 & H1 & H2 & _ & Hkept & Hticks).
  - concrete_well_formed.
  - split.
    + intros q _. destruct q; [by right | by left].
    + intros ds _. apply lookup_empty.
  - set_solver.
  - set_solver.
  - reflexivity.
  - reflexivity.
  - exists w1, w2. split; [exact H1 |]. split; [exact H2 |]. split; [exact Hkept | exact Hticks].
Defined.

(** ** When the generation completes *)

Lemma runs_fs_bind {A B : Type} (P Q R : FS -> Prop) (m : SE FS A) (k : A -> SE FS B) :
  runs_fs P m Q -> (∀ a, runs_fs Q (k a) R) -> runs_fs P (bind m k) R.
Proof.
  intros Hm Hk fs HP. destruct (Hm fs HP) as (a & fs1 & E1 & HQ).
  rewrite (bind_ok _ _ _ _ _ E1). by apply Hk.
Qed.

Lemma runs_bind {A B : Type} (P Q R : FS -> Prop) (m : M A) (k : A -> M B) :
  runs P m Q -> (∀ a, runs Q (k a) R) -> runs P (bind m k) R.
Proof.
  intros Hm Hk w HP. destruct (Hm w HP) as (a & w1 & E1 & HQ).
  rewrite (bind_ok _ _ _ _ _ E1). by apply Hk.
Qed.

Lemma runs_on_fs {A : Type} (P Q : FS -> Prop) (m : SE FS A) :
  runs_fs P m Q -> runs P (on_fs m) Q.
Proof.
  intros Hm w HP. destruct (Hm (fs w) HP) as (a & fs1 & E1 & HQ).
  exists a, (set_fs fs1 w). rewrite on_fs_unfold, E1. by split.
Qed.

Lemma runs_datetime_now (env : Env) (P : FS -> Prop) :
  runs P (datetime_now env) P.
Proof. intros w HP. eexists _, _. split; [reflexivity | exact HP]. Qed.

Lemma runs_fs_ret (P : FS -> Prop) : runs_fs P (ret tt) P.
Proof. intros fs HP. by exists tt, fs. Qed.

Lemma runs_fs_weaken {A : Type} (P Q Q' : FS -> Prop) (m : SE FS A) :
  runs_fs P m Q' -> (∀ fs, Q' fs -> Q fs) -> runs_fs P m Q.
Proof.
  intros Hm Hw fs HP. destruct (Hm fs HP) as (a & fs1 & E1 & HQ).
  exists a, fs1. split; [done | by apply Hw].
Qed.

Lemma settled_weaken (D E E' X X' : list Path) (meta : Path) (fs : FS) :
  (∀ p, p ∈ E -> p ∈ E') -> (∀ p, p ∈ X -> p ∈ X') ->
  settled D E' X' meta fs -> settled D E X meta fs.
Proof.
  intros HE HX (Hwf & HD & HE' & HX' & Hm).
  split; [done |]. split; [done |]. split; [by intros p Hp; apply HE', HE |].
  split; [by intros p Hp; apply HX', HX | done].
Qed.

Lemma well_formed_insert_file (fs : FS) (d : string) (up : Path) (content : string) :
  well_formed fs -> stat fs up = Some Dir ->
  fs !! (d :: up) ≠ Some Dir ->
  well_formed (<[d :: up := File content]> fs).
Proof.
  intros Hwf Hup Hp.
  apply (write_text_well_formed (d :: up) content fs (Ok tt)); [done |].
  unfold write_text. rewrite Hup.
  by destruct (fs !! (d :: up)) as [[| c] |].
Qed.

Lemma settled_mkdir (D E X : list Path) (meta : Path) (d : string) (up : Path)
  (parents : bool) :
  up ∈ E -> (d :: up) ∈ D -> d :: up ≠ meta ->
  runs_fs (settled D E X meta) (mkdir (d :: up) parents true)
    (settled D ((d :: up) :: E) X meta).
Proof.
  intros Hup HpD Hmeta fs (Hwf & HD & HE & HX & Hm).
  exists tt, (<[d :: up := Dir]> fs). split.
  { apply mkdir_child; [by apply HE | by apply HD]. }
  split; [apply well_formed_insert_dir; [done | by apply HE] |].
  split; [| split; [| split]].
  - intros p Hp. destruct (decide (p = d :: up)) as [-> | Hne].
    + right. apply lookup_insert_eq.
    + rewrite lookup_insert_ne by done. by apply HD.
  - intros p Hp. destruct (decide (p = d :: up)) as [-> | Hne].
    + apply stat_insert_eq.
    + rewrite stat_insert_ne by done.
      apply elem_of_cons in Hp as [-> | Hp]; [done | by apply HE].
  - intros p Hp. destruct (decide (p = d :: up)) as [-> | Hne].
    + rewrite lookup_insert_eq. by eexists.
    + rewrite lookup_insert_ne by done. by apply HX.
  - by rewrite lookup_insert_ne.
Qed.

Lemma settled_write_file (D E X : list Path) (meta : Path) (d : string) (up : Path)
  (content : string) :
  up ∈ E -> (d :: up) ∉ D -> d :: up ≠ meta ->
  runs_fs (settled D E X meta) (write_file (d :: up) content false)
    (settled D E ((d :: up) :: X) meta).
Proof.
  intros Hup HpD Hmeta fs (Hwf & HD & HE & HX & Hm).
  destruct (fs !! (d :: up)) as [x |] eqn:Ep.
  - exists tt, fs. split.
    { apply write_file_skips. apply (path_exists_some _ _ x). by rewrite stat_cons. }
    split; [done |]. split; [done |]. split; [done |]. split; [| done].
    intros p Hp. apply elem_of_cons in Hp as [-> | Hp]; [by eexists | by apply HX].
  - exists tt, (<[d :: up := File content]> fs). split.
    { apply write_file_in_dir; [done | by apply HE | by left]. }
    split; [apply well_formed_insert_file; [done | by apply HE | by rewrite Ep] |].
    split; [| split; [| split]].
    + intros p Hp. rewrite lookup_insert_ne by (by intros <-). by apply HD.
    + intros p Hp. rewrite stat_insert_ne; [by apply HE |].
      intros <-. apply HE in Hp. rewrite stat_cons in Hp. congruence.
    + intros p Hp. destruct (decide (p = d :: up)) as [-> | Hne].
      * rewrite lookup_insert_eq. by eexists.
      * rewrite lookup_insert_ne by done.
        apply elem_of_cons in Hp as [-> | Hp]; [done | by apply HX].
    + by rewrite lookup_insert_ne.
Qed.

Lemma settled_write_record (D E X : list Path) (d : string) (up : Path)
  (content : string) :
  up ∈ E -> (d :: up) ∉ D ->
  runs_fs (settled D E X (d :: up)) (write_file (d :: up) content true)
    (settled D E ((d :: up) :: X) (d :: up)).
Proof.
  intros Hup HpD fs (Hwf & HD & HE & HX & Hm).
  exists tt, (<[d :: up := File content]> fs). split.
  { apply write_file_in_dir; [done | by apply HE |].
    destruct (fs !! (d :: up)) as [[| c] |]; [done | right; eauto | by left]. }
  split; [apply well_formed_insert_file; [done | by apply HE | done] |].
  split; [| split; [| split]].
  - intros p Hp. rewrite lookup_insert_ne by (by intros <-). by apply HD.
  - intros p Hp. rewrite stat_insert_ne; [by apply HE |].
    intros <-. apply HE in Hp. rewrite stat_cons in Hp. congruence.
  - intros p Hp. destruct (decide (p = d :: up)) as [-> | Hne].
    + rewrite lookup_insert_eq. by eexists.
    + rewrite lookup_insert_ne by done.
      apply elem_of_cons in Hp as [-> | Hp]; [done | by apply HX].
  - by rewrite lookup_insert_eq.
Qed.

(** The test [p.exists()] where [p] is known to be a directory, and where
    it is only known not to be a regular file. *)
Lemma settled_exists_known {B : Type} (D E X : list Path) (meta p : Path)
  (k : bool -> SE FS B) (Q : FS -> Prop) :
  p ∈ E ->
  runs_fs (settled D E X meta) (k true) Q ->
  runs_fs (settled D E X meta) (bind (exists_ p) k) Q.
Proof.
  intros Hp Hk fs HP. rewrite bind_unfold. unfold exists_.
  destruct HP as (Hwf & HD & HE & HX & Hm).
  rewrite (path_exists_some _ _ Dir) by (by apply HE).
  apply Hk. by repeat split.
Qed.

Lemma settled_exists_open {B : Type} (D E X : list Path) (meta p : Path)
  (k : bool -> SE FS B) (Q : FS -> Prop) :
  p ∈ D ->
  runs_fs (settled D E X meta) (k false) Q ->
  runs_fs (settled D (p :: E) X meta) (k true) Q ->
  runs_fs (settled D E X meta) (bind (exists_ p) k) Q.
Proof.
  intros Hp Hfalse Htrue fs HP. rewrite bind_unfold. unfold exists_, path_exists.
  destruct (stat fs p) as [x |] eqn:Es; [| by apply Hfalse].
  apply Htrue. destruct HP as (Hwf & HD & HE & HX & Hm).
  split; [done |]. split; [done |]. split; [| by split].
  intros q Hq. apply elem_of_cons in Hq as [-> | Hq]; [| by apply HE].
  destruct p as [| d up]; [done |]. rewrite stat_cons in Es |- *.
  destruct (HD _ Hp) as [Hn | Hd]; congruence.
Qed.

Lemma runs_ret_bind {A B : Type} (P Q : FS -> Prop) (a : A) (k : A -> M B) :
  runs P (k a) Q -> runs P (bind (ret a) k) Q.
Proof. intros H. exact H. Qed.

Lemma runs_fs_ret_bind {A B : Type} (P Q : FS -> Prop) (a : A) (k : A -> SE FS B) :
  runs_fs P (k a) Q -> runs_fs P (bind (ret a) k) Q.
Proof. intros H. exact H. Qed.

Ltac solve_elem :=
  solve [ repeat first [ apply list_elem_of_here | apply list_elem_of_further ] ].

Ltac not_elem :=
  let H := fresh in
  intros H;
  repeat (apply elem_of_cons in H as [H | H];
          [ first [ discriminate H
                  | (apply (f_equal length) in H; simpl in H; lia) ] | ]);
  by apply elem_of_nil in H.

Ltac solve_weaker :=
  let fs := fresh "fs" in
  intros fs; apply settled_weaken;
  let p := fresh "p" in
  let Hp := fresh "Hp" in
  intros p Hp;
  repeat (apply elem_of_cons in Hp as [-> | Hp]; [solve_elem |]);
  by apply elem_of_nil in Hp.

Ltac fs_atom :=
  first
    [ eapply settled_mkdir; [solve_elem | solve_elem | path_neq]
    | eapply settled_write_file; [solve_elem | not_elem | path_neq]
    | eapply settled_write_record; [solve_elem | not_elem]
    | apply runs_fs_ret ].

Ltac run_fs :=
  cbv beta iota zeta; cbn [for_each];
  lazymatch goal with
  | |- runs_fs _ (bind (ret _) _) _ => eapply runs_fs_ret_bind; run_fs
  | |- runs_fs _ (bind (exists_ _) _) _ =>
      first [ eapply settled_exists_known; [solve_elem | run_fs]
            | eapply settled_exists_open; [solve_elem | run_fs | run_fs] ]
  | |- runs_fs _ (bind _ _) _ => eapply runs_fs_bind; [run_fs | intros ?; run_fs]
  | |- _ => first [ fs_atom | eapply runs_fs_weaken; [fs_atom | solve_weaker] ]
  end.

Ltac run_world :=
  cbv beta iota zeta;
  lazymatch goal with
  | |- runs _ (bind (ret _) _) _ => eapply runs_ret_bind; run_world
  | |- runs _ (bind _ _) _ => eapply runs_bind; [run_world | intros ?; run_world]
  | |- runs _ (datetime_now _) _ => apply runs_datetime_now
  | |- runs _ (on_fs _) _ => eapply runs_on_fs; run_fs
  end.

Lemma generation_runs (env : Env) (cfg : Config) (root : Path) :
  project_type cfg ∈ PROJECT_TYPES ->
  template cfg ∈ TEMPLATES ->
  let meta := meta_of cfg in
  ∃ E X,
    runs (settled (join root <$> needed_dirs cfg) [root] [] (root / "project_meta.json")%path)
      (on_fs (create_common_dirs root) ;;
       on_fs (create_type_dirs root (project_type cfg)) ;;
       on_fs (init_readme root (project_name cfg) (project_cn_name cfg)
                (project_type cfg) (template cfg)) ;;
       on_fs (init_env_example root) ;;
       init_license env root ;;
       init_changelog env root ;;
       init_docs env root meta ;;
       on_fs (apply_template root (project_type cfg) (template cfg) meta) ;;
       write_project_meta env root meta)
      (settled (join root <$> needed_dirs cfg) E X (root / "project_meta.json")%path) ∧
    (∀ ds, ds ∈ spec_plan (project_type cfg) -> ds ≠ [] ∧ join root ds ∈ E) ∧
    (∀ n ds, ds ∈ (layout env cfg n).*1 ->
             ds ≠ [] ∧ (join root ds ∈ E ∨ join root ds ∈ X)).
Proof.
  intros Hty Htpl meta. subst meta.
  unfold PROJECT_TYPES in Hty. unfold TEMPLATES in Htpl.
  rewrite !elem_of_cons in Hty. rewrite !elem_of_cons in Htpl.
  assert (Hlen : (length (tail root) <= length root)%nat)
    by (destruct root; simpl; lia).
  destruct Hty as [Hty | [Hty | [Hty | Hty]]]; [| | | by apply elem_of_nil in Hty].
  all: destruct Htpl as [Htpl | [Htpl | Htpl]]; [| | by apply elem_of_nil in Htpl].
  all: unfold needed_dirs, layout; rewrite Hty, Htpl.
  all: unfold create_common_dirs, create_type_dirs, init_readme, init_env_example,
    init_license, init_changelog, init_docs, apply_template,
    apply_fintech_dapp_template, write_project_meta,
    FRONTEND_DIRS, BACKEND_DIRS, spec_plan, spec_common_dirs, spec_type_dirs.
  all: rewrite_getitems cfg.
  all: resolve_decides.
  all: cbn [fmap list_fmap app join reverse rev_append fst snd].
  all: eexists _, _.
  all: split; [run_world |].
  all: split; [intros ds Hin | intros n ds Hin].
  all: repeat (apply elem_of_cons in Hin as [-> | Hin];
               [ split; [discriminate |]; cbn [join reverse rev_append app];
                 first [ solve_elem | left; solve_elem | right; solve_elem ] | ]).
  all: by apply elem_of_nil in Hin.
Qed.

(** X17. When the generation completes.  On any target, occupied or not,
    the generation runs to its end provided the file system is a tree, the
    project root can be made a directory, no regular file sits where the
    generation needs a directory (the directories of the plan and, with the
    fintech-dapp template, [src/frontend], [src/backend] and the directories
    in them), and [project_meta.json] is not a directory.  Afterwards every
    directory of the plan is a directory and every entry of the documented
    layout exists. *)
Theorem generation_completes (env : Env) (cfg : Config) (root : Path) (w : World) :
  well_formed (fs w) ->
  creatable (fs w) root ->
  (∀ ds c, ds ∈ needed_dirs cfg -> fs w !! join root ds ≠ Some (File c)) ->
  fs w !! (root / "project_meta.json")%path ≠ Some Dir ->
  project_type cfg ∈ PROJECT_TYPES ->
  template cfg ∈ TEMPLATES ->
  ∃ w', scaffold_files env cfg root w = (Ok tt, w') ∧
    (∀ ds, ds ∈ spec_plan (project_type cfg) -> fs w' !! join root ds = Some Dir) ∧
    (∀ ds, ds ∈ (layout env cfg (ticks w)).*1 -> is_Some (fs w' !! join root ds)).
Proof.
  intros Hwf Hc Hfree Hmeta Hty Htpl.
  destruct (mkdir_parents_ok root (fs w) Hc) as (fs1 & E1 & Hroot).
  pose proof (mkdir_well_formed _ _ _ _ _ _ Hwf E1) as Hwf1.
  pose proof (mkdir_grows _ _ _ _ _ _ E1) as Hgrow.
  destruct (generation_runs env cfg root Hty Htpl) as (E & X & Hruns & HplanE & HlayEX).
  destruct (Hruns (set_fs fs1 w)) as ([] & w' & Hrun & (Hwf' & _ & HE & HX & _)).
  { cbn [fs set_fs]. split; [done |]. split; [| split; [| split]].
    - intros p Hp. apply list_elem_of_fmap in Hp as (ds & -> & Hds).
      destruct (Hgrow (join root ds)) as [-> | (_ & Hd & _)]; [| by right].
      destruct (fs w !! join root ds) as [[| c] |] eqn:Ep; [by right | | by left].
      by destruct (Hfree ds c Hds).
    - intros p Hp. apply list_elem_of_singleton in Hp as ->. exact Hroot.
    - intros p Hp. by apply elem_of_nil in Hp.
    - by rewrite (grows_to_above _ _ _ _ Hgrow). }
  exists w'. split.
  { unfold scaffold_files. rewrite bind_unfold, on_fs_unfold, E1. exact Hrun. }
  assert (Hdir : ∀ ds, ds ≠ [] -> join root ds ∈ E -> fs w' !! join root ds = Some Dir).
  { intros ds Hne Hin. apply HE in Hin.
    destruct (join root ds) eqn:Ej; [by apply join_not_nil in Ej | done]. }
  split.
  - intros ds Hds. destruct (HplanE ds Hds) as [Hne Hin]. by apply Hdir.
  - intros ds Hds. destruct (HlayEX _ ds Hds) as [Hne [Hin | Hin]].
    + rewrite Hdir by done. by eexists.
    + by apply HX.
Qed.

Lemma generation_completes_witness :
  let env := Demo.env Demo.no_git in
  let w := Demo.world Demo.occupied [] in
  ∃ w', scaffold_files env Demo.tool_config Demo.root w = (Ok tt, w') ∧
        fs w' !! (Demo.root / "src" / "cli")%path = Some Dir ∧
        is_Some (fs w' !! (Demo.root / "docs" / "fintech-notes.md")%path).
Proof.
  intros env w.
  destruct (generation_completes env Demo.tool_config Demo.root w)
    as (w' & Hrun & Hplan & Hlay).
  - concrete_well_formed.
  - intros q [k Hk]. right. unfold Demo.root in Hk.
    do 3 (destruct k as [| ? k]; simpl in Hk;
          [subst q; reflexivity | injection Hk as _ Hk]).
    destruct k; [simpl in Hk; subst q; reflexivity | discriminate Hk].
  - intros ds c Hds.
    repeat (apply elem_of_cons in Hds as [-> | Hds]; [discriminate |]).
    by apply elem_of_nil in Hds.
  - discriminate.
  - set_solver.
  - set_solver.
  - exists w'. split; [exact Hrun |]. split.
    + apply (Hplan ["src"; "cli"]).
      unfold spec_plan, spec_common_dirs, spec_type_dirs.
      cbn [Demo.tool_config project_type]. resolve_decides. cbn [app]. solve_elem.
    + apply (Hlay ["docs"; "fintech-notes.md"]).
      unfold layout, spec_plan, spec_common_dirs, spec_type_dirs.
      cbn [Demo.tool_config project_type template]. resolve_decides.
      cbn [fmap list_fmap app fst]. solve_elem.
Defined.
